(** * travis-size-report: the report stream transformer and the info cards

    A shallow embedding of
    - [src/ui/travis.ts]      ([basename], [transformChanges],
                               [TravisFetcher.newlineDelimtedJsonStream]),
    - the [state] chunk       ([state.has], [state.get], [getSizeContents],
                               [setSizeClasses]),
    - [src/ui/infocard-ui.ts] ([Infocard._updateSize],
                               [ContainerInfocard._updateBreakdownRow],
                               [ContainerInfocard._updateInfocard]),
    followed by the properties of the specification that concern them.

    Conventions.
    - Byte counts, symbol counts and their signed differences are integers;
      they are held in [Z].  (A JavaScript number represents every integer of
      magnitude below 2^53 exactly, and [+], [-] and unary [-] are exact on
      them.)
    - Numbers that need not be integers (percentages, angles) are kept in a
      type [num] behind the interface [JsNumber], with two instances: IEEE-754
      binary64, which is what the program runs on, and the real numbers.
    - A JavaScript string is a [string]; ['/'] is one character in both. *)

From Stdlib Require Import ZArith List String Ascii Bool Lia.
From Stdlib Require Import Sorting.Sorted Sorting.Permutation.
From Stdlib Require Import SpecFloat.
From Stdlib Require Import Reals Lra.
Import ListNotations.

Local Open Scope string_scope.
Local Open Scope list_scope.
Local Open Scope Z_scope.

(* ================================================================== *)
(** * JavaScript values shared by the modules *)
(* ================================================================== *)

Module Js.

(** Exceptions.  [Error msg] is [new Error(msg)]; [TypeError] is what the
    engine raises when a property of [undefined] is read. *)
Inductive JsError : Type :=
| Error (message : string)
| TypeError.

(** [e.name] of an exception object. *)
Definition error_name (e : JsError) : string :=
  match e with
  | Error _ => "Error"
  | TypeError => "TypeError"
  end.

(** The settled value of an awaited promise, or the result of a call that
    may throw. *)
Inductive Result (A : Type) : Type :=
| Ok (a : A)
| Throw (e : JsError).
Arguments Ok {A} a.
Arguments Throw {A} e.

Definition bind {A B : Type} (r : Result A) (k : A -> Result B) : Result B :=
  match r with
  | Ok a => k a
  | Throw e => Throw e
  end.

(** ** Strings *)

(** [s.lastIndexOf(c)] for a one-character needle [c]: scans [s] from the
    left, remembering the last index where [c] was seen; [-1] if none. *)
Fixpoint lastIndexOf_from (s : string) (c : ascii) (i found : Z) : Z :=
  match s with
  | EmptyString => found
  | String a s' =>
      lastIndexOf_from s' c (i + 1) (if Ascii.eqb a c then i else found)
  end.

Definition lastIndexOf (s : string) (c : ascii) : Z :=
  lastIndexOf_from s c 0 (-1).

Fixpoint drop (n : nat) (s : string) : string :=
  match n, s with
  | O, _ => s
  | S n', String _ s' => drop n' s'
  | S _, EmptyString => EmptyString
  end.

(** [s.substring(start)]: a negative [start] counts as [0], one past the
    end gives the empty string. *)
Definition substring (s : string) (start : Z) : string :=
  drop (Z.to_nat (Z.max 0 start)) s.

(** [s.split(c)] for a one-character separator: never the empty array. *)
Fixpoint split (c : ascii) (s : string) : list string :=
  match s with
  | EmptyString => [EmptyString]
  | String a s' =>
      if Ascii.eqb a c then EmptyString :: split c s'
      else match split c s' with
           | [] => [String a EmptyString]
           | w :: ws => String a w :: ws
           end
  end.

(** [c] occurs in [s]. *)
Fixpoint occurs (c : ascii) (s : string) : bool :=
  match s with
  | EmptyString => false
  | String a s' => Ascii.eqb a c || occurs c s'
  end.

(** ** Numbers that need not be integers *)

Class JsNumber (num : Type) : Type := {
  of_int : Z -> num;            (* an integer literal or integer value *)
  num_add : num -> num -> num;  (* x + y *)
  num_mul : num -> num -> num;  (* x * y *)
  num_div : num -> num -> num;  (* x / y *)
  num_abs : num -> num;         (* Math.abs(x) *)
  num_gt : num -> num -> bool;  (* x > y *)
  Math_PI : num                 (* Math.PI *)
}.

End Js.

Export Js.

(* ================================================================== *)
(** * src/ui/travis.ts *)
(* ================================================================== *)

Module Travis.

(** [FileData] of [cli/compare-travis]: the fields [travis.ts] reads. *)
Record FileData : Type := {
  path : string;
  size : Z;
  gzipSize : Z
}.

(** [BuildChanges] of [cli/compare-travis].  [changedItems] is a
    [Map<FileData, FileData>] keyed by the old record (an object, compared by
    identity); it is held as the list of its entries [(old, new)] in
    iteration order, and [changedItems.size] is the number of entries. *)
Record BuildChanges : Type := {
  newItems : list FileData;
  deletedItems : list FileData;
  sameItems : list FileData;
  changedItems : list (FileData * FileData)
}.

(** One element of [FileEntry.s]. *)
Record SymbolEntry : Type := {
  n : string;
  b : Z;
  g : Z;
  t : string;
  u : Z
}.

Record FileEntry : Type := {
  p : string;
  s : list SymbolEntry
}.

Record Meta : Type := {
  total : Z;
  diff_mode : bool
}.

Definition basename (path : string) : string :=
  substring path (lastIndexOf path "/"%char + 1).

(** [arr.push(x)]. *)
Definition push {A : Type} (arr : list A) (x : A) : list A := arr ++ [x].

(** [for (const x of xs) entries.push(f x)]. *)
Definition for_of_push {A B : Type} (xs : list A) (f : A -> B)
  (entries : list B) : list B :=
  fold_left (fun acc x => push acc (f x)) xs entries.

Section Transform.

(** The global constant [_CODE_SYMBOL_TYPE] is declared outside the
    files at hand. *)
Variable _CODE_SYMBOL_TYPE : string.

Definition newEntry (data : FileData) : FileEntry :=
  {| p := path data;
     s := [ {| n := basename (path data);
               b := size data;
               g := gzipSize data;
               t := _CODE_SYMBOL_TYPE;
               u := 1 |} ] |}.

Definition deletedEntry (data : FileData) : FileEntry :=
  {| p := path data;
     s := [ {| n := basename (path data);
               b := - size data;
               g := - gzipSize data;
               t := _CODE_SYMBOL_TYPE;
               u := -1 |} ] |}.

Definition sameEntry (data : FileData) : FileEntry :=
  {| p := path data;
     s := [ {| n := basename (path data);
               b := 0;
               g := 0;
               t := _CODE_SYMBOL_TYPE;
               u := 1 |} ] |}.

Definition changedEntry (item : FileData * FileData) : FileEntry :=
  let '(oldData, newData) := item in
  {| p := path newData;
     s := [ {| n := basename (path newData);
               b := size newData - size oldData;
               g := gzipSize newData - gzipSize oldData;
               t := _CODE_SYMBOL_TYPE;
               u := 1 |} ] |}.

Definition transformChanges (changes : BuildChanges)
  : Meta * list FileEntry :=
  let total :=
    Z.of_nat (List.length (newItems changes)) +
    Z.of_nat (List.length (deletedItems changes)) +
    Z.of_nat (List.length (sameItems changes)) +
    Z.of_nat (List.length (changedItems changes)) in
  let meta := {| total := total; diff_mode := true |} in
  let entries := [] in
  let entries := for_of_push (newItems changes) newEntry entries in
  let entries := for_of_push (deletedItems changes) deletedEntry entries in
  let entries := for_of_push (sameItems changes) sameEntry entries in
  let entries := for_of_push (changedItems changes) changedEntry entries in
  (meta, entries).

(** ** [TravisFetcher] *)

(** What the async generator hands to its consumer. *)
Inductive Yielded : Type :=
| YMeta (meta : Meta)
| YEntry (entry : FileEntry).

Section Fetcher.

(** [getBuildInfo] and [getChanges] live in [cli/compare-travis]; they
    talk to the CI service.  Each is represented by the settled value of
    the promise it returns.  An element of the array [getBuildInfo]
    resolves to is [None] when it is [undefined]. *)
Variable BuildInfo : Type.
Variable getBuildInfo :
  option string -> option string -> string -> Z ->
  Result (list (option BuildInfo)).
Variable getChanges : BuildInfo -> BuildInfo -> Result BuildChanges.

(** Calls made to the collaborators, for the record. *)
Inductive Call : Type :=
| CallGetBuildInfo (user repo : option string) (branch : string)
    (limit : Z)
| CallGetChanges (previous current : BuildInfo).

(** A run of the generator driven to its end by a consumer: the calls
    it made, what it yielded (in order), and the exception it ended
    with, if any. *)
Record Run : Type := {
  calls : list Call;
  yielded : list Yielded;
  thrown : option JsError
}.

(** [setInput]. *)
Definition setInput (input : string) : list string :=
  split "/"%char input.

Definition newlineDelimtedJsonStream (_input : list string) : Run :=
  let user := nth_error _input 0 in
  let repo := nth_error _input 1 in
  let call1 := CallGetBuildInfo user repo "master" 2 in
  match getBuildInfo user repo "master" 2 with
  | Throw e => {| calls := [call1]; yielded := []; thrown := Some e |}
  | Ok infos =>
      (* [x, y] = infos : a missing element is undefined *)
      let currentBuildInfo := List.nth 0 infos None in
      let previousBuildInfo := List.nth 1 infos None in
      match previousBuildInfo, currentBuildInfo with
      | None, _ =>
          {| calls := [call1]; yielded := [];
             thrown := Some (Error "Couldn't find previous build info") |}
      | Some _, None =>
          {| calls := [call1]; yielded := [];
             thrown := Some (Error "Couldn't find current build info") |}
      | Some previous, Some current =>
          let call2 := CallGetChanges previous current in
          match getChanges previous current with
          | Throw e =>
              {| calls := [call1; call2]; yielded := [];
                 thrown := Some e |}
          | Ok buildChanges =>
              let '(meta, entries) := transformChanges buildChanges in
              {| calls := [call1; call2];
                 yielded := YMeta meta :: map YEntry entries;
                 thrown := None |}
          end
      end
  end.

End Fetcher.

End Transform.

End Travis.

(* ================================================================== *)
(** * The tree nodes shown by the UI *)
(* ================================================================== *)

Module Stats.
(** One value of [TreeNode.childStats]: [{size, count}]. *)
Record t : Type := {
  size : Z;
  count : Z
}.
End Stats.

Module Tree.
(** [TreeNode]: the fields the modelled functions read.  [childStats] is an
    object keyed by one-character type tags; it is held as the list of its
    entries in property order (what [Object.entries] returns), so its keys
    are pairwise distinct. *)
Record TreeNode : Type := {
  size : Z;
  type : string;
  childStats : list (string * Stats.t)
}.
End Tree.

(* ================================================================== *)
(** * The [state] chunk: query-string state and size texts *)
(* ================================================================== *)

Module State.
Import Tree.

(** ** [URLSearchParams], as far as [state] uses it *)

Definition URLSearchParams : Type := list (string * string).

(** [state.has(key)]. *)
Definition has (_filterParams : URLSearchParams) (key : string) : bool :=
  existsb (fun kv => String.eqb (fst kv) key) _filterParams.

(** [state.get(key)]: the first value stored under [key], or [null]. *)
Fixpoint get (_filterParams : URLSearchParams) (key : string)
  : option string :=
  match _filterParams with
  | [] => None
  | (k, v) :: rest => if String.eqb k key then Some v else get rest key
  end.

(** [_filterParams.delete(key)]: every pair under [key] goes. *)
Definition params_delete (_filterParams : URLSearchParams) (key : string)
  : URLSearchParams :=
  filter (fun kv => negb (String.eqb (fst kv) key)) _filterParams.

(** [_filterParams.set(key, value)]: the first pair under [key] takes the
    value and the later ones go; without such a pair one is appended. *)
Fixpoint params_set (_filterParams : URLSearchParams) (key value : string)
  : URLSearchParams :=
  match _filterParams with
  | [] => [(key, value)]
  | (k, v) :: rest =>
      if String.eqb k key then (key, value) :: params_delete rest key
      else (k, v) :: params_set rest key value
  end.

(** [state.set(key, value)], on [_filterParams]; [None] is [null].  (The
    call also rewrites the address bar.) *)
Definition set (_filterParams : URLSearchParams) (key : string)
  (value : option string) : URLSearchParams :=
  match value with
  | None => params_delete _filterParams key
  | Some v => params_set _filterParams key v
  end.

(** ** The DOM, as far as the size texts use it *)

Inductive DomNode : Type :=
| TextNode (data : string)
| TextElement (tagName text : string) (className : option string).

(** A [DocumentFragment] is the list of its children. *)
Definition Fragment : Type := list DomNode.

(** [dom.createFragment(nodes)]: appending a fragment appends its
    children, so the argument is a list of fragments (a single node being a
    one-element fragment). *)
Definition createFragment (nodes : list Fragment) : Fragment :=
  fold_left (fun fragment node => fragment ++ node) nodes [].

(** [dom.textElement(tagName, text, className)]: an empty or missing
    [className] is not applied. *)
Definition textElement (tagName text : string) (className : option string)
  : DomNode :=
  TextElement tagName text
    match className with
    | Some c => if String.eqb c "" then None else Some c
    | None => None
    end.

(** An element whose class list and children the code changes. *)
Record Element : Type := {
  classList : list string;
  childNodes : Fragment
}.

(** [classList.add(c)]: a [DOMTokenList] is an ordered set. *)
Definition classList_add (cl : list string) (c : string) : list string :=
  if existsb (String.eqb c) cl then cl else cl ++ [c].

(** [classList.remove(c)]. *)
Definition classList_remove (cl : list string) (c : string) : list string :=
  filter (fun x => negb (String.eqb x c)) cl.

(** [dom.replace(parent, newChild)]. *)
Definition replace (parent : Element) (newChild : Fragment) : Element :=
  {| classList := classList parent; childNodes := newChild |}.

(** Options of [Number.prototype.toLocaleString]. *)
Record LocaleOptions : Type := {
  useGrouping : option bool;
  minimumFractionDigits : option Z;
  maximumFractionDigits : option Z;
  style : option string
}.

Definition _SIZE_CHANGE_CUTOFF : Z := 50000.

Section SizeText.

Context {num : Type} `{JsNumber num}.

(** [x.toLocaleString(_LOCALE, options)] is the engine's; the table
    [_BYTE_UNITS] is declared outside the files at hand. *)
Variable toLocaleString : num -> LocaleOptions -> string.
Variable _BYTE_UNITS : string -> num.

(** The query-string state [_filterParams] behind [state]. *)
Variable state : URLSearchParams.

Record GetSizeResult : Type := {
  description : string;
  element : Fragment;
  value : Z
}.

Definition getSizeContents (node : TreeNode) : GetSizeResult :=
  let bytes :=
    if has state "gzip" then
      size node (* TODO: = node.gzipSize *)
    else
      size node in
  let bytesGrouped :=
    toLocaleString (of_int bytes)
      {| useGrouping := Some true; minimumFractionDigits := None;
         maximumFractionDigits := None; style := None |} in
  let description := (bytesGrouped ++ " bytes")%string in
  let unit' :=
    match get state "byteunit" with
    | Some v => if String.eqb v "" then "KiB" else v
    | None => "KiB"
    end in
  let suffix := _BYTE_UNITS unit' in
  let text :=
    toLocaleString (num_div (of_int bytes) suffix)
      {| useGrouping := None; minimumFractionDigits := Some 2;
         maximumFractionDigits := Some 2; style := None |} in
  let textNode := TextNode (text ++ " ")%string in
  let suffixElement := textElement "small" unit' None in
  {| description := description;
     element := createFragment [[textNode]; [suffixElement]];
     value := bytes |}.

Definition setSizeClasses (sizeElement : Element) (value : Z) : Element :=
  let shouldHaveStyle :=
    has state "diff_mode" && (_SIZE_CHANGE_CUTOFF <? Z.abs value) in
  let cl := classList sizeElement in
  let cl' :=
    if shouldHaveStyle then
      if value <? 0 then
        classList_remove (classList_add cl "shrunk") "grew"
      else
        classList_add (classList_remove cl "shrunk") "grew"
    else
      classList_remove (classList_remove cl "shrunk") "grew" in
  {| classList := cl'; childNodes := childNodes sizeElement |}.

End SizeText.

End State.

(* ================================================================== *)
(** * src/ui/infocard-ui.ts *)
(* ================================================================== *)

Module Infocard.
Import Tree State.

(** ** [Array.prototype.sort] *)

(** The sort is stable and [cmp x y > 0] asks for [y] before [x]; with a
    comparator that orders the elements consistently the result does not
    depend on the algorithm.  It is computed here by insertion from the
    right: [x] moves past every [y] with [cmp x y > 0] and stays in front of
    the others, among them the equal ones that followed it. *)
Fixpoint sort_insert {A : Type} (cmp : A -> A -> Z) (x : A) (l : list A)
  : list A :=
  match l with
  | [] => [x]
  | y :: l' => if 0 <? cmp x y then y :: sort_insert cmp x l' else x :: l
  end.

Fixpoint sort {A : Type} (cmp : A -> A -> Z) (l : list A) : list A :=
  match l with
  | [] => []
  | x :: l' => sort_insert cmp x (sort cmp l')
  end.

(** ** The container info card *)

(** The rows of the breakdown table, named by the key under which
    [this._infoRows] holds them. *)
Definition _infoRows : list string :=
  ["b"; "d"; "r"; "t"; "R"; "x"; "m"; "p"; "P"; "o"].

(** [this._infoRows[type]]: [None] is [undefined]. *)
Definition infoRow (rows : list string) (type : string) : option string :=
  if existsb (String.eqb type) rows then Some type else None.

(** [delete extraRows[type]]. *)
Definition delete (rows : list string) (type : string) : list string :=
  filter (fun k => negb (String.eqb k type)) rows.

(** Text of the [.count], [.size] and [.percent] cells of a row. *)
Record RowText : Type := {
  countColumn : string;
  sizeColumn : string;
  percentColumn : string
}.

Section Card.

Context {num : Type} `{JsNumber num}.

(** Calls on the canvas context [this._ctx]. *)
Inductive CanvasOp : Type :=
| DrawSlice (angleStart angleEnd : num) (fillColor : string)
| DrawBorder (angleStart angleEnd : num) (strokeColor : string)
    (lineWidth : Z).

(** The part of the page a container card owns:
    - [sizeInfo]: the heading [this._sizeInfo];
    - [tableBody]: the rows attached to [this._tableBody], in document
      order, each named by its key in [_infoRows];
    - [rowText]: the text of the cells of every row;
    - [canvas]: the calls issued on [this._ctx] so far, oldest first. *)
Record Card : Type := {
  sizeInfo : Element;
  tableBody : list string;
  rowText : string -> RowText;
  canvas : list CanvasOp
}.

Variable toLocaleString : num -> LocaleOptions -> string.
Variable _BYTE_UNITS : string -> num.
(** [getIconStyle(type).color]: read off the icon templates of the
    page. *)
Variable getIconStyle_color : string -> string.
Variable state : URLSearchParams.

(** [Infocard._updateSize]. *)
Definition _updateSize (node : TreeNode) (card : Card) : Card :=
  let r := getSizeContents toLocaleString _BYTE_UNITS state node in
  let sizeFragment :=
    createFragment
      [[TextNode (description r ++ " (")%string]; element r;
       [TextNode ")"]] in
  let sizeInfo1 := setSizeClasses state (sizeInfo card) (value r) in
  {| sizeInfo := replace sizeInfo1 sizeFragment;
     tableBody := tableBody card;
     rowText := rowText card;
     canvas := canvas card |}.

(** [Infocard._updateInfocard]: beside the size heading it rewrites the
    path text and the type icon, which the container card does not read
    again; only the heading is kept here. *)
Definition Infocard_updateInfocard (node : TreeNode) (card : Card)
  : Card :=
  _updateSize node card.

(** [this._tableBody.removeChild(row)]. *)
Definition removeChild (body : list string) (row : string) : list string :=
  filter (fun k => negb (String.eqb k row)) body.

(** [this._tableBody.appendChild(row)]: a row already in the document is
    moved to the end. *)
Definition appendChild (body : list string) (row : string) : list string :=
  removeChild body row ++ [row].

Definition _drawSlice (angleStart angleEnd : num) (fillColor : string)
  (card : Card) : Card :=
  {| sizeInfo := sizeInfo card;
     tableBody := tableBody card;
     rowText := rowText card;
     canvas := canvas card ++ [DrawSlice angleStart angleEnd fillColor] |}.

Definition _drawBorder (angleStart angleEnd : num) (strokeColor : string)
  (lineWidth : Z) (card : Card) : Card :=
  {| sizeInfo := sizeInfo card;
     tableBody := tableBody card;
     rowText := rowText card;
     canvas :=
       canvas card ++
       [DrawBorder angleStart angleEnd strokeColor lineWidth] |}.

(** [row] is [None] when the caller found no row ([undefined]): reading
    [row.parentElement] or calling [row.querySelector] then throws. *)
Definition _updateBreakdownRow (row : option string)
  (stats : option Stats.t) (percentage : num) (card : Card)
  : Result Card :=
  match row with
  | None => Throw TypeError
  | Some row =>
      let hidden :=
        match stats with
        | None => true
        | Some st => Stats.size st =? 0
        end in
      match hidden, stats with
      | false, Some st =>
          let countString :=
            toLocaleString (of_int (Stats.count st))
              {| useGrouping := Some true;
                 minimumFractionDigits := None;
                 maximumFractionDigits := None; style := None |} in
          let sizeString :=
            toLocaleString (of_int (Stats.size st))
              {| useGrouping := Some true;
                 minimumFractionDigits := Some 2;
                 maximumFractionDigits := Some 2; style := None |} in
          let percentString :=
            toLocaleString percentage
              {| useGrouping := None;
                 minimumFractionDigits := Some 2;
                 maximumFractionDigits := Some 2;
                 style := Some "percent" |} in
          let text :=
            {| countColumn := countString; sizeColumn := sizeString;
               percentColumn := percentString |} in
          Ok {| sizeInfo := sizeInfo card;
                tableBody := appendChild (tableBody card) row;
                rowText :=
                  fun k => if String.eqb k row then text
                           else rowText card k;
                canvas := canvas card |}
      | _, _ =>
          if existsb (String.eqb row) (tableBody card) then
            Ok {| sizeInfo := sizeInfo card;
                  tableBody := removeChild (tableBody card) row;
                  rowText := rowText card;
                  canvas := canvas card |}
          else Ok card
      end
  end.

(** [stats.size / totalSize]. *)
Definition percentageOf (totalSize : Z) (stats : Stats.t) : num :=
  num_div (of_int (Stats.size stats)) (of_int totalSize).

(** [Math.abs(percentage) * 2 * Math.PI]. *)
Definition arcLengthOf (percentage : num) : num :=
  num_mul (num_mul (num_abs percentage) (of_int 2)) Math_PI.

(** The loop locals that survive an iteration. *)
Record Loop : Type := {
  extraRows : list string;
  angleStart : num;
  card : Card
}.

(** One iteration of [for (const [type, stats] of statsEntries)]. *)
Definition drawEntry (diffMode : bool) (totalSize : Z)
  (entry : string * Stats.t) (l : Loop) : Result Loop :=
  let '(type, stats) := entry in
  let extraRows := delete (extraRows l) type in
  let color := getIconStyle_color type in
  let percentage := percentageOf totalSize stats in
  bind (_updateBreakdownRow (infoRow _infoRows type) (Some stats)
          percentage (card l))
    (fun card1 =>
       let arcLength := arcLengthOf percentage in
       if num_gt arcLength (of_int 0) then
         let angleEnd := num_add (angleStart l) arcLength in
         let card2 := _drawSlice (angleStart l) angleEnd color card1 in
         let card3 :=
           if diffMode then
             let strokeColor :=
               if 0 <? Stats.size stats then "#ea4335" else "#34a853" in
             _drawBorder (angleStart l) angleEnd strokeColor 16 card2
           else card2 in
         Ok {| extraRows := extraRows; angleStart := angleEnd;
               card := card3 |}
       else
         Ok {| extraRows := extraRows; angleStart := angleStart l;
               card := card1 |}).

Fixpoint drawEntries (diffMode : bool) (totalSize : Z)
  (statsEntries : list (string * Stats.t)) (l : Loop) : Result Loop :=
  match statsEntries with
  | [] => Ok l
  | entry :: rest =>
      bind (drawEntry diffMode totalSize entry l)
        (drawEntries diffMode totalSize rest)
  end.

(** [for (const row of Object.values(extraRows))]. *)
Fixpoint hideRows (rows : list string) (card : Card) : Result Card :=
  match rows with
  | [] => Ok card
  | row :: rest =>
      bind (_updateBreakdownRow (Some row) None (of_int 0) card)
        (hideRows rest)
  end.

(** [Object.entries(containerNode.childStats).sort(...)]. *)
Definition statsEntriesOf (containerNode : TreeNode)
  : list (string * Stats.t) :=
  sort (fun a b => Stats.size (snd b) - Stats.size (snd a))
    (childStats containerNode).

(** The first loop: [totalSize += Math.abs(stats.size)]. *)
Definition totalSizeOf (statsEntries : list (string * Stats.t)) : Z :=
  fold_left (fun totalSize e => totalSize + Z.abs (Stats.size (snd e)))
    statsEntries 0.

(** [ContainerInfocard._updateInfocard]; it returns the page and the
    value [angleStart] ended with. *)
Definition _updateInfocard (containerNode : TreeNode) (this : Card)
  : Result (Card * num) :=
  let statsEntries := statsEntriesOf containerNode in
  let diffMode := has state "diff_mode" in
  let totalSize := totalSizeOf statsEntries in
  let card1 := Infocard_updateInfocard containerNode this in
  bind (drawEntries diffMode totalSize statsEntries
          {| extraRows := _infoRows; angleStart := of_int 0;
             card := card1 |})
    (fun l =>
       bind (hideRows (extraRows l) (card l))
         (fun card' => Ok (card', angleStart l))).

End Card.

Arguments CanvasOp num : clear implicits.
Arguments Card num : clear implicits.
Arguments Loop num : clear implicits.

(** ** The two readings of [num] *)

(** IEEE-754 binary64, rounding to nearest even: the numbers of the
    engine. *)
Definition binary64 : Type := spec_float.

Definition b64_of_int (z : Z) : binary64 := binary_normalize 53 1024 z 0 false.

(** [Math.PI = 0x1.921fb54442d18p+1 = 7074237752028440 * 2^-51]. *)
Definition b64_PI : binary64 := S754_finite false 7074237752028440 (-51).

#[export] Instance binary64_number : JsNumber binary64 := {|
  of_int := b64_of_int;
  num_add := SFadd 53 1024;
  num_mul := SFmul 53 1024;
  num_div := SFdiv 53 1024;
  num_abs := SFabs;
  num_gt := fun x y => SFltb y x;
  Math_PI := b64_PI
|}.

(** Exact arithmetic.  Where the engine's [0 / 0] is [NaN], here it is
    [0 * / 0 = 0]; either way [arcLength > 0] is false. *)
#[export] Instance real_number : JsNumber R := {|
  of_int := IZR;
  num_add := Rplus;
  num_mul := Rmult;
  num_div := Rdiv;
  num_abs := Rabs;
  num_gt := fun x y => if Rlt_dec y x then true else false;
  Math_PI := PI
|}.

End Infocard.

(* ================================================================== *)
(** * Vocabulary of the properties *)
(* ================================================================== *)

Module TravisSpec.
Import Travis.

(** What the specification calls the display name of a path: the part
    after the last ['/'], the whole path when there is none. *)
Definition last_segment_of (path name : string) : Prop :=
  (occurs "/"%char path = false /\ name = path) \/
  (exists pre, path = (pre ++ String "/"%char name)%string /\
               occurs "/"%char name = false).

End TravisSpec.

Module InfocardSpec.
Import Tree State Infocard.

(** Every type of [childStats] has a row in the table. *)
Definition knownTypes (node : TreeNode) : Prop :=
  Forall (fun entry => In (fst entry) _infoRows) (childStats node).

(** The keys of [childStats] are pairwise distinct (it is an object). *)
Definition distinctTypes (node : TreeNode) : Prop :=
  NoDup (map fst (childStats node)).

Section Card.

Context {num : Type} `{JsNumber num}.
Variable toLocaleString : num -> LocaleOptions -> string.
Variable _BYTE_UNITS : string -> num.
Variable getIconStyle_color : string -> string.
Variable state : URLSearchParams.

(** A slice of the pie: where it starts, where it ends, its colour. *)
Definition Slice : Type := num * num * string.

Definition slice_start (sl : Slice) : num := fst (fst sl).
Definition slice_end (sl : Slice) : num := snd (fst sl).
Definition slice_color (sl : Slice) : string := snd sl.

(** The slices among the calls on the canvas, oldest first. *)
Definition slicesOf (ops : list (CanvasOp num)) : list Slice :=
  flat_map
    (fun op =>
       match op with
       | DrawSlice angleStart angleEnd fillColor =>
           [(angleStart, angleEnd, fillColor)]
       | DrawBorder _ _ _ _ => []
       end) ops.

(** The arc of an entry, and whether it is drawn at all. *)
Definition arcOf (totalSize : Z) (entry : string * Stats.t) : num :=
  arcLengthOf (percentageOf totalSize (snd entry)).

Definition hasArc (totalSize : Z) (entry : string * Stats.t) : bool :=
  num_gt (arcOf totalSize entry) (of_int 0).

(** The layout the specification describes: the entries, in the order
    given, side by side from [angle] on, each over its arc. *)
Fixpoint pieLayout (totalSize : Z) (angle : num)
  (entries : list (string * Stats.t)) : list Slice :=
  match entries with
  | [] => []
  | entry :: rest =>
      let angleEnd := num_add angle (arcOf totalSize entry) in
      (angle, angleEnd, getIconStyle_color (fst entry))
        :: pieLayout totalSize angleEnd rest
  end.

(** Where the layout ends. *)
Definition layoutEnd (totalSize : Z) (angle : num)
  (entries : list (string * Stats.t)) : num :=
  fold_left (fun a entry => num_add a (arcOf totalSize entry)) entries angle.

(** The text [_updateBreakdownRow] writes into a row that is shown. *)
Definition rowTextOf (totalSize : Z) (stats : Stats.t) : RowText :=
  {| countColumn :=
       toLocaleString (of_int (Stats.count stats))
         {| useGrouping := Some true; minimumFractionDigits := None;
            maximumFractionDigits := None; style := None |};
     sizeColumn :=
       toLocaleString (of_int (Stats.size stats))
         {| useGrouping := Some true; minimumFractionDigits := Some 2;
            maximumFractionDigits := Some 2; style := None |};
     percentColumn :=
       toLocaleString (percentageOf totalSize stats)
         {| useGrouping := None; minimumFractionDigits := Some 2;
            maximumFractionDigits := Some 2; style := Some "percent" |} |}.

(** The values [angleStart] takes while the slices are laid out from
    [angle]: [angle] itself, then the end of each slice. *)
Definition angleTrace (angle : num) (slices : list Slice)
  : list num :=
  angle :: map slice_end slices.


(** What one iteration does to the loop locals and the page, for an entry
    whose type has a row. *)
Record EntryDone (totalSize : Z)
  (entry : string * Stats.t) (l l' : Loop num) : Prop := {
  done_extraRows : extraRows l' = delete (extraRows l) (fst entry);
  done_sizeInfo : sizeInfo (card l') = sizeInfo (card l);
  done_tableBody :
    tableBody (card l') =
    if Stats.size (snd entry) =? 0
    then removeChild (tableBody (card l)) (fst entry)
    else appendChild (tableBody (card l)) (fst entry);
  done_rowText :
    rowText (card l') =
    if Stats.size (snd entry) =? 0 then rowText (card l)
    else fun k => if String.eqb k (fst entry)
                  then rowTextOf totalSize (snd entry)
                  else rowText (card l) k;
  done_angleStart :
    angleStart l' =
    if hasArc totalSize entry
    then num_add (angleStart l) (arcOf totalSize entry)
    else angleStart l;
  done_slices :
    slicesOf (canvas (card l')) =
    slicesOf (canvas (card l)) ++
    if hasArc totalSize entry
    then [(angleStart l, num_add (angleStart l) (arcOf totalSize entry),
           getIconStyle_color (fst entry))]
    else []
}.

(** What the loop does, for entries whose types all have a row. *)
Record EntriesDone (totalSize : Z) (entries : list (string * Stats.t))
  (l l' : Loop num) : Prop := {
  all_extraRows :
    forall k, In k (extraRows l') <->
              In k (extraRows l) /\ ~ In k (map fst entries);
  all_sizeInfo : sizeInfo (card l') = sizeInfo (card l);
  all_tableBody :
    forall k, In k (tableBody (card l')) ->
              (In k (tableBody (card l)) /\ ~ In k (map fst entries)) \/
              (exists st, In (k, st) entries /\ Stats.size st <> 0);
  all_rowText_other :
    forall k, ~ In k (map fst entries) ->
              rowText (card l') k = rowText (card l) k;
  all_rowText_shown :
    NoDup (map fst entries) ->
    forall k st, In (k, st) entries -> Stats.size st <> 0 ->
                 rowText (card l') k = rowTextOf totalSize st;
  all_angleStart :
    angleStart l' =
    layoutEnd totalSize (angleStart l) (filter (hasArc totalSize) entries);
  all_slices :
    slicesOf (canvas (card l')) =
    slicesOf (canvas (card l)) ++
    pieLayout totalSize (angleStart l) (filter (hasArc totalSize) entries)
}.

(** What [_updateInfocard] leaves behind, for a node whose types all have a
    row: the heading as [_updateSize] wrote it, the old slices followed by
    the layout of the entries with an arc, in sorted order from angle 0, and
    in the table no row but those of the entries with a size. *)
Record Updated (node : TreeNode) (this card' : Card num) (angle : num)
  : Prop := {
  upd_angle :
    angle =
    layoutEnd (totalSizeOf (statsEntriesOf node)) (of_int 0)
      (filter (hasArc (totalSizeOf (statsEntriesOf node)))
         (statsEntriesOf node));
  upd_sizeInfo :
    sizeInfo card' =
    sizeInfo (_updateSize toLocaleString _BYTE_UNITS state node this);
  upd_slices :
    slicesOf (canvas card') =
    slicesOf (canvas this) ++
    pieLayout (totalSizeOf (statsEntriesOf node)) (of_int 0)
      (filter (hasArc (totalSizeOf (statsEntriesOf node)))
         (statsEntriesOf node));
  upd_tableBody :
    forall k, In k (tableBody card') ->
              (In k (tableBody this) /\ ~ In k _infoRows) \/
              (exists st, In (k, st) (childStats node) /\
                          Stats.size st <> 0);
  upd_rowText_other :
    forall k, ~ In k (map fst (childStats node)) ->
              rowText card' k = rowText this k;
  upd_rowText_shown :
    distinctTypes node ->
    forall k st, In (k, st) (childStats node) -> Stats.size st <> 0 ->
                 rowText card' k =
                 rowTextOf (totalSizeOf (statsEntriesOf node)) st
}.

End Card.

(** The sum of the absolute sizes, and of the arcs. *)
Definition sumAbs (entries : list (string * Stats.t)) : Z :=
  fold_right (fun e acc => Z.abs (Stats.size (snd e)) + acc) 0 entries.

Definition sumArc (totalSize : Z) (entries : list (string * Stats.t)) : R :=
  fold_right (fun e acc => (arcOf totalSize e + acc)%R) 0%R entries.

(** The doubles [angleStart] can hold: [+0], a positive number in canonical
    form, or [+Infinity]; and those an arc that is drawn can be. *)
Definition nonneg_ok (x : binary64) : Prop :=
  match x with
  | S754_zero s => s = false
  | S754_infinity s => s = false
  | S754_nan => False
  | S754_finite s m e => s = false /\ SpecFloat.bounded 53 1024 m e = true
  end.

Definition pos_ok (y : binary64) : Prop :=
  match y with
  | S754_infinity false => True
  | S754_finite false m e => SpecFloat.bounded 53 1024 m e = true
  | _ => False
  end.

(** [x <= y] on doubles. *)
Definition b64_le (x y : binary64) : Prop := SFleb x y = true.

End InfocardSpec.

(* ================================================================== *)
(** * Concrete inputs *)
(* ================================================================== *)

Module TravisSamples.
Import Travis.

Definition old_100_40 : FileData :=
  {| path := "dist/app.js"; size := 100; gzipSize := 40 |}.
Definition new_150_40 : FileData :=
  {| path := "dist/app.js"; size := 150; gzipSize := 40 |}.
Definition added_200_80 : FileData :=
  {| path := "dist/lib/util.js"; size := 200; gzipSize := 80 |}.
Definition removed_200_80 : FileData :=
  {| path := "dist/legacy.js"; size := 200; gzipSize := 80 |}.
Definition same_30_10 : FileData :=
  {| path := "index.html"; size := 30; gzipSize := 10 |}.

Definition sample_changes : BuildChanges :=
  {| newItems := [added_200_80];
     deletedItems := [removed_200_80];
     sameItems := [same_30_10];
     changedItems := [(old_100_40, new_150_40)] |}.

(** The CI service knows the given builds and compares any two of them to
    [sample_changes]. *)
Definition service_with (builds : list (option unit))
  : option string -> option string -> string -> Z ->
    Result (list (option unit)) :=
  fun _ _ _ _ => Ok builds.

Definition compare_to_sample : unit -> unit -> Result BuildChanges :=
  fun _ _ => Ok sample_changes.

End TravisSamples.

Module InfocardSamples.
Import Tree State Infocard.

Definition heading : Element :=
  {| classList := ["size-info"; "grew"]; childNodes := [] |}.

Definition statsOf (size : Z) : Stats.t :=
  {| Stats.size := size; Stats.count := 1 |}.

Definition directory (entries : list (string * Z)) : TreeNode :=
  {| size := fold_left (fun acc e => acc + snd e) entries 0;
     type := "D";
     childStats := map (fun e => (fst e, statsOf (snd e))) entries |}.

(** A page as it is loaded: every row in the table, empty cells, nothing
    drawn. *)
Definition fresh_page {num : Type} : Card num :=
  {| sizeInfo := {| classList := ["size-info"]; childNodes := [] |};
     tableBody := _infoRows;
     rowText :=
       fun _ => {| countColumn := ""; sizeColumn := "";
                   percentColumn := "" |};
     canvas := [] |}.

(** Stand-ins for the engine's formatter, the unit table and the icon
    colours: each type is drawn in the colour named after it. *)
Definition no_format {num : Type} : num -> LocaleOptions -> string :=
  fun _ _ => "".
Definition KiB {num : Type} `{JsNumber num} : string -> num :=
  fun _ => of_int 1024.
Definition color_of_type : string -> string := fun type => type.

(** [0.75 = 6755399441055744 * 2^-53], [0.25 = 2^52 * 2^-54],
    [1.5 * Math.PI = 5305678314021330 * 2^-50] and
    [2 * Math.PI = 7074237752028440 * 2^-50], the mantissa of [Math.PI] one
    binade up. *)
Definition b64_0_75 : binary64 := S754_finite false 6755399441055744 (-53).
Definition b64_0_25 : binary64 := S754_finite false 4503599627370496 (-54).
Definition b64_3_PI_2 : binary64 := S754_finite false 5305678314021330 (-50).
Definition b64_2_PI : binary64 := S754_finite false 7074237752028440 (-50).
(** The double just above [2 * Math.PI]. *)
Definition b64_above_2_PI : binary64 :=
  S754_finite false 7074237752028441 (-50).

Definition percentOptions : LocaleOptions :=
  {| useGrouping := None; minimumFractionDigits := Some 2;
     maximumFractionDigits := Some 2; style := Some "percent" |}.

End InfocardSamples.

(* ================================================================== *)
(** * The [state] chunk: the options form *)
(* ================================================================== *)

Module Form.
Import State.

(** A [FormData] is the list of its entries [(name, value)], in document
    order; a name occurs once per value (a checkbox group has several). *)
Definition FormData : Type := list (string * string).

(** [form.keys()]: one key per entry, repeats included. *)
Definition keys (form : FormData) : list string := map fst form.

(** [form.getAll(key)], also of a [URLSearchParams]. *)
Definition getAll (form : list (string * string)) (key : string)
  : list string :=
  map snd (filter (fun kv => String.eqb (fst kv) key) form).

(** [modifiedValues.some((v, i) => v !== defaultValues[i])], from index [i]
    on: a missing element of [defaultValues] is [undefined], which no value
    equals. *)
Fixpoint some_differs (modifiedValues : list string) (i : nat)
  (defaultValues : list string) : bool :=
  match modifiedValues with
  | [] => false
  | v :: rest =>
      match nth_error defaultValues i with
      | Some d => negb (String.eqb v d)
      | None => true
      end
      || some_differs rest (S i) defaultValues
  end.

Definition valuesChanged (modifiedValues defaultValues : list string) : bool :=
  negb (Nat.eqb (List.length modifiedValues) (List.length defaultValues))
  || some_differs modifiedValues 0 defaultValues.

(** [onlyChangedEntries(modifiedForm)]: what the generator yields, in
    order. *)
Definition onlyChangedEntries (_DEFAULT_FORM modifiedForm : FormData)
  : list (string * string) :=
  flat_map
    (fun key =>
       let modifiedValues := getAll modifiedForm key in
       let defaultValues := getAll _DEFAULT_FORM key in
       if valuesChanged modifiedValues defaultValues then
         map (fun value => (key, value)) modifiedValues
       else [])
    (keys modifiedForm).

(** [_updateStateFromForm]: the new [_filterParams].  (The call also
    rewrites the address bar.) *)
Definition _updateStateFromForm (_DEFAULT_FORM modifiedForm : FormData)
  : URLSearchParams :=
  onlyChangedEntries _DEFAULT_FORM modifiedForm.

End Form.

(* ================================================================== *)
(** * The [state] chunk: icon templates *)
(* ================================================================== *)

Module Icons.

(** An icon template, as far as it is read: its [fill] attribute ([None]
    when [getAttribute] gives [null]) and the text of its [title] element
    ([None] when there is no such element). *)
Record Icon : Type := {
  fill : option string;
  title : option string
}.

(** What [getIconStyle] returns. *)
Record IconStyle : Type := {
  color : option string;
  description : string
}.

(** [iconInfoCache], a [Map]: the entries in insertion order. *)
Definition Cache : Type := list (string * IconStyle).

Fixpoint cache_get (cache : Cache) (type : string) : option IconStyle :=
  match cache with
  | [] => None
  | (k, info) :: rest =>
      if String.eqb k type then Some info else cache_get rest type
  end.

(** [iconInfoCache.set(type, info)]: an existing key keeps its place. *)
Fixpoint cache_set (cache : Cache) (type : string) (info : IconStyle)
  : Cache :=
  match cache with
  | [] => [(type, info)]
  | (k, old) :: rest =>
      if String.eqb k type then (k, info) :: rest
      else (k, old) :: cache_set rest type info
  end.

Section Templates.

(** [symbolIcons[type]]: [None] when the object has no such key or the
    page has no such icon.  [_OTHER_SYMBOL_TYPE] is declared outside the
    files at hand. *)
Variable symbolIcons : string -> option Icon.
Variable _OTHER_SYMBOL_TYPE : string.

(** [getIconTemplate(type, readonly)]: a copy has the content of the
    original; copying a missing template throws. *)
Definition getIconTemplate (type : string) (readonly : bool)
  : Result (option Icon) :=
  let iconTemplate :=
    match symbolIcons type with
    | Some icon => Some icon
    | None => symbolIcons _OTHER_SYMBOL_TYPE
    end in
  if readonly then Ok iconTemplate
  else match iconTemplate with
       | Some icon => Ok (Some icon)
       | None => Throw TypeError
       end.

(** [getIconStyle(type)]: the style and the cache it leaves. *)
Definition getIconStyle (type : string) (iconInfoCache : Cache)
  : Result (IconStyle * Cache) :=
  match cache_get iconInfoCache type with
  | Some info => Ok (info, iconInfoCache)
  | None =>
      bind (getIconTemplate type true)
        (fun icon =>
           match icon with
           | None => Throw TypeError
           | Some icon =>
               match title icon with
               | None => Throw TypeError
               | Some text =>
                   let info :=
                     {| color := fill icon; description := text |} in
                   Ok (info, cache_set iconInfoCache type info)
               end
           end)
  end.

End Templates.

End Icons.

(* ================================================================== *)
(** * src/ui/infocard-ui.ts: which card is shown, and when it is drawn *)
(* ================================================================== *)

Module Display.
Import Tree.

Inductive CardKind : Type :=
| ContainerCard   (* _containerInfo *)
| SymbolCard.     (* _symbolInfo *)

(** The part of the page [displayInfocard] works on:
    - [_pendingFrame]: the static [Infocard._pendingFrame], shared by both
      cards; [None] while it is [undefined];
    - [frames]: the callbacks the cards have waiting for the next animation
      frame, each under the handle [requestAnimationFrame] returned and
      standing for [() => card._updateInfocard(node)];
    - [nextHandle]: the handle the next request gets;
    - [containerHidden], [symbolHidden]: the [hidden] attribute of the two
      cards. *)
Record Page : Type := {
  _pendingFrame : option Z;
  frames : list (Z * (CardKind * TreeNode));
  nextHandle : Z;
  containerHidden : bool;
  symbolHidden : bool
}.

(** [cancelAnimationFrame(handle)]: no callback has the handle
    [undefined]. *)
Definition cancelAnimationFrame (handle : option Z)
  (frames : list (Z * (CardKind * TreeNode)))
  : list (Z * (CardKind * TreeNode)) :=
  match handle with
  | None => frames
  | Some h => filter (fun f => negb (fst f =? h)) frames
  end.

(** [Infocard.updateInfocard], on the card [kind]. *)
Definition updateInfocard (kind : CardKind) (node : TreeNode) (page : Page)
  : Page :=
  let frames1 := cancelAnimationFrame (_pendingFrame page) (frames page) in
  let handle := nextHandle page in
  {| _pendingFrame := Some handle;
     frames := frames1 ++ [(handle, (kind, node))];
     nextHandle := handle + 1;
     containerHidden := containerHidden page;
     symbolHidden := symbolHidden page |}.

(** [Infocard.setHidden], on the card [kind]. *)
Definition setHidden (kind : CardKind) (isHidden : bool) (page : Page)
  : Page :=
  {| _pendingFrame := _pendingFrame page;
     frames := frames page;
     nextHandle := nextHandle page;
     containerHidden :=
       match kind with
       | ContainerCard => isHidden
       | SymbolCard => containerHidden page
       end;
     symbolHidden :=
       match kind with
       | ContainerCard => symbolHidden page
       | SymbolCard => isHidden
       end |}.

(** [node.type[0]]: [None] is [undefined]. *)
Definition type0 (node : TreeNode) : option string :=
  match type node with
  | EmptyString => None
  | String c _ => Some (String c EmptyString)
  end.

Section Display.

(** The set [_CONTAINER_TYPE_SET] is declared outside the files at hand;
    it is given by its members. *)
Variable _CONTAINER_TYPE_SET : list string.

Definition isContainer (node : TreeNode) : bool :=
  match type0 node with
  | Some c => existsb (String.eqb c) _CONTAINER_TYPE_SET
  | None => false
  end.

Definition displayInfocard (node : TreeNode) (page : Page) : Page :=
  if isContainer node then
    setHidden SymbolCard true
      (setHidden ContainerCard false (updateInfocard ContainerCard node page))
  else
    setHidden ContainerCard true
      (setHidden SymbolCard false (updateInfocard SymbolCard node page)).

(** The next animation frame: the browser takes the waiting callbacks, in
    order, and runs them; what is returned is the page left and the updates
    that were run. *)
Definition runFrame (page : Page) : Page * list (CardKind * TreeNode) :=
  ({| _pendingFrame := _pendingFrame page;
      frames := [];
      nextHandle := nextHandle page;
      containerHidden := containerHidden page;
      symbolHidden := symbolHidden page |},
   map snd (frames page)).

(** What happens to the page: a node is displayed, or a frame comes. *)
Inductive Event : Type :=
| Displayed (node : TreeNode)
| Frame.

Definition step (page : Page) (ev : Event) : Page :=
  match ev with
  | Displayed node => displayInfocard node page
  | Frame => fst (runFrame page)
  end.

End Display.

(** A page on which nothing was requested yet, with both cards
    hidden. *)
Definition loaded : Page :=
  {| _pendingFrame := None; frames := []; nextHandle := 1;
     containerHidden := true; symbolHidden := true |}.

End Display.

(* ================================================================== *)
(** * The [state] chunk: [state.toString] *)
(* ================================================================== *)

Module StateString.
Import State Form.

(** [[...new Set(values)]]: each value once, in the order of the first
    occurrences. *)
Fixpoint unique (values : list string) : list string :=
  match values with
  | [] => []
  | v :: rest => v :: filter (fun x => negb (String.eqb x v)) (unique rest)
  end.

(** [types.join('')]. *)
Definition join_empty (values : list string) : string :=
  fold_right String.append EmptyString values.

Section ToString.

(** [_TYPE_STATE_KEY] is declared outside the files at hand;
    [copy.toString()] is the engine's serialization. *)
Variable _TYPE_STATE_KEY : string.
Variable serialize : URLSearchParams -> string.

(** The copy of [_filterParams] that is serialized. *)
Definition normalised (_filterParams : URLSearchParams) : URLSearchParams :=
  let copy := _filterParams in
  let types := unique (getAll copy _TYPE_STATE_KEY) in
  if (0 <? List.length types)%nat then
    params_set copy _TYPE_STATE_KEY (join_empty types)
  else copy.

Definition toString (_filterParams : URLSearchParams) : string :=
  let queryString := serialize (normalised _filterParams) in
  if (0 <? String.length queryString)%nat then ("?" ++ queryString)%string
  else EmptyString.

End ToString.

End StateString.

(* ================================================================== *)
(** * Vocabulary of the further properties *)
(* ================================================================== *)

Module TravisExtraSpec.
Import Travis.

(** [parts.join(c)]. *)
Fixpoint join (c : ascii) (parts : list string) : string :=
  match parts with
  | [] => EmptyString
  | [w] => w
  | w :: rest => (w ++ String c (join c rest))%string
  end.

(** Totals over a file listing and over the records of a report. *)
Definition sum_size (files : list FileData) : Z :=
  fold_right (fun f acc => size f + acc) 0 files.

Definition sum_gzipSize (files : list FileData) : Z :=
  fold_right (fun f acc => gzipSize f + acc) 0 files.

Definition sum_over (field : SymbolEntry -> Z) (entries : list FileEntry)
  : Z :=
  fold_right
    (fun e acc => fold_right (fun sym a => field sym + a) 0 (s e) + acc)
    0 entries.

(** A CI service that fails, and one that knows two builds but cannot
    compare them. *)
Definition service_down : option string -> option string -> string -> Z ->
                          Result (list (option unit)) :=
  fun _ _ _ _ => Throw (Error "503").

Definition compare_fails : unit -> unit -> Result BuildChanges :=
  fun _ _ => Throw (Error "no such file").

End TravisExtraSpec.

Module StateExtraSpec.
Import State Icons.

Section Templates.

Variable symbolIcons : string -> option Icon.
Variable _OTHER_SYMBOL_TYPE : string.

(** The style of a type read off the templates, without the cache: that
    of its own icon, or of the icon of [_OTHER_SYMBOL_TYPE] when it has none;
    [None] when no icon is found or the icon has no title. *)
Definition iconStyleOf (type : string) : option IconStyle :=
  let icon :=
    match symbolIcons type with
    | Some icon => Some icon
    | None => symbolIcons _OTHER_SYMBOL_TYPE
    end in
  match icon with
  | Some icon =>
      match title icon with
      | Some text => Some {| color := fill icon; description := text |}
      | None => None
      end
  | None => None
  end.

(** Every style in the cache is the one the templates give. *)
Definition cache_sound (cache : Cache) : Prop :=
  forall type info,
    cache_get cache type = Some info -> iconStyleOf type = Some info.

End Templates.

(** A page with icons for code and for everything else. *)
Definition two_icons (type : string) : option Icon :=
  if String.eqb type "t" then
    Some {| fill := Some "#9c27b0"; title := Some "Code (.text)" |}
  else if String.eqb type "o" then
    Some {| fill := Some "#90a4ae"; title := Some "Other" |}
  else None.

End StateExtraSpec.

Module InfocardExtraSpec.
Import Tree State Infocard InfocardSpec.

(** The entry has a size: its row is shown. *)
Definition hasSize (entry : string * Stats.t) : bool :=
  negb (Stats.size (snd entry) =? 0).

(** [k] is one of [keys]. *)
Definition among (keys : list string) (k : string) : bool :=
  existsb (String.eqb k) keys.

(** [node.textContent] of the children of an element. *)
Definition textContent (nodes : Fragment) : string :=
  fold_right
    (fun node rest =>
       match node with
       | TextNode data => (data ++ rest)%string
       | TextElement _ text _ => (text ++ rest)%string
       end) EmptyString nodes.

Section Card.

Context {num : Type} `{JsNumber num}.
Variable toLocaleString : num -> LocaleOptions -> string.
Variable _BYTE_UNITS : string -> num.
Variable getIconStyle_color : string -> string.
Variable state : URLSearchParams.

(** What one entry puts on the canvas when [angleStart] is [angle]. *)
Definition entryOps (diffMode : bool) (totalSize : Z) (angle : num)
  (entry : string * Stats.t) : list (CanvasOp num) :=
  if hasArc totalSize entry then
    let angleEnd := num_add angle (arcOf totalSize entry) in
    DrawSlice angle angleEnd (getIconStyle_color (fst entry))
    :: (if diffMode then
          [DrawBorder angle angleEnd
             (if 0 <? Stats.size (snd entry) then "#ea4335" else "#34a853")
             16]
        else [])
  else [].

(** The pie as the page describes it: per entry a slice and, in diff mode,
    a border of width 16 over the same angles, red for a type that grew and
    green for one that shrank; entries without an arc leave nothing. *)
Fixpoint pieOps (diffMode : bool) (totalSize : Z) (angle : num)
  (entries : list (string * Stats.t)) : list (CanvasOp num) :=
  match entries with
  | [] => []
  | entry :: rest =>
      entryOps diffMode totalSize angle entry ++
      pieOps diffMode totalSize
        (if hasArc totalSize entry
         then num_add angle (arcOf totalSize entry) else angle)
        rest
  end.

(** The loop locals and the page after one iteration that does not
    throw. *)
Definition stepLoop (diffMode : bool) (totalSize : Z) (l : Loop num)
  (entry : string * Stats.t) : Loop num :=
  {| extraRows := delete (extraRows l) (fst entry);
     angleStart :=
       if hasArc totalSize entry
       then num_add (angleStart l) (arcOf totalSize entry)
       else angleStart l;
     card :=
       {| sizeInfo := sizeInfo (card l);
          tableBody :=
            if hasSize entry
            then appendChild (tableBody (card l)) (fst entry)
            else removeChild (tableBody (card l)) (fst entry);
          rowText :=
            if hasSize entry
            then fun k => if String.eqb k (fst entry)
                          then rowTextOf toLocaleString totalSize (snd entry)
                          else rowText (card l) k
            else rowText (card l);
          canvas :=
            canvas (card l) ++
            entryOps diffMode totalSize (angleStart l) entry |} |}.

(** The page and the angle after the whole update, when nothing
    throws. *)
Definition updated (containerNode : TreeNode) (this : Card num)
  : Card num * num :=
  let statsEntries := statsEntriesOf containerNode in
  let l :=
    fold_left
      (stepLoop (has state "diff_mode") (totalSizeOf statsEntries))
      statsEntries
      {| extraRows := _infoRows; angleStart := of_int 0;
         card := Infocard_updateInfocard toLocaleString _BYTE_UNITS state
                   containerNode this |} in
  ({| sizeInfo := sizeInfo (card l);
      tableBody := fold_left removeChild (extraRows l) (tableBody (card l));
      rowText := rowText (card l);
      canvas := canvas (card l) |},
   angleStart l).

End Card.

(** A directory that holds a generated symbol: the type ['*'] has an icon
    but no row in the table. *)
Definition with_generated : TreeNode :=
  {| size := 12; type := "D";
     childStats := [("t", {| Stats.size := 10; Stats.count := 1 |});
                    ("*", {| Stats.size := 2; Stats.count := 1 |})] |}.

End InfocardExtraSpec.

(* ================================================================== *)
(** * src/ui/infocard-ui.ts: the type icon of a card *)
(* ================================================================== *)

Module TypeIcon.
Import Js Tree State Icons Display.













Section Templates.

Variable symbolIcons : string -> option Icon.
Variable _OTHER_SYMBOL_TYPE : string.






End Templates.

End TypeIcon.

(* ================================================================== *)
(** * The [state] chunk: the options panel *)
(* ================================================================== *)

Module Options.

(** What [_startListeners] and [_toggleOptions] work on:
    - [show_options]: [document.body] has the class "show-options";
    - [stored]: [localStorage.getItem('show-options')], [None] for
      [null]. *)
Record Panel : Type := {
  show_options : bool;
  stored : option string
}.

(** [openedOptions.toString()]. *)
Definition bool_toString (b : bool) : string :=
  if b then "true" else "false".

(** [_toggleOptions]: [classList.toggle] returns whether the class is
    there afterwards. *)
Definition _toggleOptions (panel : Panel) : Panel :=
  let openedOptions := negb (show_options panel) in
  {| show_options := openedOptions;
     stored := Some (bool_toString openedOptions) |}.

(** [_startListeners], as far as the panel goes:
    [if (localStorage.getItem(...) !== 'false') classList.add(...)]. *)
Definition _startListeners (panel : Panel) : Panel :=
  match stored panel with
  | Some "false" => panel
  | _ => {| show_options := true; stored := stored panel |}
  end.

(** The page is loaded: the body is as the markup has it, the storage as
    the last visit left it. *)
Definition load (markup : bool) (storage : option string) : Panel :=
  _startListeners {| show_options := markup; stored := storage |}.

End Options.

(* ================================================================== *)
(** * Properties of the report stream transformer *)
(* ================================================================== *)

Module TravisProps.
Import Travis TravisSpec TravisSamples.

(** ** Strings *)

Lemma lastIndexOf_from_absent (c : ascii) (s : string) :
  forall i found, occurs c s = false -> lastIndexOf_from s c i found = found.
Proof.
  induction s as [|a s' IH]; intros i found Hocc; simpl in *.
  - reflexivity.
  - apply orb_false_iff in Hocc as [Ha Hs'].
    rewrite Ha. now apply IH.
Qed.

Lemma lastIndexOf_from_last (c : ascii) (suf : string) (pre : string) :
  forall i found,
    occurs c suf = false ->
    lastIndexOf_from (pre ++ String c suf)%string c i found =
    i + Z.of_nat (String.length pre).
Proof.
  induction pre as [|a pre' IH]; intros i found Hsuf.
  - cbn [String.append lastIndexOf_from String.length].
    rewrite Ascii.eqb_refl, lastIndexOf_from_absent by assumption.
    cbn. lia.
  - cbn [String.append lastIndexOf_from String.length].
    rewrite IH by assumption. lia.
Qed.

Lemma drop_append (pre : string) (c : ascii) (suf : string) :
  drop (S (String.length pre)) (pre ++ String c suf)%string = suf.
Proof.
  induction pre as [|a pre' IH]; cbn [String.append String.length drop].
  - reflexivity.
  - exact IH.
Qed.

(** Every string either has no [c], or splits around its last [c]. *)
Lemma split_at_last (c : ascii) (s : string) :
  occurs c s = false \/
  exists pre suf, s = (pre ++ String c suf)%string /\ occurs c suf = false.
Proof.
  induction s as [|a s' [IH | (pre & suf & -> & Hsuf)]].
  - now left.
  - cbn [occurs]. destruct (Ascii.eqb a c) eqn:Hac.
    + right. apply Ascii.eqb_eq in Hac as ->.
      exists EmptyString, s'. now split.
    + left. now rewrite IH.
  - right. exists (String a pre), suf. now split.
Qed.

Lemma basename_no_slash (path : string) :
  occurs "/"%char path = false -> basename path = path.
Proof.
  intros Hocc. unfold basename, lastIndexOf.
  now rewrite lastIndexOf_from_absent.
Qed.

Lemma basename_after_last (pre name : string) :
  occurs "/"%char name = false ->
  basename (pre ++ String "/"%char name)%string = name.
Proof.
  intros Hocc. unfold basename, lastIndexOf, substring.
  rewrite lastIndexOf_from_last by assumption.
  replace (Z.to_nat (Z.max 0 (0 + Z.of_nat (String.length pre) + 1)))
    with (S (String.length pre)) by lia.
  apply drop_append.
Qed.

Lemma basename_last_segment (path : string) :
  last_segment_of path (basename path).
Proof.
  destruct (split_at_last "/"%char path) as [Hno | (pre & suf & -> & Hsuf)].
  - left. split; [assumption | now apply basename_no_slash].
  - right. exists pre. rewrite basename_after_last by assumption.
    now split.
Qed.

(** ** The loops of [transformChanges] *)

Lemma for_of_push_map {A B : Type} (f : A -> B) (xs : list A) :
  forall entries, for_of_push xs f entries = entries ++ map f xs.
Proof.
  unfold for_of_push, push.
  induction xs as [|x xs IH]; intros entries; cbn [fold_left map].
  - now rewrite app_nil_r.
  - rewrite IH, <- app_assoc. reflexivity.
Qed.

Section Transform.

Variable _CODE_SYMBOL_TYPE : string.

Lemma transformChanges_entries (changes : BuildChanges) :
  snd (transformChanges _CODE_SYMBOL_TYPE changes) =
  map (newEntry _CODE_SYMBOL_TYPE) (newItems changes) ++
  map (deletedEntry _CODE_SYMBOL_TYPE) (deletedItems changes) ++
  map (sameEntry _CODE_SYMBOL_TYPE) (sameItems changes) ++
  map (changedEntry _CODE_SYMBOL_TYPE) (changedItems changes).
Proof.
  unfold transformChanges. cbn [snd].
  rewrite !for_of_push_map, !app_assoc. reflexivity.
Qed.

Lemma transformChanges_meta (changes : BuildChanges) :
  fst (transformChanges _CODE_SYMBOL_TYPE changes) =
  {| total :=
       Z.of_nat (List.length (newItems changes)) +
       Z.of_nat (List.length (deletedItems changes)) +
       Z.of_nat (List.length (sameItems changes)) +
       Z.of_nat (List.length (changedItems changes));
     diff_mode := true |}.
Proof. reflexivity. Qed.

Lemma transformChanges_length (changes : BuildChanges) :
  Z.of_nat (List.length (snd (transformChanges _CODE_SYMBOL_TYPE changes))) =
  total (fst (transformChanges _CODE_SYMBOL_TYPE changes)).
Proof.
  rewrite transformChanges_entries, transformChanges_meta.
  cbn [total]. rewrite !length_app, !length_map. lia.
Qed.

(** The entry at position [i] of a group sits in [entries] behind the
    groups pushed before it. *)
Lemma nth_error_skip {A : Type} (front : list A) (l : list A) (i : nat) :
  nth_error (front ++ l) (List.length front + i) = nth_error l i.
Proof.
  rewrite nth_error_app2 by lia. f_equal. lia.
Qed.

Lemma nth_error_front {A : Type} (l back : list A) (i : nat) (x : A) :
  nth_error l i = Some x -> nth_error (l ++ back) i = Some x.
Proof.
  intros Hx. rewrite nth_error_app1; [assumption|].
  apply nth_error_Some. congruence.
Qed.

(** ** The records, group by group *)

(** Claim C3.  With the groups pushed in the order new, deleted,
    same, the [i]-th added file [f] is the record at position [i] with
    [b = f.size], [g = f.gzipSize], [u = 1]; the [i]-th removed file is the
    record at position [|newItems| + i] with [b = -f.size],
    [g = -f.gzipSize], [u = -1]; the [i]-th unchanged file is the record
    at position [|newItems| + |deletedItems| + i] with [b = 0], [g = 0],
    [u = 1]. *)
Theorem group_records (changes : BuildChanges) (i : nat) (f : FileData) :
  let entries := snd (transformChanges _CODE_SYMBOL_TYPE changes) in
  (nth_error (newItems changes) i = Some f ->
   nth_error entries i =
   Some {| p := path f;
           s := [ {| n := basename (path f); b := size f;
                     g := gzipSize f; t := _CODE_SYMBOL_TYPE;
                     u := 1 |} ] |}) /\
  (nth_error (deletedItems changes) i = Some f ->
   nth_error entries (List.length (newItems changes) + i) =
   Some {| p := path f;
           s := [ {| n := basename (path f); b := - size f;
                     g := - gzipSize f; t := _CODE_SYMBOL_TYPE;
                     u := -1 |} ] |}) /\
  (nth_error (sameItems changes) i = Some f ->
   nth_error entries
     (List.length (newItems changes) +
      List.length (deletedItems changes) + i) =
   Some {| p := path f;
           s := [ {| n := basename (path f); b := 0; g := 0;
                     t := _CODE_SYMBOL_TYPE; u := 1 |} ] |}).
Proof.
  cbn zeta. rewrite transformChanges_entries.
  repeat split; intros Hf.
  - apply nth_error_front.
    now rewrite nth_error_map, Hf.
  - rewrite <- (length_map (newEntry _CODE_SYMBOL_TYPE)).
    rewrite nth_error_skip. apply nth_error_front.
    now rewrite nth_error_map, Hf.
  - rewrite <- (length_map (newEntry _CODE_SYMBOL_TYPE)).
    rewrite <- (length_map (deletedEntry _CODE_SYMBOL_TYPE)
                  (deletedItems changes)).
    rewrite <- Nat.add_assoc, !nth_error_skip. apply nth_error_front.
    now rewrite nth_error_map, Hf.
Qed.

(** Claim C2.  The [i]-th changed pair [(old, new)] is the record
    behind the three other groups; its [b] is [new.size - old.size], its
    [g] is [new.gzipSize - old.gzipSize], its [u] is [1], and [p] and [n]
    come from [new]. *)
Theorem changed_record (changes : BuildChanges) (i : nat)
  (oldData newData : FileData) :
  nth_error (changedItems changes) i = Some (oldData, newData) ->
  nth_error (snd (transformChanges _CODE_SYMBOL_TYPE changes))
    (List.length (newItems changes) +
     List.length (deletedItems changes) +
     List.length (sameItems changes) + i) =
  Some {| p := path newData;
          s := [ {| n := basename (path newData);
                    b := size newData - size oldData;
                    g := gzipSize newData - gzipSize oldData;
                    t := _CODE_SYMBOL_TYPE;
                    u := 1 |} ] |}.
Proof.
  intros Hpair. rewrite transformChanges_entries.
  rewrite <- (length_map (newEntry _CODE_SYMBOL_TYPE)).
  rewrite <- (length_map (deletedEntry _CODE_SYMBOL_TYPE)
                (deletedItems changes)).
  rewrite <- (length_map (sameEntry _CODE_SYMBOL_TYPE)
                (sameItems changes)).
  rewrite <- !Nat.add_assoc, !nth_error_skip.
  now rewrite nth_error_map, Hpair.
Qed.

(** Claim C9.  Every record has exactly one element in [s], and the
    [n] of that element is the last segment of the record's [p]. *)
Theorem one_symbol_named_by_last_segment (changes : BuildChanges) :
  Forall
    (fun e => exists sym,
         s e = [sym] /\ n sym = basename (p e) /\
         last_segment_of (p e) (n sym))
    (snd (transformChanges _CODE_SYMBOL_TYPE changes)).
Proof.
  rewrite transformChanges_entries.
  repeat (apply Forall_app; split);
    apply Forall_forall; intros e He;
    apply in_map_iff in He as (x & <- & _);
    try destruct x as [oldData newData];
    eexists; (split; [reflexivity|]); cbn;
    (split; [reflexivity | apply basename_last_segment]).
Qed.

(** ** The generator *)

Section Fetcher.

Variable BuildInfo : Type.
Variable getBuildInfo :
  option string -> option string -> string -> Z ->
  Result (list (option BuildInfo)).
Variable getChanges : BuildInfo -> BuildInfo -> Result BuildChanges.

(** Claim C1.  Whatever [BuildChanges] the comparison resolves to, the
    generator yields the header first and then the records, nothing
    else, and ends normally; the header's [total] is
    [|newItems| + |deletedItems| + |sameItems| + |changedItems|], the
    number of records that follow is that [total], and [diff_mode] is
    [true]. *)
Theorem header_then_total_records (_input : list string)
  (current previous : BuildInfo) (more : list (option BuildInfo))
  (changes : BuildChanges) :
  getBuildInfo (nth_error _input 0) (nth_error _input 1) "master" 2 =
    Ok (Some current :: Some previous :: more) ->
  getChanges previous current = Ok changes ->
  let run :=
    newlineDelimtedJsonStream _CODE_SYMBOL_TYPE BuildInfo getBuildInfo
      getChanges _input in
  exists (meta : Meta) (entries : list FileEntry),
    transformChanges _CODE_SYMBOL_TYPE changes = (meta, entries) /\
    yielded _ run = YMeta meta :: map YEntry entries /\
    thrown _ run = None /\
    total meta =
      Z.of_nat (List.length (newItems changes)) +
      Z.of_nat (List.length (deletedItems changes)) +
      Z.of_nat (List.length (sameItems changes)) +
      Z.of_nat (List.length (changedItems changes)) /\
    Z.of_nat (List.length entries) = total meta /\
    diff_mode meta = true.
Proof.
  intros Hinfo Hchanges run.
  pose proof (transformChanges_length changes) as Hlen.
  pose proof (transformChanges_meta changes) as Hmeta.
  subst run. unfold newlineDelimtedJsonStream.
  rewrite Hinfo. cbn [List.nth]. rewrite Hchanges.
  destruct (transformChanges _CODE_SYMBOL_TYPE changes)
    as [meta entries] eqn:Htc.
  cbn [fst snd] in Hlen, Hmeta. subst meta.
  exists
    {| total :=
         Z.of_nat (List.length (newItems changes)) +
         Z.of_nat (List.length (deletedItems changes)) +
         Z.of_nat (List.length (sameItems changes)) +
         Z.of_nat (List.length (changedItems changes));
       diff_mode := true |}, entries.
  cbn [yielded thrown total diff_mode] in *.
  repeat split; assumption || reflexivity.
Qed.

(** The previous build is looked at first: without it the generator
    throws before it yields or compares anything. *)
Lemma no_previous_build (_input : list string)
  (infos : list (option BuildInfo)) :
  getBuildInfo (nth_error _input 0) (nth_error _input 1) "master" 2 =
    Ok infos ->
  List.nth 1 infos None = None ->
  newlineDelimtedJsonStream _CODE_SYMBOL_TYPE BuildInfo getBuildInfo
    getChanges _input =
  {| calls :=
       [CallGetBuildInfo _ (nth_error _input 0) (nth_error _input 1)
          "master" 2];
     yielded := [];
     thrown := Some (Error "Couldn't find previous build info") |}.
Proof.
  intros Hinfo Hprev. unfold newlineDelimtedJsonStream.
  rewrite Hinfo, Hprev. reflexivity.
Qed.

(** Claim C4, as amended.  When [getBuildInfo] resolves to fewer than
    two builds, the generator throws a plain [Error] with the message
    "Couldn't find previous build info"; nothing was yielded before,
    [getBuildInfo] was called once (for the branch "master") and
    [getChanges] not at all. *)
Theorem fewer_than_two_builds (_input : list string)
  (infos : list (option BuildInfo)) :
  getBuildInfo (nth_error _input 0) (nth_error _input 1) "master" 2 =
    Ok infos ->
  (List.length infos < 2)%nat ->
  let run :=
    newlineDelimtedJsonStream _CODE_SYMBOL_TYPE BuildInfo getBuildInfo
      getChanges _input in
  thrown _ run = Some (Error "Couldn't find previous build info") /\
  yielded _ run = [] /\
  calls _ run =
    [CallGetBuildInfo _ (nth_error _input 0) (nth_error _input 1)
       "master" 2].
Proof.
  intros Hinfo Hlen run. subst run.
  rewrite (no_previous_build _ infos Hinfo).
  - now repeat split.
  - destruct infos as [|x [|y rest]]; cbn in *; try reflexivity; lia.
Qed.

End Fetcher.

End Transform.

(** ** Concrete runs *)

Lemma changed_record_witness :
  nth_error (changedItems sample_changes) 0 = Some (old_100_40, new_150_40) /\
  nth_error (snd (transformChanges "t" sample_changes)) 3 =
  Some {| p := "dist/app.js";
          s := [ {| n := "app.js"; b := 50; g := 0; t := "t"; u := 1 |} ] |}.
Proof.
  split; [reflexivity|].
  exact (changed_record "t" sample_changes 0 old_100_40 new_150_40 eq_refl).
Defined.

Lemma group_records_witness :
  let entries := snd (transformChanges "t" sample_changes) in
  nth_error entries 0 =
    Some {| p := "dist/lib/util.js";
            s := [ {| n := "util.js"; b := 200; g := 80; t := "t";
                      u := 1 |} ] |} /\
  nth_error entries 1 =
    Some {| p := "dist/legacy.js";
            s := [ {| n := "legacy.js"; b := -200; g := -80; t := "t";
                      u := -1 |} ] |} /\
  nth_error entries 2 =
    Some {| p := "index.html";
            s := [ {| n := "index.html"; b := 0; g := 0; t := "t";
                      u := 1 |} ] |}.
Proof.
  intros entries. split; [|split].
  - exact (proj1 (group_records "t" sample_changes 0 added_200_80) eq_refl).
  - exact (proj1 (proj2 (group_records "t" sample_changes 0 removed_200_80))
             eq_refl).
  - exact (proj2 (proj2 (group_records "t" sample_changes 0 same_30_10))
             eq_refl).
Defined.

Lemma header_then_total_records_witness :
  exists (meta : Meta) (entries : list FileEntry),
    transformChanges "t" sample_changes = (meta, entries) /\
    yielded _
      (newlineDelimtedJsonStream "t" unit
         (service_with [Some tt; Some tt]) compare_to_sample
         (setInput "NotWoods/travis-size-report")) =
    YMeta meta :: map YEntry entries /\
    thrown _
      (newlineDelimtedJsonStream "t" unit
         (service_with [Some tt; Some tt]) compare_to_sample
         (setInput "NotWoods/travis-size-report")) = None /\
    total meta = 1 + 1 + 1 + 1 /\
    Z.of_nat (List.length entries) = total meta /\
    diff_mode meta = true.
Proof.
  exact (header_then_total_records "t" unit
           (service_with [Some tt; Some tt]) compare_to_sample
           (setInput "NotWoods/travis-size-report") tt tt []
           sample_changes eq_refl eq_refl).
Defined.

Lemma fewer_than_two_builds_witness :
  let run :=
    newlineDelimtedJsonStream "t" unit (service_with [Some tt])
      compare_to_sample (setInput "NotWoods/travis-size-report") in
  thrown _ run = Some (Error "Couldn't find previous build info") /\
  yielded _ run = [] /\
  calls _ run =
    [CallGetBuildInfo _ (Some "NotWoods") (Some "travis-size-report")
       "master" 2].
Proof.
  apply (fewer_than_two_builds "t" unit (service_with [Some tt])
           compare_to_sample (setInput "NotWoods/travis-size-report")
           [Some tt] eq_refl).
  cbn. lia.
Defined.

(** Claim C4, as stated, fails: with a single completed build the
    exception the caller receives is named "Error"; no exception named
    "NotFoundError" is raised. *)
Lemma fewer_than_two_builds_not_NotFoundError :
  let run :=
    newlineDelimtedJsonStream "t" unit (service_with [Some tt])
      compare_to_sample (setInput "NotWoods/travis-size-report") in
  (exists e, thrown _ run = Some e /\ error_name e = "Error") /\
  ~ (exists e, thrown _ run = Some e /\ error_name e = "NotFoundError").
Proof.
  cbn. split.
  - eexists. split; reflexivity.
  - intros (e & [= <-] & Hname). discriminate Hname.
Qed.

End TravisProps.

(* ================================================================== *)
(** * Properties of the size texts *)
(* ================================================================== *)

Module StateProps.
Import Tree State InfocardSamples.

(** ** The query-string state *)

Lemma get_params_delete (ps : URLSearchParams) (key key' : string) :
  key' <> key -> get (params_delete ps key) key' = get ps key'.
Proof.
  intros Hne. induction ps as [|[k v] rest IH]; [reflexivity|].
  cbn [params_delete filter fst get].
  destruct (String.eqb k key) eqn:Hk; cbn [negb get].
  - apply String.eqb_eq in Hk as ->.
    apply String.eqb_neq in Hne. rewrite String.eqb_sym, Hne. exact IH.
  - destruct (String.eqb k key'); [reflexivity | exact IH].
Qed.

Lemma get_params_set (ps : URLSearchParams) (key value key' : string) :
  key' <> key -> get (params_set ps key value) key' = get ps key'.
Proof.
  intros Hne. pose proof Hne as Hneb. apply String.eqb_neq in Hneb.
  induction ps as [|[k v] rest IH]; cbn [params_set get].
  - now rewrite String.eqb_sym, Hneb.
  - destruct (String.eqb k key) eqn:Hk; cbn [get].
    + apply String.eqb_eq in Hk as ->.
      rewrite String.eqb_sym, Hneb. now apply get_params_delete.
    + destruct (String.eqb k key'); [reflexivity | exact IH].
Qed.

Lemma get_set_other (ps : URLSearchParams) (key key' : string)
  (value : option string) :
  key' <> key -> get (set ps key value) key' = get ps key'.
Proof.
  destruct value; [apply get_params_set | apply get_params_delete].
Qed.

Lemma has_params_delete (ps : URLSearchParams) (key : string) :
  has (params_delete ps key) key = false.
Proof.
  induction ps as [|[k v] rest IH]; [reflexivity|].
  cbn [params_delete filter fst].
  destruct (String.eqb k key) eqn:Hk; cbn [negb]; [exact IH|].
  unfold has in *. cbn [existsb fst]. now rewrite Hk.
Qed.

Lemma has_params_set (ps : URLSearchParams) (key value : string) :
  has (params_set ps key value) key = true.
Proof.
  induction ps as [|[k v] rest IH]; unfold has in *; cbn [params_set].
  - cbn. now rewrite String.eqb_refl.
  - destruct (String.eqb k key) eqn:Hk; cbn [existsb fst].
    + now rewrite String.eqb_refl.
    + now rewrite Hk, IH.
Qed.

(** ** [getSizeContents] *)

Section SizeText.

Context {num : Type} `{JsNumber num}.
Variable toLocaleString : num -> LocaleOptions -> string.
Variable _BYTE_UNITS : string -> num.

(** Claim C8.  The [value] is [node.size] whatever the state; setting
    or clearing the "gzip" flag changes the flag and nothing of what
    [getSizeContents] returns. *)
Theorem getSizeContents_ignores_gzip (state : URLSearchParams)
  (node : TreeNode) (flag : string) :
  value (getSizeContents toLocaleString _BYTE_UNITS state node) =
    size node /\
  has (set state "gzip" (Some flag)) "gzip" = true /\
  has (set state "gzip" None) "gzip" = false /\
  getSizeContents toLocaleString _BYTE_UNITS
    (set state "gzip" (Some flag)) node =
  getSizeContents toLocaleString _BYTE_UNITS
    (set state "gzip" None) node.
Proof.
  split; [|split; [|split]].
  - unfold getSizeContents. cbn [value].
    now destruct (has state "gzip").
  - apply has_params_set.
  - apply has_params_delete.
  - unfold getSizeContents.
    rewrite !get_set_other by discriminate.
    destruct (has (set state "gzip" (Some flag)) "gzip"),
      (has (set state "gzip" None) "gzip"); reflexivity.
Qed.

End SizeText.

(** ** [setSizeClasses] *)

Lemma In_classList_add (cl : list string) (x c : string) :
  In c (classList_add cl x) <-> c = x \/ In c cl.
Proof.
  unfold classList_add. destruct (existsb (String.eqb x) cl) eqn:Hex.
  - split; [now right|]. intros [-> | Hin]; [|assumption].
    apply existsb_exists in Hex as (y & Hy & Heq).
    now apply String.eqb_eq in Heq as ->.
  - rewrite in_app_iff. cbn [In]. intuition congruence.
Qed.

Lemma In_classList_remove (cl : list string) (x c : string) :
  In c (classList_remove cl x) <-> In c cl /\ c <> x.
Proof.
  unfold classList_remove. rewrite filter_In, negb_true_iff.
  now rewrite String.eqb_neq.
Qed.

(** Claim C10.  With "diff_mode" in the state and [|value| > 50000] the
    element ends with "shrunk" and without "grew" when [value < 0], and with
    "grew" and without "shrunk" otherwise; in every other case it ends with
    neither.  Its other classes and its children stay as they were. *)
Theorem setSizeClasses_marks (state : URLSearchParams)
  (sizeElement : Element) (value : Z) :
  let after := setSizeClasses state sizeElement value in
  let changed := has state "diff_mode" && (50000 <? Z.abs value) in
  (changed = true -> value < 0 ->
   In "shrunk" (classList after) /\ ~ In "grew" (classList after)) /\
  (changed = true -> 0 <= value ->
   In "grew" (classList after) /\ ~ In "shrunk" (classList after)) /\
  (changed = false ->
   ~ In "shrunk" (classList after) /\ ~ In "grew" (classList after)) /\
  (forall c, c <> "shrunk" -> c <> "grew" ->
             (In c (classList after) <-> In c (classList sizeElement))) /\
  childNodes after = childNodes sizeElement.
Proof.
  cbn zeta. unfold setSizeClasses, _SIZE_CHANGE_CUTOFF.
  cbn [classList childNodes].
  destruct (has state "diff_mode" && (50000 <? Z.abs value)).
  - destruct (value <? 0) eqn:Hneg;
      [apply Z.ltb_lt in Hneg | apply Z.ltb_ge in Hneg];
      repeat split; try discriminate; try lia; intros;
      rewrite ?In_classList_remove, ?In_classList_add,
        ?In_classList_remove in *;
      intuition (discriminate || congruence).
  - repeat split; try discriminate; intros;
      rewrite ?In_classList_remove, ?In_classList_remove in *;
      intuition (discriminate || congruence).
Qed.

Lemma setSizeClasses_marks_witness :
  classList (setSizeClasses [("diff_mode", "on")] heading (-60000)) =
    ["size-info"; "shrunk"] /\
  (In "shrunk"
     (classList (setSizeClasses [("diff_mode", "on")] heading (-60000))) /\
   ~ In "grew"
     (classList (setSizeClasses [("diff_mode", "on")] heading (-60000)))) /\
  (In "grew"
     (classList (setSizeClasses [("diff_mode", "on")] heading 50001)) /\
   ~ In "shrunk"
     (classList (setSizeClasses [("diff_mode", "on")] heading 50001))) /\
  (~ In "shrunk"
     (classList (setSizeClasses [("diff_mode", "on")] heading 50000)) /\
   ~ In "grew"
     (classList (setSizeClasses [("diff_mode", "on")] heading 50000))) /\
  (~ In "shrunk" (classList (setSizeClasses [] heading (-60000))) /\
   ~ In "grew" (classList (setSizeClasses [] heading (-60000)))).
Proof.
  split; [reflexivity|]. split; [|split; [|split]].
  - apply (setSizeClasses_marks [("diff_mode", "on")] heading (-60000));
      [reflexivity | lia].
  - apply (setSizeClasses_marks [("diff_mode", "on")] heading 50001);
      [reflexivity | lia].
  - apply (setSizeClasses_marks [("diff_mode", "on")] heading 50000).
    reflexivity.
  - apply (setSizeClasses_marks [] heading (-60000)). reflexivity.
Defined.

End StateProps.


(* ================================================================== *)
(** * Properties of the container info card *)
(* ================================================================== *)

Module InfocardProps.
Import Tree State Infocard InfocardSpec InfocardSamples.

(** ** Sorting *)

Section Sort.

Context {A : Type}.
Variable cmp : A -> A -> Z.

Lemma sort_insert_perm (x : A) (l : list A) :
  Permutation (sort_insert cmp x l) (x :: l).
Proof.
  induction l as [|y l IH]; cbn [sort_insert]; [reflexivity|].
  destruct (0 <? cmp x y); [|reflexivity].
  rewrite IH. apply perm_swap.
Qed.

Lemma sort_perm (l : list A) : Permutation (sort cmp l) l.
Proof.
  induction l as [|x l IH]; cbn [sort]; [reflexivity|].
  rewrite sort_insert_perm. now apply perm_skip.
Qed.

(** [key] is what the comparator subtracts: [cmp x y = key y - key x]
    sorts by descending [key]. *)
Variable key : A -> Z.
Hypothesis cmp_key : forall x y, cmp x y = key y - key x.

Lemma sort_insert_sorted (x : A) (l : list A) :
  StronglySorted (fun a b => key b <= key a) l ->
  StronglySorted (fun a b => key b <= key a) (sort_insert cmp x l).
Proof.
  induction 1 as [|y l Hl IH Hy]; cbn [sort_insert].
  - repeat constructor.
  - rewrite cmp_key. destruct (0 <? key y - key x) eqn:Hlt.
    + apply Z.ltb_lt in Hlt. constructor; [exact IH|].
      apply (Permutation_Forall (Permutation_sym (sort_insert_perm x l))).
      constructor; [lia | exact Hy].
    + apply Z.ltb_ge in Hlt. constructor; [now constructor|].
      constructor; [lia|].
      eapply Forall_impl; [|exact Hy]. cbn. intros. lia.
Qed.

Lemma sort_sorted (l : list A) :
  StronglySorted (fun a b => key b <= key a) (sort cmp l).
Proof.
  induction l as [|x l IH]; cbn [sort]; [constructor|].
  now apply sort_insert_sorted.
Qed.

End Sort.

(** ** What an update leaves on the page *)

Section Card.

Context {num : Type} `{JsNumber num}.
Variable toLocaleString : num -> LocaleOptions -> string.
Variable _BYTE_UNITS : string -> num.
Variable getIconStyle_color : string -> string.
Variable state : URLSearchParams.

Lemma slicesOf_app (ops ops' : list (CanvasOp num)) :
  slicesOf (ops ++ ops') = slicesOf ops ++ slicesOf ops'.
Proof. apply flat_map_app. Qed.

Lemma removeChild_absent (body : list string) (row : string) :
  existsb (String.eqb row) body = false -> removeChild body row = body.
Proof.
  induction body as [|k body IH]; cbn [existsb removeChild filter];
    [reflexivity|].
  intros Hex. apply orb_false_iff in Hex as [Hk Hbody].
  rewrite String.eqb_sym, Hk. cbn [negb]. f_equal. now apply IH.
Qed.

Lemma In_removeChild (body : list string) (row k : string) :
  In k (removeChild body row) <-> In k body /\ k <> row.
Proof.
  unfold removeChild. rewrite filter_In, negb_true_iff.
  now rewrite String.eqb_neq.
Qed.

Lemma In_appendChild (body : list string) (row k : string) :
  In k (appendChild body row) <-> In k body \/ k = row.
Proof.
  unfold appendChild. rewrite in_app_iff, In_removeChild. cbn [In].
  destruct (String.eqb_spec k row); intuition congruence.
Qed.

Lemma In_delete (rows : list string) (type k : string) :
  In k (delete rows type) <-> In k rows /\ k <> type.
Proof.
  unfold delete. rewrite filter_In, negb_true_iff.
  now rewrite String.eqb_neq.
Qed.

Lemma infoRow_known (rows : list string) (type : string) :
  In type rows -> infoRow rows type = Some type.
Proof.
  intros Hin. unfold infoRow.
  replace (existsb (String.eqb type) rows) with true; [reflexivity|].
  symmetry. apply existsb_exists. exists type.
  split; [assumption | apply String.eqb_refl].
Qed.

(** *** One row *)

Lemma _updateBreakdownRow_hide (row : string) (percentage : num)
  (card : Card num) (stats : option Stats.t) :
  match stats with
  | None => True
  | Some st => Stats.size st = 0
  end ->
  _updateBreakdownRow toLocaleString (Some row) stats percentage card =
  Ok {| sizeInfo := sizeInfo card;
        tableBody := removeChild (tableBody card) row;
        rowText := rowText card;
        canvas := canvas card |}.
Proof.
  intros Hhide. unfold _updateBreakdownRow.
  assert (Hbody :
    (if existsb (String.eqb row) (tableBody card)
     then Ok {| sizeInfo := sizeInfo card;
                tableBody := removeChild (tableBody card) row;
                rowText := rowText card; canvas := canvas card |}
     else Ok card) =
    Ok {| sizeInfo := sizeInfo card;
          tableBody := removeChild (tableBody card) row;
          rowText := rowText card; canvas := canvas card |}).
  { destruct (existsb (String.eqb row) (tableBody card)) eqn:Hex;
      [reflexivity|].
    rewrite removeChild_absent by assumption. now destruct card. }
  destruct stats as [st|]; [|exact Hbody].
  rewrite Hhide. cbn [Z.eqb]. exact Hbody.
Qed.

Lemma _updateBreakdownRow_show (totalSize : Z) (row : string)
  (card : Card num) (st : Stats.t) :
  Stats.size st <> 0 ->
  _updateBreakdownRow toLocaleString (Some row) (Some st)
    (percentageOf totalSize st) card =
  Ok {| sizeInfo := sizeInfo card;
        tableBody := appendChild (tableBody card) row;
        rowText :=
          fun k => if String.eqb k row
                   then rowTextOf toLocaleString totalSize st
                   else rowText card k;
        canvas := canvas card |}.
Proof.
  intros Hsize. unfold _updateBreakdownRow.
  apply Z.eqb_neq in Hsize. rewrite Hsize. reflexivity.
Qed.

(** *** One entry *)

(** Reads a field of the page off the record an iteration built. *)
Ltac card_fields diffMode Hsize Harc :=
  cbn [extraRows angleStart card fst snd]; rewrite ?Hsize, ?Harc;
  destruct diffMode;
  cbn [_drawBorder _drawSlice sizeInfo tableBody rowText canvas];
  rewrite ?slicesOf_app; cbn [slicesOf flat_map app];
  rewrite ?app_nil_r; reflexivity.

Lemma drawEntry_known (diffMode : bool) (totalSize : Z)
  (entry : string * Stats.t) (l : Loop num) :
  In (fst entry) _infoRows ->
  exists l',
    drawEntry toLocaleString getIconStyle_color diffMode totalSize entry l =
      Ok l' /\
    EntryDone toLocaleString getIconStyle_color totalSize entry l l'.
Proof.
  destruct entry as [type stats]. cbn [fst]. intros Hknown.
  unfold drawEntry. rewrite (infoRow_known _ _ Hknown).
  change (num_gt (arcLengthOf (percentageOf totalSize stats)) (of_int 0))
    with (hasArc totalSize (type, stats)).
  destruct (Z.eq_dec (Stats.size stats) 0) as [Hsize | Hsize].
  - rewrite _updateBreakdownRow_hide by exact Hsize. cbn [bind].
    destruct (hasArc totalSize (type, stats)) eqn:Harc;
      eexists; (split; [reflexivity|]);
      constructor; card_fields diffMode Hsize Harc.
  - rewrite _updateBreakdownRow_show by exact Hsize. cbn [bind].
    apply Z.eqb_neq in Hsize.
    destruct (hasArc totalSize (type, stats)) eqn:Harc;
      eexists; (split; [reflexivity|]);
      constructor; card_fields diffMode Hsize Harc.
Qed.

(** *** The loop over the entries *)

Lemma drawEntries_known (diffMode : bool) (totalSize : Z)
  (entries : list (string * Stats.t)) :
  Forall (fun entry => In (fst entry) _infoRows) entries ->
  forall l, exists l',
    drawEntries toLocaleString getIconStyle_color diffMode totalSize
      entries l = Ok l' /\
    EntriesDone toLocaleString getIconStyle_color totalSize entries l l'.
Proof.
  induction 1 as [|entry rest Hknown _ IH]; intros l.
  - exists l. split; [reflexivity|].
    constructor; cbn [map filter layoutEnd fold_left pieLayout In].
    + tauto.
    + reflexivity.
    + tauto.
    + reflexivity.
    + contradiction.
    + reflexivity.
    + now rewrite app_nil_r.
  - destruct (drawEntry_known diffMode totalSize entry l Hknown)
      as (l1 & Hstep & Hdone).
    destruct (IH l1) as (l' & Hrest & Hall).
    exists l'. split.
    { cbn [drawEntries]. rewrite Hstep. exact Hrest. }
    destruct Hdone, Hall. destruct entry as [type stats].
    cbn [fst snd] in *.
    constructor; cbn [map fst In].
    + intros k. rewrite all_extraRows0, done_extraRows0, In_delete.
      intuition congruence.
    + congruence.
    + intros k Hk.
      destruct (all_tableBody0 k Hk) as [[Hbody Hnot] | (st & Hin & Hst)].
      * rewrite done_tableBody0 in Hbody.
        destruct (Stats.size stats =? 0) eqn:Hsize.
        -- apply In_removeChild in Hbody as [Hbody Hne].
           left. split; [assumption|]. intuition congruence.
        -- apply Z.eqb_neq in Hsize.
           destruct (String.eqb_spec k type) as [-> | Hne].
           ++ right. exists stats. split; [now left | assumption].
           ++ apply In_appendChild in Hbody as [Hbody | ->];
                [|contradiction].
              left. split; [assumption|]. intuition congruence.
      * right. exists st. split; [now right | assumption].
    + intros k Hk. rewrite all_rowText_other0 by tauto.
      rewrite done_rowText0.
      destruct (Stats.size stats =? 0); [reflexivity|].
      destruct (String.eqb_spec k type); [|reflexivity].
      exfalso. apply Hk. now left.
    + intros Hnodup k st Hin Hst.
      apply NoDup_cons_iff in Hnodup as [Hfresh Hnodup].
      destruct Hin as [[= <- <-] | Hin].
      * rewrite all_rowText_other0 by assumption.
        rewrite done_rowText0.
        apply Z.eqb_neq in Hst. rewrite Hst.
        now rewrite String.eqb_refl.
      * now apply all_rowText_shown0.
    + rewrite all_angleStart0, done_angleStart0.
      cbn [filter]. destruct (hasArc totalSize (type, stats));
        reflexivity.
    + rewrite all_slices0, done_slices0, done_angleStart0, <- app_assoc.
      cbn [filter]. destruct (hasArc totalSize (type, stats));
        reflexivity.
Qed.

(** *** Hiding the unused rows *)

Lemma hideRows_done (rows : list string) :
  forall card, exists card',
    hideRows toLocaleString rows card = Ok card' /\
    sizeInfo card' = sizeInfo card /\
    rowText card' = rowText card /\
    canvas card' = canvas card /\
    forall k, In k (tableBody card') <->
              In k (tableBody card) /\ ~ In k rows.
Proof.
  induction rows as [|row rest IH]; intros card.
  - exists card. cbn [hideRows In]. intuition.
  - cbn [hideRows].
    rewrite (_updateBreakdownRow_hide row (of_int 0) card None I).
    cbn [bind].
    edestruct IH as (card' & -> & Hsize & Htext & Hcanvas & Hbody).
    exists card'. cbn [sizeInfo rowText canvas tableBody] in *.
    split; [reflexivity|]. repeat (split; [assumption|]).
    intros k. rewrite Hbody, In_removeChild. cbn [In].
    intuition congruence.
Qed.

(** *** The whole update *)

Lemma statsEntriesOf_perm (node : TreeNode) :
  Permutation (statsEntriesOf node) (childStats node).
Proof. apply sort_perm. Qed.

Lemma statsEntriesOf_sorted (node : TreeNode) :
  StronglySorted
    (fun a b => Stats.size (snd b) <= Stats.size (snd a))
    (statsEntriesOf node).
Proof.
  apply (sort_sorted _ (fun e => Stats.size (snd e))). reflexivity.
Qed.

Lemma distinct_keys_one_value {A B : Type} (l : list (A * B)) :
  NoDup (map fst l) ->
  forall k v v', In (k, v) l -> In (k, v') l -> v = v'.
Proof.
  induction l as [|[k0 v0] l IH]; cbn [map fst In]; [contradiction|].
  intros Hnodup k v v' Hv Hv'.
  apply NoDup_cons_iff in Hnodup as [Hfresh Hnodup].
  destruct Hv as [[= <- <-] | Hv], Hv' as [[= <-] | Hv'].
  - reflexivity.
  - exfalso. apply Hfresh. now apply (in_map fst) in Hv'.
  - exfalso. apply Hfresh. apply (in_map fst) in Hv.
    cbn [fst] in Hv. congruence.
  - now apply (IH Hnodup k).
Qed.

Lemma _updateInfocard_known (node : TreeNode) (this : Card num) :
  knownTypes node ->
  exists card' angle,
    _updateInfocard toLocaleString _BYTE_UNITS getIconStyle_color state
      node this = Ok (card', angle) /\
    Updated toLocaleString _BYTE_UNITS getIconStyle_color state node this
      card' angle.
Proof.
  intros Hknown.
  pose proof (statsEntriesOf_perm node) as Hperm.
  assert (Hknown' :
    Forall (fun entry => In (fst entry) _infoRows) (statsEntriesOf node)).
  { apply (Permutation_Forall (Permutation_sym Hperm)). exact Hknown. }
  unfold _updateInfocard.
  destruct (drawEntries_known (has state "diff_mode")
              (totalSizeOf (statsEntriesOf node)) (statsEntriesOf node)
              Hknown'
              {| extraRows := _infoRows; angleStart := of_int 0;
                 card := Infocard_updateInfocard toLocaleString _BYTE_UNITS
                           state node this |})
    as (l' & -> & Hall).
  cbn [bind].
  destruct (hideRows_done (extraRows l') (card l'))
    as (card' & -> & Hsize & Htext & Hcanvas & Hbody).
  cbn [bind]. exists card', (angleStart l'). split; [reflexivity|].
  destruct Hall. cbn [extraRows angleStart card] in *.
  assert (Hkeys : forall k,
    In k (map fst (statsEntriesOf node)) <->
    In k (map fst (childStats node))).
  { intros k. split; apply Permutation_in, Permutation_map;
      [exact Hperm | exact (Permutation_sym Hperm)]. }
  constructor.
  - exact all_angleStart0.
  - now rewrite Hsize, all_sizeInfo0.
  - now rewrite Hcanvas, all_slices0.
  - intros k Hk. apply Hbody in Hk as [Hk Hextra].
    destruct (all_tableBody0 k Hk) as [[Hthis Hnot] | (st & Hin & Hst)].
    + left. split; [exact Hthis|]. intros Hrow.
      apply Hextra, all_extraRows0. now split.
    + right. exists st. split; [|exact Hst].
      now apply (Permutation_in _ Hperm).
  - intros k Hk. rewrite Htext. apply all_rowText_other0.
    now rewrite Hkeys.
  - intros Hdistinct k st Hin Hst. rewrite Htext.
    apply all_rowText_shown0; [|now apply (Permutation_in _
                                             (Permutation_sym Hperm))|
                                exact Hst].
    apply (Permutation_NoDup
             (Permutation_map fst (Permutation_sym Hperm))).
    exact Hdistinct.
Qed.

(** Claim C5, as amended.  For a node whose types are distinct and all
    have a row, the update succeeds; the entries are taken in descending
    order of their signed sizes; the slices it adds to the canvas are those of
    the entries with a positive arc, in that order, side by side from angle 0,
    each from [angleStart] to [angleStart + |percentage| * 2 * Math.PI]; and
    no row of a type whose size is zero is left in the table. *)
Theorem slices_by_signed_size_and_zero_rows_hidden (node : TreeNode)
  (this : Card num) :
  knownTypes node ->
  distinctTypes node ->
  let statsEntries := statsEntriesOf node in
  let totalSize := totalSizeOf statsEntries in
  Permutation statsEntries (childStats node) /\
  StronglySorted
    (fun a b => Stats.size (snd b) <= Stats.size (snd a)) statsEntries /\
  exists card' angle,
    _updateInfocard toLocaleString _BYTE_UNITS getIconStyle_color state
      node this = Ok (card', angle) /\
    slicesOf (canvas card') =
      slicesOf (canvas this) ++
      pieLayout getIconStyle_color totalSize (of_int 0)
        (filter
           (fun entry =>
              num_gt
                (num_mul
                   (num_mul
                      (num_abs
                         (num_div (of_int (Stats.size (snd entry)))
                            (of_int totalSize)))
                      (of_int 2))
                   Math_PI)
                (of_int 0))
           statsEntries) /\
    forall type stats,
      In (type, stats) (childStats node) -> Stats.size stats = 0 ->
      ~ In type (tableBody card').
Proof.
  intros Hknown Hdistinct statsEntries totalSize.
  split; [apply statsEntriesOf_perm|].
  split; [apply statsEntriesOf_sorted|].
  destruct (_updateInfocard_known node this Hknown)
    as (card' & angle & Hrun & Hupd).
  exists card', angle. split; [exact Hrun|]. destruct Hupd.
  split; [exact upd_slices0|].
  intros type stats Hin Hzero Hrow.
  destruct (upd_tableBody0 type Hrow) as [[_ Hnot] | (st & Hin' & Hst)].
  - apply Hnot. unfold knownTypes in Hknown.
    rewrite Forall_forall in Hknown. exact (Hknown _ Hin).
  - apply Hst.
    now rewrite (distinct_keys_one_value _ Hdistinct type st stats).
Qed.

End Card.

Lemma knownTypes_check (node : TreeNode) :
  forallb (fun entry => existsb (String.eqb (fst entry)) _infoRows)
    (childStats node) = true ->
  knownTypes node.
Proof.
  unfold knownTypes. rewrite forallb_forall, Forall_forall.
  intros Hall entry Hin. specialize (Hall entry Hin).
  apply existsb_exists in Hall as (k & Hk & Heq).
  now apply String.eqb_eq in Heq as ->.
Qed.

(** ** The program's numbers: binary64 *)

(** The sum of a double that is zero, positive or [+Infinity] and a positive
    double is not below the former.  This is read off the rounding functions
    of [SpecFloat]: [Zdigits2] counts binary digits, [shr] shifts a mantissa
    right, [binary_round_aux] rounds it to 53 digits. *)

(** *** Digits *)

Lemma digits2_pos_bounds (p : positive) :
  2 ^ (Zpos (digits2_pos p) - 1) <= Zpos p < 2 ^ Zpos (digits2_pos p).
Proof.
  induction p as [p IH | p IH |]; cbn [digits2_pos].
  - rewrite Pos2Z.inj_succ.
    replace (Z.succ (Zpos (digits2_pos p)) - 1)
      with (Z.succ (Zpos (digits2_pos p) - 1)) by lia.
    rewrite !Z.pow_succ_r by lia. lia.
  - rewrite Pos2Z.inj_succ.
    replace (Z.succ (Zpos (digits2_pos p)) - 1)
      with (Z.succ (Zpos (digits2_pos p) - 1)) by lia.
    rewrite !Z.pow_succ_r by lia. lia.
  - cbn. lia.
Qed.

Lemma Zdigits2_bounds (m : Z) :
  0 < m -> 2 ^ (Zdigits2 m - 1) <= m < 2 ^ Zdigits2 m.
Proof.
  destruct m as [|p|p]; try lia. intros _. apply digits2_pos_bounds.
Qed.

Lemma Zdigits2_nonneg (m : Z) : 0 <= Zdigits2 m.
Proof. destruct m; cbn; lia. Qed.

Lemma Zdigits2_unique (m d : Z) :
  2 ^ (d - 1) <= m < 2 ^ d -> 0 < m -> Zdigits2 m = d.
Proof.
  intros [Hlo Hhi] Hm.
  destruct (Zdigits2_bounds m Hm) as [Hlo' Hhi'].
  pose proof (Zdigits2_nonneg m) as Hd'.
  assert (0 <= d).
  { destruct (Z_lt_le_dec d 0) as [Hneg|]; [|lia].
    rewrite Z.pow_neg_r in Hhi by lia. lia. }
  destruct (Z_lt_le_dec (Zdigits2 m) d) as [Hlt | Hge].
  - assert (2 ^ Zdigits2 m <= 2 ^ (d - 1)) by (apply Z.pow_le_mono_r; lia). lia.
  - destruct (Z_lt_le_dec d (Zdigits2 m)) as [Hlt | Hle]; [|lia].
    assert (2 ^ d <= 2 ^ (Zdigits2 m - 1)) by (apply Z.pow_le_mono_r; lia). lia.
Qed.

Lemma Zdigits2_mono (m n : Z) : 0 < m -> m <= n -> Zdigits2 m <= Zdigits2 n.
Proof.
  intros Hm Hmn.
  destruct (Zdigits2_bounds m Hm) as [Hlo _].
  destruct (Zdigits2_bounds n ltac:(lia)) as [_ Hhi].
  destruct (Z_lt_le_dec (Zdigits2 n) (Zdigits2 m)) as [Hlt|]; [|lia].
  assert (2 ^ Zdigits2 n <= 2 ^ (Zdigits2 m - 1)).
  { apply Z.pow_le_mono_r; [lia|]. lia. }
  lia.
Qed.

Lemma Zdigits2_shift (m k : Z) :
  0 < m -> 0 <= k -> Zdigits2 (m * 2 ^ k) = Zdigits2 m + k.
Proof.
  intros Hm Hk. destruct (Zdigits2_bounds m Hm) as [Hlo Hhi].
  pose proof (Zdigits2_nonneg m).
  assert (0 < 2 ^ k) by (apply Z.pow_pos_nonneg; lia).
  assert (1 <= Zdigits2 m).
  { destruct m; cbn in *; lia. }
  apply Zdigits2_unique; [|nia].
  replace (Zdigits2 m + k - 1) with ((Zdigits2 m - 1) + k) by lia.
  rewrite !Z.pow_add_r by lia. nia.
Qed.

(** *** Shifting right and rounding *)

Lemma iter_pos_as_nat {A : Type} (f : A -> A) (p : positive) :
  forall x, SpecFloat.iter_pos f p x = Nat.iter (Pos.to_nat p) f x.
Proof.
  induction p as [p IH | p IH |]; intros x; cbn [SpecFloat.iter_pos].
  - rewrite !IH, Pos2Nat.inj_xI.
    replace (S (2 * Pos.to_nat p))%nat
      with (Pos.to_nat p + (Pos.to_nat p + 1))%nat by lia.
    rewrite !Nat.iter_add. reflexivity.
  - rewrite !IH, Pos2Nat.inj_xO.
    replace (2 * Pos.to_nat p)%nat
      with (Pos.to_nat p + Pos.to_nat p)%nat by lia.
    rewrite Nat.iter_add. reflexivity.
  - reflexivity.
Qed.

Lemma shr_1_m (mrs : shr_record) :
  0 <= shr_m mrs -> shr_m (shr_1 mrs) = shr_m mrs / 2.
Proof.
  destruct mrs as [m r s]. cbn [shr_m shr_1]. intros Hm.
  destruct m as [|[p|p|]|p]; cbn [shr_m]; try reflexivity; try lia.
  - apply Z.div_unique with 1; lia.
  - apply Z.div_unique with 0; lia.
Qed.

Lemma iter_shr_1_m (n : nat) (mrs : shr_record) :
  0 <= shr_m mrs ->
  shr_m (Nat.iter n shr_1 mrs) = shr_m mrs / 2 ^ Z.of_nat n.
Proof.
  intros Hm. induction n as [|n IH].
  - cbn. now rewrite Z.div_1_r.
  - change (Nat.iter (S n) shr_1 mrs) with (shr_1 (Nat.iter n shr_1 mrs)).
    rewrite shr_1_m.
    + rewrite IH, Nat2Z.inj_succ, Z.pow_succ_r by lia.
      rewrite Z.div_div by (try apply Z.pow_pos_nonneg; lia).
      f_equal. lia.
    + rewrite IH. apply Z.div_pos; [lia|]. apply Z.pow_pos_nonneg; lia.
Qed.

Lemma shr_m_of_loc (m : Z) (l : location) : shr_m (shr_record_of_loc m l) = m.
Proof. destruct l as [|[]]; reflexivity. Qed.

Lemma shr_spec (m : Z) (l : location) (e n : Z) (mrs' : shr_record) (e' : Z) :
  0 <= m ->
  shr (shr_record_of_loc m l) e n = (mrs', e') ->
  e' = e + Z.max 0 n /\ shr_m mrs' = m / 2 ^ Z.max 0 n.
Proof.
  intros Hm. unfold shr. destruct n as [|p|p]; intros [= <- <-].
  - cbn. rewrite shr_m_of_loc, Z.div_1_r. lia.
  - rewrite iter_pos_as_nat, iter_shr_1_m by (now rewrite shr_m_of_loc).
    rewrite shr_m_of_loc, positive_nat_Z.
    replace (Z.max 0 (Z.pos p)) with (Z.pos p) by lia. split; reflexivity.
  - cbn. rewrite shr_m_of_loc, Z.div_1_r. lia.
Qed.

Lemma round_nearest_even_bounds (m : Z) (l : location) :
  m <= round_nearest_even m l <= m + 1.
Proof.
  unfold round_nearest_even. destruct l as [|[]]; try lia.
  destruct (Z.even m); lia.
Qed.

(** *** The rounding of a sum or a product *)

Lemma fexp_eq (e : Z) : fexp 53 1024 e = Z.max (e - 53) (-1074).
Proof. reflexivity. Qed.

Lemma pow2_lt_digits (m d : Z) :
  0 < m -> m < 2 ^ d -> 0 <= d -> Zdigits2 m <= d.
Proof.
  intros Hm Hlt Hd. destruct (Zdigits2_bounds m Hm) as [Hlo _].
  destruct (Z_lt_le_dec d (Zdigits2 m)) as [Hgt|]; [|lia].
  assert (2 ^ d <= 2 ^ (Zdigits2 m - 1)) by (apply Z.pow_le_mono_r; lia). lia.
Qed.

Lemma round_aux_spec (sx : bool) (M e : Z) :
  0 < M -> e <= fexp 53 1024 (Zdigits2 M + e) ->
  match binary_round_aux 53 1024 sx M e loc_Exact with
  | S754_zero s =>
      s = sx /\ M / 2 ^ (fexp 53 1024 (Zdigits2 M + e) - e) = 0
  | S754_infinity s => s = sx
  | S754_nan => False
  | S754_finite s m3 e3 =>
      s = sx /\ SpecFloat.bounded 53 1024 m3 e3 = true /\
      fexp 53 1024 (Zdigits2 M + e) <= e3 /\
      (e3 = fexp 53 1024 (Zdigits2 M + e) ->
       M / 2 ^ (fexp 53 1024 (Zdigits2 M + e) - e) <= Zpos m3)
  end.
Proof.
  intros HM He. unfold binary_round_aux, shr_fexp.
  set (e1 := fexp 53 1024 (Zdigits2 M + e)) in *.
  destruct (shr (shr_record_of_loc M loc_Exact) e (e1 - e)) as [mrs' e'] eqn:H1.
  apply shr_spec in H1 as [-> Hm1]; [|lia].
  replace (Z.max 0 (e1 - e)) with (e1 - e) in * by lia.
  replace (e + (e1 - e)) with e1 by lia.
  set (m1 := M / 2 ^ (e1 - e)) in *.
  pose proof (round_nearest_even_bounds (shr_m mrs')
                (loc_of_shr_record mrs')) as Hm2.
  set (m2 := round_nearest_even (shr_m mrs') (loc_of_shr_record mrs')) in *.
  rewrite Hm1 in Hm2.
  assert (Hpow : 0 < 2 ^ (e1 - e)) by (apply Z.pow_pos_nonneg; lia).
  assert (Hm1pos : 0 <= m1) by (apply Z.div_pos; lia).
  destruct (shr (shr_record_of_loc m2 loc_Exact) e1
              (fexp 53 1024 (Zdigits2 m2 + e1) - e1)) as [mrs'' e''] eqn:H2.
  apply shr_spec in H2 as [-> Hm3]; [|lia].
  rewrite Hm3. clear Hm3 mrs''.
  pose proof (Zdigits2_bounds M HM) as [HMlo HMhi].
  pose proof (fexp_eq (Zdigits2 M + e)) as He1. fold e1 in He1.
  destruct (Z_le_gt_dec (-1074) (Zdigits2 M + e - 53)) as [Hnormal | Hsub].
  - assert (He1' : e1 = Zdigits2 M + e - 53) by lia.
    assert (Hlo : 2 ^ 52 <= m1).
    { apply Z.div_le_lower_bound; [lia|].
      rewrite <- Z.pow_add_r by lia.
      replace (e1 - e + 52) with (Zdigits2 M - 1) by lia. exact HMlo. }
    assert (Hhi : m1 < 2 ^ 53).
    { apply Z.div_lt_upper_bound; [lia|].
      rewrite <- Z.pow_add_r by lia.
      replace (e1 - e + 53) with (Zdigits2 M) by lia. exact HMhi. }
    destruct (Z.eq_dec m2 (2 ^ 53)) as [Hcarry | Hnocarry].
    + rewrite Hcarry.
      replace (fexp 53 1024 (Zdigits2 (2 ^ 53) + e1) - e1) with 1
        by (rewrite fexp_eq; change (Zdigits2 (2 ^ 53)) with 54; lia).
      change (2 ^ 53 / 2 ^ Z.max 0 1) with (Zpos 4503599627370496).
      cbv iota. destruct (e1 + Z.max 0 1 <=? 1024 - 53) eqn:Hover;
        [|reflexivity].
      split; [reflexivity|]. split; [|split; [lia | lia]].
      unfold SpecFloat.bounded, canonical_mantissa. rewrite Hover, andb_true_r.
      apply Z.eqb_eq. rewrite fexp_eq.
      change (Z.pos (digits2_pos 4503599627370496)) with 53. lia.
    + assert (Hd2 : Zdigits2 m2 = 53).
      { apply Zdigits2_unique; [|lia]. change (53 - 1) with 52. lia. }
      rewrite Hd2.
      replace (fexp 53 1024 (53 + e1) - e1) with 0 by (rewrite fexp_eq; lia).
      change (2 ^ Z.max 0 0) with 1. rewrite Z.div_1_r.
      replace (e1 + Z.max 0 0) with e1 by lia.
      destruct m2 as [|p|p] eqn:Hp; try lia.
      destruct (e1 <=? 1024 - 53) eqn:Hover; [|reflexivity].
      split; [reflexivity|]. split; [|split; [lia | lia]].
      unfold SpecFloat.bounded, canonical_mantissa. rewrite Hover, andb_true_r.
      apply Z.eqb_eq. rewrite fexp_eq.
      change (Z.pos (digits2_pos p)) with (Zdigits2 (Z.pos p)). lia.
  - assert (He1' : e1 = -1074) by lia.
    assert (Hhi : m1 < 2 ^ 52).
    { apply Z.div_lt_upper_bound; [lia|].
      rewrite <- Z.pow_add_r by lia.
      eapply Z.lt_le_trans; [exact HMhi|].
      apply Z.pow_le_mono_r; lia. }
    assert (Hd2 : Zdigits2 m2 <= 53).
    { destruct (Z.eq_dec m2 0) as [-> | Hnz]; [cbn; lia|].
      apply pow2_lt_digits; try lia. }
    pose proof (Zdigits2_nonneg m2) as Hd2'.
    replace (fexp 53 1024 (Zdigits2 m2 + e1) - e1) with 0
      by (rewrite fexp_eq; lia).
    change (2 ^ Z.max 0 0) with 1. rewrite Z.div_1_r.
    replace (e1 + Z.max 0 0) with e1 by lia.
    destruct m2 as [|p|p] eqn:Hp; try lia.
    + split; [reflexivity | lia].
    + destruct (e1 <=? 1024 - 53) eqn:Hover; [|reflexivity].
      split; [reflexivity|]. split; [|split; [lia | lia]].
      unfold SpecFloat.bounded, canonical_mantissa. rewrite Hover, andb_true_r.
      apply Z.eqb_eq. rewrite fexp_eq.
      change (Z.pos (digits2_pos p)) with (Zdigits2 (Z.pos p)). lia.
Qed.

(** *** Adding a positive number never goes down *)

Lemma pos_ok_nonneg_ok (y : spec_float) : pos_ok y -> nonneg_ok y.
Proof. destruct y as [s|s| |s m e]; try destruct s; cbn; intuition. Qed.

Lemma pos_iter_xO (m d : positive) :
  Zpos (Pos.iter xO m d) = Zpos m * 2 ^ Zpos d.
Proof.
  induction d as [|d IH] using Pos.peano_ind.
  - cbn. lia.
  - rewrite Pos.iter_succ, Pos2Z.inj_xO, IH, Pos2Z.inj_succ, Z.pow_succ_r
      by lia.
    lia.
Qed.

Lemma shl_align_fst (mx : positive) (ex ez : Z) :
  ez <= ex -> Zpos (fst (shl_align mx ex ez)) = Zpos mx * 2 ^ (ex - ez).
Proof.
  intros Hle. unfold shl_align. destruct (ez - ex) as [|d|d] eqn:Hd; cbn [fst].
  - replace (ex - ez) with 0 by lia. lia.
  - lia.
  - rewrite pos_iter_xO. f_equal. f_equal. lia.
Qed.

Lemma shl_align_same (m : positive) (e e' : Z) :
  e <= e' -> shl_align m e e' = (m, e).
Proof.
  intros Hle. unfold shl_align. destruct (e' - e) eqn:Hd; try reflexivity. lia.
Qed.

Lemma bounded_canonical (m : positive) (e : Z) :
  SpecFloat.bounded 53 1024 m e = true ->
  e = Z.max (Zdigits2 (Zpos m) + e - 53) (-1074) /\ e <= 971.
Proof.
  unfold SpecFloat.bounded, canonical_mantissa. intros Hb.
  apply andb_true_iff in Hb as [Hc He].
  apply Z.eqb_eq in Hc. apply Z.leb_le in He. rewrite fexp_eq in Hc.
  cbn [Zdigits2]. cbn in He. lia.
Qed.

Lemma SFadd_mono (x y : spec_float) :
  nonneg_ok x -> pos_ok y ->
  pos_ok (SFadd 53 1024 x y) /\ SFleb x (SFadd 53 1024 x y) = true.
Proof.
  destruct x as [sx|sx| |sx mx ex], y as [sy|sy| |sy my ey];
    cbn [nonneg_ok pos_ok]; try contradiction;
    try (intros -> Hy; destruct sy; try contradiction; now split).
  - intros [-> Hx] Hy. destruct sy; [contradiction|]. now split.
  - intros [-> Hx] Hy. destruct sy; [contradiction|].
    apply bounded_canonical in Hx as [Hx Hxmax].
    pose proof Hy as Hy'. apply bounded_canonical in Hy' as [Hy' Hymax].
    clear Hy.
    unfold SFadd. cbn [cond_Zopp].
    set (ez := Z.min ex ey).
    pose proof (shl_align_fst mx ex ez ltac:(lia)) as HX.
    pose proof (shl_align_fst my ey ez ltac:(lia)) as HY.
    set (X := fst (shl_align mx ex ez)) in *.
    set (Y := fst (shl_align my ey ez)) in *.
    change (Z.pos X + Z.pos Y) with (Z.pos (X + Y)).
    cbn [binary_normalize]. unfold binary_round.
    assert (HdX : Zdigits2 (Z.pos X) = Zdigits2 (Z.pos mx) + (ex - ez))
      by (rewrite HX; apply Zdigits2_shift; lia).
    assert (HdY : Zdigits2 (Z.pos Y) = Zdigits2 (Z.pos my) + (ey - ez))
      by (rewrite HY; apply Zdigits2_shift; lia).
    assert (HdMX : Zdigits2 (Z.pos X) <= Zdigits2 (Z.pos (X + Y)))
      by (apply Zdigits2_mono; lia).
    assert (HdMY : Zdigits2 (Z.pos Y) <= Zdigits2 (Z.pos (X + Y)))
      by (apply Zdigits2_mono; lia).
    pose proof (fexp_eq (Zdigits2 (Z.pos (X + Y)) + ez)) as He1.
    change (Z.pos (digits2_pos (X + Y))) with (Zdigits2 (Z.pos (X + Y))).
    rewrite shl_align_same by lia.
    pose proof (round_aux_spec false (Z.pos (X + Y)) ez ltac:(lia) ltac:(lia))
      as Hround.
    set (e1 := fexp 53 1024 (Zdigits2 (Z.pos (X + Y)) + ez)) in *.
    destruct (binary_round_aux 53 1024 false (Z.pos (X + Y)) ez loc_Exact)
      as [s|s| |s m3 e3].
    + exfalso. destruct Hround as [_ Hzero].
      pose proof (Zdigits2_bounds (Z.pos (X + Y)) ltac:(lia)) as [Hlo _].
      assert (1 <= Zdigits2 (Z.pos (X + Y))) by (cbn; lia).
      assert (Hpow : 0 < 2 ^ (e1 - ez)) by (apply Z.pow_pos_nonneg; lia).
      assert (1 <= Z.pos (X + Y) / 2 ^ (e1 - ez)); [|lia].
      apply Z.div_le_lower_bound; [lia|]. rewrite Z.mul_1_r.
      eapply Z.le_trans; [|exact Hlo]. apply Z.pow_le_mono_r; lia.
    + subst s. now split.
    + contradiction.
    + destruct Hround as (-> & Hb & Hle & Hm). split; [exact Hb|].
      unfold SFleb, SFcompare.
      destruct (Z.compare_spec ex e3) as [Heq | Hlt | Hgt];
        [|reflexivity | lia].
      assert (Hmant : Z.pos mx <= Z.pos m3).
      { eapply Z.le_trans; [|apply Hm; lia].
        replace (e1 - ez) with (ex - ez) by lia.
        assert (Hpow : 0 < 2 ^ (ex - ez)) by (apply Z.pow_pos_nonneg; lia).
        apply Z.div_le_lower_bound; [lia|]. lia. }
      change (Pos.compare_cont Eq mx m3) with (Pos.compare mx m3).
      destruct (Pos.compare_spec mx m3); try reflexivity. lia.
Qed.

Lemma SFmul_PI_ok (z : spec_float) :
  SFltb (S754_zero false) (SFmul 53 1024 z b64_PI) = true ->
  pos_ok (SFmul 53 1024 z b64_PI).
Proof.
  destruct z as [s|s| |s m e]; cbn [SFmul b64_PI]; try discriminate.
  - destruct s; [discriminate | reflexivity].
  - set (M := (m * 7074237752028440)%positive).
    assert (Hd : 53 <= Zdigits2 (Z.pos M)).
    { change 53 with (Zdigits2 (Z.pos 7074237752028440)).
      apply Zdigits2_mono; lia. }
    pose proof (round_aux_spec (xorb s false) (Z.pos M) (e + -51)
                  ltac:(lia) ltac:(rewrite fexp_eq; lia)) as Hround.
    destruct (binary_round_aux 53 1024 (xorb s false) (Z.pos M) (e + -51)
                loc_Exact) as [s'|s'| |s' m3 e3]; try discriminate.
    + destruct s'; [discriminate | reflexivity].
    + destruct s'; [discriminate|]. cbn [pos_ok]. tauto.
Qed.

(** *** The angles of an update *)

Lemma arcOf_pos_ok (totalSize : Z) (entry : string * Stats.t) :
  hasArc (num := binary64) totalSize entry = true ->
  pos_ok (arcOf totalSize entry).
Proof. apply SFmul_PI_ok. Qed.

Lemma b64_trace_sorted (color : string -> string) (totalSize : Z)
  (entries : list (string * Stats.t)) :
  Forall (fun entry => hasArc (num := binary64) totalSize entry = true)
    entries ->
  forall angle : binary64,
    nonneg_ok angle ->
    Sorted b64_le (angleTrace angle (pieLayout color totalSize angle entries)).
Proof.
  unfold angleTrace.
  induction 1 as [|entry rest Harc _ IH]; intros angle Hangle;
    cbn [pieLayout map slice_end fst snd].
  - repeat constructor.
  - destruct (SFadd_mono angle (arcOf totalSize entry) Hangle
                (arcOf_pos_ok _ _ Harc)) as [Hnext Hle].
    constructor.
    + apply IH. now apply pos_ok_nonneg_ok.
    + constructor. exact Hle.
Qed.

Lemma slices_by_signed_size_and_zero_rows_hidden_witness :
  let node := directory [("t", -300); ("r", 100); ("b", 0)] in
  exists (card' : Card binary64) (angle : binary64),
    _updateInfocard (num := binary64) no_format KiB color_of_type
      [("diff_mode", "on")]
      node fresh_page = Ok (card', angle) /\
    slicesOf (canvas card') =
      [(of_int 0, S754_finite false 7074237752028440 (-52), "r");
       (S754_finite false 7074237752028440 (-52), b64_2_PI, "t")] /\
    ~ In "b" (tableBody card').
Proof.
  intros node.
  assert (Hknown : knownTypes node) by (now apply knownTypes_check).
  assert (Hdistinct : distinctTypes node).
  { unfold distinctTypes. cbn.
    repeat constructor; cbn; intuition discriminate. }
  destruct (slices_by_signed_size_and_zero_rows_hidden (num := binary64)
              no_format KiB color_of_type [("diff_mode", "on")]
              node fresh_page Hknown Hdistinct)
    as (_ & _ & card' & angle & Hrun & Hslices & Hrows).
  exists card', angle. split; [exact Hrun|]. split.
  - rewrite Hslices. reflexivity.
  - apply (Hrows "b" (statsOf 0)); [|reflexivity].
    cbn. tauto.
Defined.

(** Claim C5, as stated, fails: when a type shrank by 300 bytes and
    another grew by 100, the slice of the one that grew is placed first,
    although its absolute size is the smaller. *)
Lemma slices_not_by_absolute_size :
  let node := directory [("t", -300); ("r", 100)] in
  exists (card' : Card binary64) (angle : binary64),
    _updateInfocard (num := binary64) no_format KiB color_of_type
      [("diff_mode", "on")]
      node fresh_page = Ok (card', angle) /\
    map slice_color (slicesOf (canvas card')) = ["r"; "t"] /\
    statsEntriesOf node = [("r", statsOf 100); ("t", statsOf (-300))] /\
    ~ StronglySorted
        (fun a b => Z.abs (Stats.size (snd b)) <= Z.abs (Stats.size (snd a)))
        (statsEntriesOf node).
Proof.
  cbn zeta. eexists. eexists.
  split; [vm_compute; reflexivity|].
  split; [reflexivity|]. split; [reflexivity|].
  intros Hsorted. cbn in Hsorted.
  apply StronglySorted_inv in Hsorted as [_ Hhead].
  apply Forall_inv in Hhead. cbn in Hhead. lia.
Qed.

(** Claim C7, as stated, fails on binary64: with sizes 9 and 2 the two
    arcs, each rounded, add up to the double just above [2 * Math.PI];
    [angleStart] ends there.  (That double also lies above the real number
    2 pi, which is [7074237752028440.27... * 2^-50].) *)
Lemma angle_exceeds_two_pi_in_binary64 :
  let node := directory [("t", 9); ("r", 2)] in
  exists card' : Card binary64,
    _updateInfocard (num := binary64) no_format KiB color_of_type [] node
      fresh_page =
      Ok (card', b64_above_2_PI) /\
    map slice_end (slicesOf (canvas card')) =
      [S754_finite false 5788012706205088 (-50); b64_above_2_PI] /\
    num_gt b64_above_2_PI (num_mul (of_int 2) Math_PI) = true.
Proof.
  cbn zeta. eexists.
  split; [vm_compute; reflexivity|].
  split; reflexivity.
Qed.

(** ** Exact arithmetic: the real numbers *)

Section Exact.

Variable toLocaleString : R -> LocaleOptions -> string.
Variable _BYTE_UNITS : string -> R.
Variable getIconStyle_color : string -> string.
Variable state : URLSearchParams.

Lemma totalSizeOf_sumAbs (entries : list (string * Stats.t)) :
  totalSizeOf entries = sumAbs entries.
Proof.
  unfold totalSizeOf.
  enough (Hacc : forall acc,
    fold_left (fun totalSize e => totalSize + Z.abs (Stats.size (snd e)))
      entries acc = acc + sumAbs entries) by (now rewrite Hacc).
  induction entries as [|e entries IH]; intros acc;
    cbn [fold_left sumAbs fold_right]; [lia|].
  rewrite IH. unfold sumAbs. lia.
Qed.

Lemma sumAbs_nonneg (entries : list (string * Stats.t)) : 0 <= sumAbs entries.
Proof.
  induction entries as [|e entries IH]; cbn [sumAbs fold_right]; [lia|].
  unfold sumAbs in IH. lia.
Qed.

Lemma arcOf_exact (totalSize : Z) (e : string * Stats.t) :
  0 <= totalSize ->
  arcOf totalSize e =
  (IZR (Z.abs (Stats.size (snd e))) * / IZR totalSize * 2 * PI)%R.
Proof.
  intros Htotal. unfold arcOf, arcLengthOf, percentageOf.
  cbn [num_mul num_abs num_div of_int Math_PI real_number].
  unfold Rdiv. rewrite Rabs_mult, Rabs_inv, <- !abs_IZR.
  now rewrite (Z.abs_eq totalSize).
Qed.

Lemma arcOf_nonneg (totalSize : Z) (e : string * Stats.t) :
  (0 <= arcOf totalSize e)%R.
Proof.
  unfold arcOf, arcLengthOf.
  cbn [num_mul num_abs of_int Math_PI real_number].
  pose proof PI_RGT_0 as Hpi.
  pose proof (Rabs_pos (percentageOf totalSize (snd e))) as Habs.
  apply Rmult_le_pos; [apply Rmult_le_pos|]; lra.
Qed.

Lemma hasArc_exact (totalSize : Z) (e : string * Stats.t) :
  hasArc totalSize e = true <-> (0 < arcOf totalSize e)%R.
Proof.
  unfold hasArc. cbn [num_gt of_int real_number].
  destruct (Rlt_dec 0 (arcOf totalSize e)); split;
    intros; try assumption; try reflexivity; try discriminate.
  contradiction.
Qed.

Lemma sumArc_nonneg (totalSize : Z) (entries : list (string * Stats.t)) :
  (0 <= sumArc totalSize entries)%R.
Proof.
  induction entries as [|e entries IH]; cbn [sumArc fold_right]; [lra|].
  pose proof (arcOf_nonneg totalSize e). unfold sumArc in IH. lra.
Qed.

(** The entries that are not drawn have no arc. *)
Lemma sumArc_drawn (totalSize : Z) (entries : list (string * Stats.t)) :
  sumArc totalSize (filter (hasArc totalSize) entries) =
  sumArc totalSize entries.
Proof.
  induction entries as [|e entries IH]; cbn [filter sumArc fold_right];
    [reflexivity|].
  unfold sumArc in IH.
  destruct (hasArc totalSize e) eqn:Harc; cbn [fold_right]; rewrite IH;
    [reflexivity|].
  pose proof (arcOf_nonneg totalSize e) as Hge.
  assert (~ (0 < arcOf totalSize e)%R) as Hle.
  { rewrite <- hasArc_exact. congruence. }
  lra.
Qed.

Lemma sumArc_exact (totalSize : Z) (entries : list (string * Stats.t)) :
  0 <= totalSize ->
  sumArc totalSize entries =
  (IZR (sumAbs entries) * / IZR totalSize * 2 * PI)%R.
Proof.
  intros Htotal.
  induction entries as [|e entries IH]; cbn [sumArc sumAbs fold_right].
  - lra.
  - unfold sumArc, sumAbs in IH. rewrite IH, arcOf_exact by assumption.
    rewrite plus_IZR. lra.
Qed.

(** All the arcs together make a full turn, or nothing when every size is
    zero. *)
Lemma sumArc_all (entries : list (string * Stats.t)) :
  (0 < sumAbs entries ->
   sumArc (sumAbs entries) entries = (2 * PI)%R) /\
  (sumAbs entries = 0 -> sumArc (sumAbs entries) entries = 0%R).
Proof.
  pose proof (sumAbs_nonneg entries) as Hge.
  rewrite sumArc_exact by assumption. split.
  - intros Hpos. apply IZR_lt in Hpos.
    rewrite Rinv_r by lra. lra.
  - intros ->. lra.
Qed.

Lemma layoutEnd_sumArc (totalSize : Z) (entries : list (string * Stats.t)) :
  forall angle,
    layoutEnd totalSize angle entries =
    (angle + sumArc totalSize entries)%R.
Proof.
  unfold layoutEnd.
  induction entries as [|e entries IH]; intros angle;
    cbn [fold_left sumArc fold_right]; [lra|].
  rewrite IH. cbn [num_add real_number]. unfold sumArc. lra.
Qed.

(** With a size that is not zero, the layout of the drawn entries ends
    after a full turn. *)
Lemma layoutEnd_full_turn (entries : list (string * Stats.t)) :
  0 < totalSizeOf entries ->
  layoutEnd (totalSizeOf entries) 0%R
    (filter (hasArc (totalSizeOf entries)) entries) = (2 * PI)%R.
Proof.
  intros Hpos. rewrite layoutEnd_sumArc, sumArc_drawn.
  rewrite totalSizeOf_sumAbs in *.
  rewrite (proj1 (sumArc_all entries) Hpos). lra.
Qed.

(** The arcs of the drawn entries never add up to more than a full
    turn. *)
Lemma sumArc_drawn_le_full_turn (entries : list (string * Stats.t)) :
  (sumArc (totalSizeOf entries)
     (filter (hasArc (totalSizeOf entries)) entries) <= 2 * PI)%R.
Proof.
  rewrite sumArc_drawn, totalSizeOf_sumAbs.
  pose proof (sumAbs_nonneg entries) as Hge.
  pose proof PI_RGT_0 as Hpi.
  destruct (sumArc_all entries) as [Hfull Hnone].
  destruct (Z.eq_dec (sumAbs entries) 0) as [Hzero | Hpos].
  - rewrite (Hnone Hzero). lra.
  - rewrite Hfull by lia. lra.
Qed.

Lemma angleTrace_sorted (totalSize : Z) (entries : list (string * Stats.t)) :
  forall angle,
    Sorted Rle
      (angleTrace angle
         (pieLayout getIconStyle_color totalSize angle entries)).
Proof.
  unfold angleTrace.
  induction entries as [|e entries IH]; intros angle;
    cbn [pieLayout map slice_end fst snd].
  - repeat constructor.
  - constructor; [apply IH|]. constructor.
    cbn [num_add real_number].
    pose proof (arcOf_nonneg totalSize e). lra.
Qed.

Lemma angleTrace_bounded (totalSize : Z) (entries : list (string * Stats.t)) :
  forall angle,
    Forall (fun a => angle <= a <= angle + sumArc totalSize entries)%R
      (angleTrace angle
         (pieLayout getIconStyle_color totalSize angle entries)).
Proof.
  unfold angleTrace.
  induction entries as [|e entries IH]; intros angle;
    cbn [pieLayout map slice_end fst snd sumArc fold_right].
  - repeat constructor; lra.
  - pose proof (arcOf_nonneg totalSize e) as He.
    pose proof (sumArc_nonneg totalSize entries) as Hrest.
    unfold sumArc in Hrest.
    constructor; [lra|].
    eapply Forall_impl; [|apply IH].
    cbn [num_add real_number]. unfold sumArc. intros a Ha. lra.
Qed.

End Exact.

(** Every slice starts where [angleStart] stood, and [angleStart] ends
    where the layout ends: holds for any kind of number. *)
Lemma angleTrace_starts {num : Type} `{JsNumber num}
  (color : string -> string) (totalSize : Z)
  (entries : list (string * Stats.t)) :
  forall angle : num,
    map slice_start (pieLayout color totalSize angle entries) ++
    [layoutEnd totalSize angle entries] =
    angleTrace angle (pieLayout color totalSize angle entries).
Proof.
  unfold angleTrace, layoutEnd.
  induction entries as [|e entries IH]; intros angle;
    cbn [pieLayout map slice_start slice_end fst snd fold_left app].
  - reflexivity.
  - f_equal. apply IH.
Qed.

(** Claim C7, as amended.  For a node whose types all have a row,
    [angleStart] begins at 0, every slice starts where [angleStart] stood and
    moves it to its end, and the values it takes never decrease: this holds in
    binary64, the arithmetic of the program, and in exact arithmetic.  In
    exact arithmetic the values stay within [0, 2 pi], and [angleStart] ends
    at exactly 2 pi as soon as one size is not zero. *)
Theorem angle_monotone_and_within_full_turn
  (getIconStyle_color : string -> string) (state : URLSearchParams)
  (node : TreeNode) :
  knownTypes node ->
  (forall (toLocaleString : binary64 -> LocaleOptions -> string)
          (_BYTE_UNITS : string -> binary64) (this : Card binary64),
   exists (card' : Card binary64) (angle : binary64)
          (slices : list (@Slice binary64)),
     _updateInfocard toLocaleString _BYTE_UNITS getIconStyle_color state
       node this = Ok (card', angle) /\
     slicesOf (canvas card') = slicesOf (canvas this) ++ slices /\
     map slice_start slices ++ [angle] = angleTrace (of_int 0) slices /\
     Sorted b64_le (angleTrace (of_int 0) slices)) /\
  (forall (toLocaleString : R -> LocaleOptions -> string)
          (_BYTE_UNITS : string -> R) (this : Card R),
   exists (card' : Card R) (angle : R) (slices : list (@Slice R)),
     _updateInfocard toLocaleString _BYTE_UNITS getIconStyle_color state
       node this = Ok (card', angle) /\
     slicesOf (canvas card') = slicesOf (canvas this) ++ slices /\
     map slice_start slices ++ [angle] = angleTrace 0%R slices /\
     StronglySorted Rle (angleTrace 0%R slices) /\
     Forall (fun a => (0 <= a <= 2 * PI)%R) (angleTrace 0%R slices) /\
     (0 < totalSizeOf (statsEntriesOf node) -> angle = (2 * PI)%R)).
Proof.
  intros Hknown. split; intros toLocaleString _BYTE_UNITS this;
    destruct (_updateInfocard_known toLocaleString _BYTE_UNITS
                getIconStyle_color state node this Hknown)
      as (card' & angle & Hrun & Hupd);
    destruct Hupd as [Hangle _ Hslices _ _ _];
    set (totalSize := totalSizeOf (statsEntriesOf node)) in *;
    set (drawn := filter (hasArc totalSize) (statsEntriesOf node)) in *;
    exists card', angle,
      (pieLayout getIconStyle_color totalSize (of_int 0) drawn);
    (split; [exact Hrun|]); (split; [exact Hslices|]);
    (split; [rewrite Hangle; apply angleTrace_starts|]).
  - apply b64_trace_sorted; [|reflexivity].
    apply Forall_forall. intros entry Hin.
    now apply filter_In in Hin.
  - split; [|split].
    + apply Sorted_StronglySorted; [exact Rle_trans|].
      apply angleTrace_sorted.
    + pose proof (sumArc_drawn_le_full_turn (statsEntriesOf node)) as Hle.
      eapply Forall_impl;
        [|apply (angleTrace_bounded getIconStyle_color totalSize drawn 0%R)].
      cbn beta. fold totalSize drawn in Hle. intros a Ha. lra.
    + intros Hpos. rewrite Hangle. now apply layoutEnd_full_turn.
Qed.

Lemma angle_monotone_and_within_full_turn_witness :
  let node := directory [("t", 300); ("r", 100)] in
  (exists (card' : Card binary64) (angle : binary64)
          (slices : list (@Slice binary64)),
     _updateInfocard (num := binary64) no_format KiB color_of_type [] node
       fresh_page = Ok (card', angle) /\
     slicesOf (canvas card') = slices /\
     Sorted b64_le (angleTrace (of_int 0) slices)) /\
  (exists (card' : Card R) (angle : R) (slices : list (@Slice R)),
     _updateInfocard (num := R) no_format KiB color_of_type [] node
       fresh_page = Ok (card', angle) /\
     slicesOf (canvas card') = slices /\
     Forall (fun a => (0 <= a <= 2 * PI)%R) (angleTrace 0%R slices) /\
     angle = (2 * PI)%R).
Proof.
  intros node.
  assert (Hknown : knownTypes node) by (now apply knownTypes_check).
  destruct (angle_monotone_and_within_full_turn color_of_type [] node Hknown)
    as [Hb64 Hexact].
  split.
  - destruct (Hb64 no_format KiB fresh_page)
      as (card' & angle & slices & Hrun & Hslices & _ & Hsorted).
    exists card', angle, slices.
    split; [exact Hrun|]. split; [exact Hslices | exact Hsorted].
  - destruct (Hexact no_format KiB fresh_page)
      as (card' & angle & slices & Hrun & Hslices & _ & _ & Hbound & Hfull).
    exists card', angle, slices.
    split; [exact Hrun|]. split; [exact Hslices|].
    split; [exact Hbound|]. apply Hfull. reflexivity.
Defined.

(** Claim C6.  With [childStats = {t: {size: 300, count: 1},
    r: {size: 100, count: 1}}] the percentages computed in binary64 are
    exactly 0.75 and 0.25 (they are what the percent cells of the rows [t] and
    [r] show), the two slices run from 0 to [1.5 * Math.PI] and from there to
    [2 * Math.PI], and [angleStart] ends at exactly [2 * Math.PI].  In exact
    arithmetic the percentages are 3/4 and 1/4 and [angleStart] ends at
    2 pi. *)
Theorem percentages_and_full_turn
  (toLocaleString : binary64 -> LocaleOptions -> string)
  (_BYTE_UNITS : string -> binary64) (getIconStyle_color : string -> string)
  (state : URLSearchParams) (size : Z) (type : string)
  (this : Card binary64) :
  let node :=
    {| Tree.size := size; Tree.type := type;
       childStats := [("t", {| Stats.size := 300; Stats.count := 1 |});
                      ("r", {| Stats.size := 100; Stats.count := 1 |})] |} in
  totalSizeOf (statsEntriesOf node) = 400 /\
  percentageOf 400 {| Stats.size := 300; Stats.count := 1 |} = b64_0_75 /\
  percentageOf 400 {| Stats.size := 100; Stats.count := 1 |} = b64_0_25 /\
  4 * 6755399441055744 = 3 * 2 ^ 53 /\
  4 * 4503599627370496 = 1 * 2 ^ 54 /\
  num_mul (of_int 2) Math_PI = b64_2_PI /\
  (exists card',
     _updateInfocard toLocaleString _BYTE_UNITS getIconStyle_color state
       node this = Ok (card', b64_2_PI) /\
     percentColumn (rowText card' "t") =
       toLocaleString b64_0_75 percentOptions /\
     percentColumn (rowText card' "r") =
       toLocaleString b64_0_25 percentOptions /\
     slicesOf (canvas card') =
       slicesOf (canvas this) ++
       [(of_int 0, b64_3_PI_2, getIconStyle_color "t");
        (b64_3_PI_2, b64_2_PI, getIconStyle_color "r")]) /\
  percentageOf 400 {| Stats.size := 300; Stats.count := 1 |} = (3 / 4)%R /\
  percentageOf 400 {| Stats.size := 100; Stats.count := 1 |} = (1 / 4)%R /\
  forall (toLocaleStringR : R -> LocaleOptions -> string)
         (_BYTE_UNITS_R : string -> R) (thisR : Card R),
  exists card',
    _updateInfocard toLocaleStringR _BYTE_UNITS_R getIconStyle_color state
      node thisR = Ok (card', (2 * PI)%R).
Proof.
  intros node.
  repeat (split; [reflexivity|]).
  assert (Hknown : knownTypes node) by (now apply knownTypes_check).
  assert (Hdistinct : distinctTypes node).
  { unfold distinctTypes. cbn.
    repeat constructor; cbn; intuition discriminate. }
  split; [|split; [|split]].
  - destruct (_updateInfocard_known toLocaleString _BYTE_UNITS
                getIconStyle_color state node this Hknown)
      as (card' & angle & Hrun & Hupd).
    destruct Hupd. exists card'.
    split; [rewrite Hrun, upd_angle0; reflexivity|].
    split; [|split].
    + now rewrite (upd_rowText_shown0 Hdistinct "t"
                     {| Stats.size := 300; Stats.count := 1 |})
        by (cbn; intuition discriminate).
    + now rewrite (upd_rowText_shown0 Hdistinct "r"
                     {| Stats.size := 100; Stats.count := 1 |})
        by (cbn; intuition discriminate).
    + rewrite upd_slices0. reflexivity.
  - unfold percentageOf. cbn. lra.
  - unfold percentageOf. cbn. lra.
  - intros toLocaleStringR _BYTE_UNITS_R thisR.
    destruct (_updateInfocard_known toLocaleStringR _BYTE_UNITS_R
                getIconStyle_color state node thisR Hknown)
      as (card' & angle & Hrun & Hupd).
    destruct Hupd as [Hangle _ _ _ _ _]. exists card'.
    rewrite Hrun, Hangle. do 2 f_equal.
    apply layoutEnd_full_turn. reflexivity.
Qed.

End InfocardProps.

(* ================================================================== *)
(** * Further properties of the report stream transformer *)
(* ================================================================== *)

Module TravisExtra.
Import Travis TravisSpec TravisSamples TravisExtraSpec TravisProps.

(** ** [basename] *)

(** Property X1.  The name [basename] returns holds no ['/'], so taking the
    [basename] again changes nothing; and the [basename] of a path that ends
    in ['/'] is empty. *)
Theorem basename_is_a_segment (path : string) :
  occurs "/"%char (basename path) = false /\
  basename (basename path) = basename path /\
  basename (path ++ "/")%string = EmptyString.
Proof.
  assert (Hseg : occurs "/"%char (basename path) = false).
  { destruct (basename_last_segment path) as [[Hno ->] | (pre & _ & Hno)];
      assumption. }
  split; [exact Hseg|]. split.
  - now apply basename_no_slash.
  - now apply (basename_after_last path EmptyString).
Qed.

(** ** [setInput] *)

Lemma split_nonempty (c : ascii) (s : string) : split c s <> [].
Proof.
  destruct s as [|a s']; cbn [split]; [discriminate|].
  destruct (Ascii.eqb a c); [discriminate|].
  destruct (split c s'); discriminate.
Qed.

Lemma join_cons (c : ascii) (w : string) (ws : list string) :
  ws <> [] -> join c (w :: ws) = (w ++ String c (join c ws))%string.
Proof. destruct ws; [contradiction | reflexivity]. Qed.

Lemma join_split (c : ascii) (s : string) : join c (split c s) = s.
Proof.
  induction s as [|a s' IH]; [reflexivity|].
  cbn [split]. destruct (Ascii.eqb a c) eqn:Hac.
  - apply Ascii.eqb_eq in Hac as ->.
    rewrite join_cons by apply split_nonempty. now rewrite IH.
  - pose proof (split_nonempty c s') as Hne.
    destruct (split c s') as [|w ws]; [contradiction|].
    destruct ws as [|w' ws].
    + cbn [join] in *. now rewrite IH.
    + rewrite join_cons in * by discriminate.
      rewrite <- IH. reflexivity.
Qed.

Lemma split_parts_no_sep (c : ascii) (s : string) :
  Forall (fun w => occurs c w = false) (split c s).
Proof.
  induction s as [|a s' IH]; cbn [split].
  - repeat constructor.
  - destruct (Ascii.eqb a c) eqn:Hac.
    + constructor; [reflexivity | exact IH].
    + pose proof (split_nonempty c s') as Hne.
      destruct (split c s') as [|w ws]; [contradiction|].
      apply Forall_cons_iff in IH as [Hw Hws].
      constructor; [|exact Hws]. cbn [occurs]. now rewrite Hac.
Qed.

Lemma split_no_sep (c : ascii) (s : string) :
  occurs c s = false -> split c s = [s].
Proof.
  induction s as [|a s' IH]; [reflexivity|].
  cbn [occurs split]. intros Hocc.
  apply orb_false_iff in Hocc as [Hac Hs']. rewrite Hac, IH by assumption.
  reflexivity.
Qed.

Lemma split_at_sep (c : ascii) (u r : string) :
  occurs c u = false ->
  split c (u ++ String c r)%string = u :: split c r.
Proof.
  induction u as [|a u' IH]; cbn [occurs String.append split].
  - intros _. now rewrite Ascii.eqb_refl.
  - intros Hocc. apply orb_false_iff in Hocc as [Hac Hu'].
    now rewrite Hac, IH.
Qed.

(** Property X2.  [setInput] loses nothing: its parts hold no ['/'], there
    is at least one, and joined by ['/'] they give the input back. *)
Theorem setInput_join (input : string) :
  join "/"%char (setInput input) = input /\
  Forall (fun part => occurs "/"%char part = false) (setInput input) /\
  setInput input <> [].
Proof.
  unfold setInput. split; [apply join_split|].
  split; [apply split_parts_no_sep | apply split_nonempty].
Qed.

Section Transform.

Variable _CODE_SYMBOL_TYPE : string.

Section Fetcher.

Variable BuildInfo : Type.
Variable getBuildInfo :
  option string -> option string -> string -> Z ->
  Result (list (option BuildInfo)).
Variable getChanges : BuildInfo -> BuildInfo -> Result BuildChanges.

(** Property X3.  For an input [user/repo] (neither part holding a ['/'])
    the first thing the stream does is ask [getBuildInfo] for the two latest
    builds of [user], [repo] on "master"; for an input without ['/'] the
    repository it asks for is [undefined]. *)
Theorem stream_asks_for_user_repo (user repo : string) :
  occurs "/"%char user = false ->
  occurs "/"%char repo = false ->
  setInput (user ++ String "/"%char repo)%string = [user; repo] /\
  (exists later,
     calls _
       (newlineDelimtedJsonStream _CODE_SYMBOL_TYPE BuildInfo getBuildInfo
          getChanges (setInput (user ++ String "/"%char repo)%string)) =
     CallGetBuildInfo _ (Some user) (Some repo) "master" 2 :: later) /\
  (exists later,
     calls _
       (newlineDelimtedJsonStream _CODE_SYMBOL_TYPE BuildInfo getBuildInfo
          getChanges (setInput user)) =
     CallGetBuildInfo _ (Some user) None "master" 2 :: later).
Proof.
  intros Huser Hrepo.
  assert (Hsplit : setInput (user ++ String "/"%char repo)%string =
                   [user; repo]).
  { unfold setInput. now rewrite split_at_sep, split_no_sep. }
  assert (Hone : setInput user = [user])
    by (unfold setInput; now rewrite split_no_sep).
  split; [exact Hsplit|].
  split; [rewrite Hsplit | rewrite Hone];
    unfold newlineDelimtedJsonStream; cbn [nth_error];
    match goal with
    | |- context [getBuildInfo ?u ?r ?b ?n] =>
        destruct (getBuildInfo u r b n) as [infos|e]
    end;
    try (eexists; reflexivity);
    destruct (List.nth 1 infos None) as [previous|];
    try (eexists; reflexivity);
    destruct (List.nth 0 infos None) as [current|];
    try (eexists; reflexivity);
    destruct (getChanges previous current) as [changes|e];
    try (eexists; reflexivity);
    destruct (transformChanges _CODE_SYMBOL_TYPE changes);
    eexists; reflexivity.
Qed.

(** Property X4.  The stream never emits a partial report: a run that ends
    with an exception has yielded nothing, and a run that ends normally has
    yielded the header of some comparison followed by exactly [total]
    records. *)
Theorem stream_all_or_nothing (_input : list string) :
  let run :=
    newlineDelimtedJsonStream _CODE_SYMBOL_TYPE BuildInfo getBuildInfo
      getChanges _input in
  match thrown _ run with
  | Some _ => yielded _ run = []
  | None =>
      exists changes meta entries,
        transformChanges _CODE_SYMBOL_TYPE changes = (meta, entries) /\
        yielded _ run = YMeta meta :: map YEntry entries /\
        Z.of_nat (List.length entries) = total meta
  end.
Proof.
  cbn zeta. unfold newlineDelimtedJsonStream.
  destruct (getBuildInfo (nth_error _input 0) (nth_error _input 1)
              "master" 2) as [infos|e]; [|reflexivity].
  destruct (List.nth 1 infos None) as [previous|]; [|reflexivity].
  destruct (List.nth 0 infos None) as [current|]; [|reflexivity].
  destruct (getChanges previous current) as [changes|e]; [|reflexivity].
  pose proof (transformChanges_length _CODE_SYMBOL_TYPE changes) as Hlen.
  destruct (transformChanges _CODE_SYMBOL_TYPE changes)
    as [meta entries] eqn:Htc.
  cbn [thrown yielded]. exists changes, meta, entries.
  rewrite Htc. now repeat split.
Qed.

(** Property X5.  Failures of the collaborators reach the caller as they
    are: when [getBuildInfo] rejects, the stream throws that very error and
    never calls [getChanges]; when both builds are there and [getChanges]
    rejects, it throws that error after the two calls, [getChanges] having
    been given the previous build (the second element) first.  When only the
    current build is missing, the error says so. *)
Theorem stream_failures (_input : list string) :
  let run :=
    newlineDelimtedJsonStream _CODE_SYMBOL_TYPE BuildInfo getBuildInfo
      getChanges _input in
  let call1 :=
    CallGetBuildInfo BuildInfo (nth_error _input 0) (nth_error _input 1)
      "master" 2 in
  (forall e,
     getBuildInfo (nth_error _input 0) (nth_error _input 1) "master" 2 =
       Throw e ->
     thrown _ run = Some e /\ calls _ run = [call1]) /\
  (forall current previous more e,
     getBuildInfo (nth_error _input 0) (nth_error _input 1) "master" 2 =
       Ok (Some current :: Some previous :: more) ->
     getChanges previous current = Throw e ->
     thrown _ run = Some e /\
     calls _ run = [call1; CallGetChanges _ previous current]) /\
  (forall previous more,
     getBuildInfo (nth_error _input 0) (nth_error _input 1) "master" 2 =
       Ok (None :: Some previous :: more) ->
     thrown _ run = Some (Error "Couldn't find current build info") /\
     calls _ run = [call1]).
Proof.
  cbn zeta. unfold newlineDelimtedJsonStream.
  split; [|split].
  - intros e ->. now split.
  - intros current previous more e -> . cbn [List.nth]. intros ->.
    now split.
  - intros previous more ->. now split.
Qed.

End Fetcher.

(** ** The totals of a report *)

Lemma sum_over_app (field : SymbolEntry -> Z) (xs ys : list FileEntry) :
  sum_over field (xs ++ ys) = sum_over field xs + sum_over field ys.
Proof.
  unfold sum_over. induction xs as [|x xs IH]; cbn [app fold_right]; lia.
Qed.

Lemma sum_over_map {A : Type} (field : SymbolEntry -> Z)
  (entry : A -> FileEntry) (value : A -> Z) (items : list A) :
  (forall x, fold_right (fun sym a => field sym + a) 0 (s (entry x)) =
             value x) ->
  sum_over field (map entry items) =
  fold_right (fun x acc => value x + acc) 0 items.
Proof.
  intros Hentry. unfold sum_over.
  induction items as [|x items IH]; cbn [map fold_right]; [reflexivity|].
  now rewrite Hentry, IH.
Qed.

Lemma sum_size_changed (items : list (FileData * FileData)) :
  fold_right (fun x acc => size (snd x) - size (fst x) + acc) 0 items =
  sum_size (map snd items) - sum_size (map fst items).
Proof.
  unfold sum_size.
  induction items as [|x items IH]; cbn [map fold_right]; lia.
Qed.

Lemma sum_gzipSize_changed (items : list (FileData * FileData)) :
  fold_right (fun x acc => gzipSize (snd x) - gzipSize (fst x) + acc) 0
    items =
  sum_gzipSize (map snd items) - sum_gzipSize (map fst items).
Proof.
  unfold sum_gzipSize.
  induction items as [|x items IH]; cbn [map fold_right]; lia.
Qed.

Lemma fold_right_opp (value : FileData -> Z) (items : list FileData) :
  fold_right (fun x acc => - value x + acc) 0 items =
  - fold_right (fun x acc => value x + acc) 0 items.
Proof. induction items as [|x items IH]; cbn [fold_right]; lia. Qed.

Lemma fold_right_const {A : Type} (c : Z) (items : list A) :
  fold_right (fun _ acc => c + acc) 0 items =
  c * Z.of_nat (List.length items).
Proof.
  induction items as [|x items IH]; cbn [fold_right List.length]; lia.
Qed.

(** Property X6.  The deltas of a report add up to the difference between
    the two builds: the sum of all [b] is the size of the current build (its
    new, unchanged and changed files) minus the size of the previous one (its
    deleted, unchanged and formerly changed files), the sum of all [g] is the
    same for the compressed sizes, and the sum of all [u] counts every record
    once, the deleted ones negatively. *)
Theorem report_totals (changes : BuildChanges) :
  let entries := snd (transformChanges _CODE_SYMBOL_TYPE changes) in
  let current :=
    newItems changes ++ sameItems changes ++
    map snd (changedItems changes) in
  let previous :=
    deletedItems changes ++ sameItems changes ++
    map fst (changedItems changes) in
  sum_over b entries = sum_size current - sum_size previous /\
  sum_over g entries = sum_gzipSize current - sum_gzipSize previous /\
  sum_over u entries =
    Z.of_nat (List.length (newItems changes))
    - Z.of_nat (List.length (deletedItems changes))
    + Z.of_nat (List.length (sameItems changes))
    + Z.of_nat (List.length (changedItems changes)).
Proof.
  cbn zeta. rewrite transformChanges_entries, !sum_over_app.
  assert (Hsize : forall xs ys, sum_size (xs ++ ys) = sum_size xs + sum_size ys).
  { intros xs ys. unfold sum_size.
    induction xs; cbn [app fold_right]; lia. }
  assert (Hgzip : forall xs ys,
    sum_gzipSize (xs ++ ys) = sum_gzipSize xs + sum_gzipSize ys).
  { intros xs ys. unfold sum_gzipSize.
    induction xs; cbn [app fold_right]; lia. }
  rewrite !Hsize, !Hgzip.
  split; [|split].
  - rewrite (sum_over_map b _ size) by (intros; cbn; lia).
    rewrite (sum_over_map b _ (fun f => - size f)) by (intros; cbn; lia).
    rewrite (sum_over_map b _ (fun _ => 0)) by (intros; cbn; lia).
    rewrite (sum_over_map b _ (fun x => size (snd x) - size (fst x)))
      by (intros [? ?]; cbn; lia).
    rewrite fold_right_opp, fold_right_const, sum_size_changed.
    unfold sum_size. lia.
  - rewrite (sum_over_map g _ gzipSize) by (intros; cbn; lia).
    rewrite (sum_over_map g _ (fun f => - gzipSize f))
      by (intros; cbn; lia).
    rewrite (sum_over_map g _ (fun _ => 0)) by (intros; cbn; lia).
    rewrite (sum_over_map g _
               (fun x => gzipSize (snd x) - gzipSize (fst x)))
      by (intros [? ?]; cbn; lia).
    rewrite fold_right_opp, fold_right_const, sum_gzipSize_changed.
    unfold sum_gzipSize. lia.
  - rewrite (sum_over_map u _ (fun _ => 1)) by (intros; cbn; lia).
    rewrite (sum_over_map u _ (fun _ => -1)) by (intros; cbn; lia).
    rewrite (sum_over_map u _ (fun _ => 1)) by (intros; cbn; lia).
    rewrite (sum_over_map u _ (fun _ => 1)) by (intros [? ?]; cbn; lia).
    rewrite !fold_right_const. lia.
Qed.

End Transform.

Lemma stream_asks_for_user_repo_witness :
  setInput "NotWoods/travis-size-report" =
    ["NotWoods"; "travis-size-report"] /\
  (exists later,
     calls _
       (newlineDelimtedJsonStream "t" unit service_down compare_fails
          (setInput "NotWoods/travis-size-report")) =
     CallGetBuildInfo _ (Some "NotWoods") (Some "travis-size-report")
       "master" 2 :: later) /\
  (exists later,
     calls _
       (newlineDelimtedJsonStream "t" unit service_down compare_fails
          (setInput "NotWoods")) =
     CallGetBuildInfo _ (Some "NotWoods") None "master" 2 :: later).
Proof.
  exact (stream_asks_for_user_repo "t" unit service_down compare_fails
           "NotWoods" "travis-size-report" eq_refl eq_refl).
Defined.

End TravisExtra.

(* ================================================================== *)
(** * Further properties of the [state] chunk *)
(* ================================================================== *)

Module StateExtra.
Import State Form StateString Icons StateExtraSpec StateProps.

(** ** [state.set] and [state.get] *)

Lemma get_hd_getAll (ps : URLSearchParams) (key : string) :
  get ps key = hd_error (getAll ps key).
Proof.
  unfold getAll. induction ps as [|[k v] rest IH]; [reflexivity|].
  cbn [get filter fst]. destruct (String.eqb k key); [reflexivity|exact IH].
Qed.

Lemma has_getAll (ps : URLSearchParams) (key : string) :
  has ps key = negb (Nat.eqb (List.length (getAll ps key)) 0).
Proof.
  unfold has, getAll. induction ps as [|[k v] rest IH]; [reflexivity|].
  cbn [existsb filter fst]. destruct (String.eqb k key); [reflexivity|].
  exact IH.
Qed.

Lemma getAll_params_delete (ps : URLSearchParams) (key key' : string) :
  getAll (params_delete ps key) key' =
  if String.eqb key' key then [] else getAll ps key'.
Proof.
  unfold getAll, params_delete.
  induction ps as [|[k v] rest IH]; cbn [filter fst map].
  - now destruct (String.eqb key' key).
  - destruct (String.eqb k key) eqn:Hk; cbn [negb filter fst map].
    + apply String.eqb_eq in Hk as ->.
      destruct (String.eqb key' key) eqn:Hkey'; [exact IH|].
      rewrite String.eqb_sym, Hkey'. exact IH.
    + destruct (String.eqb k key') eqn:Hk'; cbn [map]; [|exact IH].
      apply String.eqb_eq in Hk' as ->. rewrite Hk in *.
      now rewrite IH.
Qed.

Lemma getAll_params_set (ps : URLSearchParams) (key value key' : string) :
  getAll (params_set ps key value) key' =
  if String.eqb key' key then [value] else getAll ps key'.
Proof.
  induction ps as [|[k v] rest IH]; cbn [params_set].
  - unfold getAll. cbn [filter fst map].
    rewrite (String.eqb_sym key key').
    now destruct (String.eqb key' key).
  - destruct (String.eqb k key) eqn:Hk.
    + apply String.eqb_eq in Hk as ->.
      change (getAll ((key, value) :: params_delete rest key) key')
        with (map snd
                (if String.eqb key key'
                 then (key, value) ::
                      filter (fun kv => String.eqb (fst kv) key')
                        (params_delete rest key)
                 else filter (fun kv => String.eqb (fst kv) key')
                        (params_delete rest key))).
      change (getAll ((key, v) :: rest) key')
        with (map snd
                (if String.eqb key key'
                 then (key, v) ::
                      filter (fun kv => String.eqb (fst kv) key') rest
                 else filter (fun kv => String.eqb (fst kv) key') rest)).
      pose proof (getAll_params_delete rest key key') as Hdel.
      unfold getAll in Hdel.
      rewrite (String.eqb_sym key key').
      destruct (String.eqb key' key); cbn [map snd]; rewrite Hdel;
        reflexivity.
    + change (getAll ((k, v) :: params_set rest key value) key')
        with (map snd
                (if String.eqb k key'
                 then (k, v) ::
                      filter (fun kv => String.eqb (fst kv) key')
                        (params_set rest key value)
                 else filter (fun kv => String.eqb (fst kv) key')
                        (params_set rest key value))).
      change (getAll ((k, v) :: rest) key')
        with (map snd
                (if String.eqb k key'
                 then (k, v) ::
                      filter (fun kv => String.eqb (fst kv) key') rest
                 else filter (fun kv => String.eqb (fst kv) key') rest)).
      unfold getAll in IH.
      destruct (String.eqb k key') eqn:Hk'; cbn [map snd].
      * apply String.eqb_eq in Hk' as ->. rewrite Hk in *.
        now rewrite IH.
      * exact IH.
Qed.

(** Property X7.  What [state.set] stores is what [state.get] returns, and
    it is then the only value under its key; after [state.set(key, null)] the
    key is gone; the values under every other key stay as they were. *)
Theorem state_set_get (_filterParams : URLSearchParams) (key value : string) :
  get (set _filterParams key (Some value)) key = Some value /\
  getAll (set _filterParams key (Some value)) key = [value] /\
  has (set _filterParams key (Some value)) key = true /\
  get (set _filterParams key None) key = None /\
  has (set _filterParams key None) key = false /\
  forall key' v,
    key' <> key ->
    getAll (set _filterParams key v) key' = getAll _filterParams key' /\
    get (set _filterParams key v) key' = get _filterParams key' /\
    has (set _filterParams key v) key' = has _filterParams key'.
Proof.
  cbn [set].
  rewrite !get_hd_getAll, !has_getAll, getAll_params_set,
    getAll_params_delete, String.eqb_refl.
  repeat (split; [reflexivity|]).
  intros key' v Hne. apply String.eqb_neq in Hne.
  rewrite !get_hd_getAll, !has_getAll.
  destruct v as [v|]; cbn [set];
    rewrite ?getAll_params_set, ?getAll_params_delete, Hne; now repeat split.
Qed.

(** ** The state read off the form *)

Lemma some_differs_false (modifiedValues defaultValues : list string) :
  forall i,
    some_differs modifiedValues i defaultValues = false <->
    forall j, (j < List.length modifiedValues)%nat ->
              nth_error defaultValues (i + j) = nth_error modifiedValues j.
Proof.
  induction modifiedValues as [|v rest IH]; intros i;
    cbn [some_differs List.length].
  - split; [intros _ j Hj; lia | reflexivity].
  - rewrite orb_false_iff, IH. split.
    + intros [Hhead Hrest] [|j] Hj.
      * rewrite Nat.add_0_r. cbn [nth_error].
        destruct (nth_error defaultValues i) as [d|]; [|discriminate].
        apply negb_false_iff, String.eqb_eq in Hhead. now subst.
      * replace (i + S j)%nat with (S i + j)%nat by lia.
        apply Hrest. lia.
    + intros Hall. split.
      * specialize (Hall 0%nat ltac:(lia)).
        rewrite Nat.add_0_r in Hall. cbn [nth_error] in Hall.
        rewrite Hall. apply negb_false_iff, String.eqb_refl.
      * intros j Hj. specialize (Hall (S j) ltac:(lia)).
        now replace (i + S j)%nat with (S i + j)%nat in Hall by lia.
Qed.

Lemma valuesChanged_false (modifiedValues defaultValues : list string) :
  valuesChanged modifiedValues defaultValues = false <->
  modifiedValues = defaultValues.
Proof.
  unfold valuesChanged.
  rewrite orb_false_iff, negb_false_iff, Nat.eqb_eq, some_differs_false.
  split.
  - intros [Hlen Hnth]. apply nth_error_ext. intros j.
    destruct (Nat.lt_ge_cases j (List.length modifiedValues)) as [Hlt | Hge].
    + symmetry. exact (Hnth j Hlt).
    + rewrite (proj2 (nth_error_None modifiedValues j)) by exact Hge.
      rewrite (proj2 (nth_error_None defaultValues j)) by lia.
      reflexivity.
  - intros ->. split; [reflexivity | intros j _; reflexivity].
Qed.

Lemma In_getAll (form : FormData) (key value : string) :
  In value (getAll form key) <-> In (key, value) form.
Proof.
  unfold getAll. rewrite in_map_iff. split.
  - intros ([k v] & <- & Hin). apply filter_In in Hin as [Hin Hk].
    cbn [fst snd] in *. now apply String.eqb_eq in Hk as ->.
  - intros Hin. exists (key, value). split; [reflexivity|].
    apply filter_In. split; [exact Hin | apply String.eqb_refl].
Qed.

(** Property X8.  The state read off the form holds an entry of the form
    exactly when the values of its field differ from the default ones; a form
    left at its defaults gives the empty state.  So a field that lost all its
    values (a group of checkboxes, all unchecked) leaves no trace, as no entry
    of the form carries its name. *)
Theorem changed_entries_only (_DEFAULT_FORM modifiedForm : FormData) :
  (forall key value,
     In (key, value) (_updateStateFromForm _DEFAULT_FORM modifiedForm) <->
     In (key, value) modifiedForm /\
     getAll modifiedForm key <> getAll _DEFAULT_FORM key) /\
  _updateStateFromForm _DEFAULT_FORM _DEFAULT_FORM = [] /\
  (forall key,
     getAll modifiedForm key = [] ->
     has (_updateStateFromForm _DEFAULT_FORM modifiedForm) key = false).
Proof.
  unfold _updateStateFromForm, onlyChangedEntries.
  assert (Hin : forall key value,
    In (key, value)
      (flat_map
         (fun key =>
            if valuesChanged (getAll modifiedForm key)
                 (getAll _DEFAULT_FORM key)
            then map (fun value => (key, value)) (getAll modifiedForm key)
            else []) (keys modifiedForm)) <->
    In (key, value) modifiedForm /\
    getAll modifiedForm key <> getAll _DEFAULT_FORM key).
  { intros key value. rewrite in_flat_map. split.
    - intros (k & Hk & Hin).
      destruct (valuesChanged (getAll modifiedForm k)
                  (getAll _DEFAULT_FORM k)) eqn:Hchanged;
        [|contradiction].
      apply in_map_iff in Hin as (v & [= <- <-] & Hv).
      split; [now apply In_getAll|].
      intros Heq. apply valuesChanged_false in Heq. congruence.
    - intros [Hin Hne]. exists key. split.
      + unfold keys. apply in_map_iff. now exists (key, value).
      + destruct (valuesChanged (getAll modifiedForm key)
                    (getAll _DEFAULT_FORM key)) eqn:Hchanged.
        * apply in_map_iff. exists value. split; [reflexivity|].
          now apply In_getAll.
        * apply valuesChanged_false in Hchanged. contradiction. }
  split; [exact Hin|]. split.
  - induction (keys _DEFAULT_FORM) as [|k ks IH]; [reflexivity|].
    cbn [flat_map]. rewrite IH, app_nil_r.
    now rewrite (proj2 (valuesChanged_false _ _) eq_refl).
  - intros key Hnone. unfold has.
    destruct (existsb _ _) eqn:Hex; [|reflexivity].
    apply existsb_exists in Hex as ([k v] & Hkv & Hk).
    cbn [fst] in Hk. apply String.eqb_eq in Hk as ->.
    apply Hin in Hkv as [Hkv _]. apply In_getAll in Hkv.
    rewrite Hnone in Hkv. contradiction.
Qed.

Lemma getAll_app (xs ys : list (string * string)) (key : string) :
  getAll (xs ++ ys) key = getAll xs key ++ getAll ys key.
Proof. unfold getAll. now rewrite filter_app, map_app. Qed.

Lemma getAll_pairs (k : string) (values : list string) (key : string) :
  getAll (map (fun value => (k, value)) values) key =
  if String.eqb k key then values else [].
Proof.
  unfold getAll. induction values as [|v values IH]; cbn [map filter fst].
  - now destruct (String.eqb k key).
  - destruct (String.eqb k key); cbn [map snd]; [now rewrite IH | exact IH].
Qed.

Lemma length_getAll_keys (form : FormData) (key : string) :
  List.length (getAll form key) =
  List.length (filter (fun k => String.eqb k key) (keys form)).
Proof.
  unfold getAll, keys. rewrite length_map.
  induction form as [|[k v] rest IH]; [reflexivity|].
  cbn [filter map fst]. destruct (String.eqb k key); cbn [List.length];
    now rewrite IH.
Qed.

(** Property X9.  [modifiedForm.keys()] names a field once per value, and
    each time all the values of a changed field are yielded: under a changed
    key the state holds the values of the field as many times over as the
    field has values, and nothing under an unchanged one. *)
Theorem changed_values_repeated (_DEFAULT_FORM modifiedForm : FormData)
  (key : string) :
  getAll (_updateStateFromForm _DEFAULT_FORM modifiedForm) key =
  if valuesChanged (getAll modifiedForm key) (getAll _DEFAULT_FORM key)
  then List.concat
         (repeat (getAll modifiedForm key)
            (List.length (getAll modifiedForm key)))
  else [].
Proof.
  unfold _updateStateFromForm, onlyChangedEntries.
  rewrite length_getAll_keys.
  induction (keys modifiedForm) as [|k ks IH]; cbn [flat_map filter].
  - now destruct (valuesChanged _ _).
  - rewrite getAll_app, IH. clear IH.
    destruct (String.eqb k key) eqn:Hk.
    + apply String.eqb_eq in Hk as ->.
      destruct (valuesChanged (getAll modifiedForm key)
                  (getAll _DEFAULT_FORM key)).
      * rewrite getAll_pairs, String.eqb_refl. reflexivity.
      * reflexivity.
    + destruct (valuesChanged (getAll modifiedForm k)
                  (getAll _DEFAULT_FORM k)).
      * rewrite getAll_pairs, Hk. reflexivity.
      * reflexivity.
Qed.

(** ** [state.toString] *)

Lemma In_unique (values : list string) (v : string) :
  In v (unique values) <-> In v values.
Proof.
  induction values as [|x rest IH]; cbn [unique In]; [tauto|].
  rewrite filter_In, IH, negb_true_iff, String.eqb_neq.
  destruct (String.eqb_spec v x); intuition congruence.
Qed.

Lemma NoDup_unique (values : list string) : NoDup (unique values).
Proof.
  induction values as [|x rest IH]; cbn [unique]; constructor.
  - rewrite filter_In, negb_true_iff, String.eqb_neq. tauto.
  - now apply NoDup_filter.
Qed.

(** Property X10.  In the query string the type key holds at most one
    value: the selected types, each once and in the order they were first
    selected, concatenated; without a selected type there is none.  The other
    keys are serialized as they are, and an empty serialization gives the
    empty string rather than a lone question mark. *)
Theorem toString_types (_TYPE_STATE_KEY : string)
  (serialize : URLSearchParams -> string)
  (_filterParams : URLSearchParams) :
  let types := getAll _filterParams _TYPE_STATE_KEY in
  let copy := normalised _TYPE_STATE_KEY _filterParams in
  NoDup (unique types) /\
  (forall type, In type (unique types) <-> In type types) /\
  getAll copy _TYPE_STATE_KEY =
    match types with
    | [] => []
    | _ :: _ => [join_empty (unique types)]
    end /\
  (forall key,
     key <> _TYPE_STATE_KEY ->
     getAll copy key = getAll _filterParams key) /\
  toString _TYPE_STATE_KEY serialize _filterParams =
    match serialize copy with
    | EmptyString => EmptyString
    | String _ _ => String "?" (serialize copy)
    end.
Proof.
  cbn zeta. split; [apply NoDup_unique|]. split; [apply In_unique|].
  unfold toString, normalised.
  destruct (getAll _filterParams _TYPE_STATE_KEY) as [|type types] eqn:Hall.
  - cbn [unique List.length Nat.ltb Nat.leb]. rewrite Hall.
    split; [reflexivity|]. split; [reflexivity|].
    now destruct (serialize _filterParams).
  - cbn [unique List.length]. cbn [Nat.ltb Nat.leb].
    split; [now rewrite getAll_params_set, String.eqb_refl|].
    split.
    + intros key Hne. apply String.eqb_neq in Hne.
      now rewrite getAll_params_set, Hne.
    + now destruct (serialize _).
Qed.

(** ** [getIconStyle] *)

Lemma cache_get_set (cache : Cache) (type : string) (info : IconStyle)
  (type' : string) :
  cache_get (cache_set cache type info) type' =
  if String.eqb type type' then Some info else cache_get cache type'.
Proof.
  induction cache as [|[k old] rest IH]; cbn [cache_set cache_get].
  - reflexivity.
  - destruct (String.eqb k type) eqn:Hk; cbn [cache_get].
    + apply String.eqb_eq in Hk as ->.
      now destruct (String.eqb type type').
    + rewrite IH. destruct (String.eqb k type') eqn:Hk'; [|reflexivity].
      apply String.eqb_eq in Hk' as ->.
      rewrite String.eqb_sym, Hk. reflexivity.
Qed.

Section Templates.

Variable symbolIcons : string -> option Icon.
Variable _OTHER_SYMBOL_TYPE : string.

(** Property X11.  The cache of [getIconStyle] cannot be told from the
    templates: on a cache that holds only styles read off the templates, the
    call returns the style of the type's icon (that of the fallback icon when
    the type has none), keeps the cache such, stores the style under the type
    and touches no other key; it throws, storing nothing, exactly when no icon
    is found or the icon has no title. *)
Theorem getIconStyle_cache (type : string) (iconInfoCache : Cache) :
  cache_sound symbolIcons _OTHER_SYMBOL_TYPE iconInfoCache ->
  match getIconStyle symbolIcons _OTHER_SYMBOL_TYPE type iconInfoCache with
  | Ok (info, cache') =>
      iconStyleOf symbolIcons _OTHER_SYMBOL_TYPE type = Some info /\
      cache_get cache' type = Some info /\
      cache_sound symbolIcons _OTHER_SYMBOL_TYPE cache' /\
      forall type', type' <> type ->
                    cache_get cache' type' = cache_get iconInfoCache type'
  | Throw e =>
      e = TypeError /\
      iconStyleOf symbolIcons _OTHER_SYMBOL_TYPE type = None
  end.
Proof.
  intros Hsound. unfold getIconStyle.
  destruct (cache_get iconInfoCache type) as [info|] eqn:Hget.
  - split; [now apply Hsound|]. split; [exact Hget|].
    split; [exact Hsound | reflexivity].
  - unfold getIconTemplate, iconStyleOf. cbn [bind].
    destruct (match symbolIcons type with
              | Some icon => Some icon
              | None => symbolIcons _OTHER_SYMBOL_TYPE
              end) as [icon|] eqn:Hicon; [|now split].
    destruct (title icon) as [text|] eqn:Htitle; [|now split].
    split; [reflexivity|]. split; [|split].
    + now rewrite cache_get_set, String.eqb_refl.
    + intros t info. rewrite cache_get_set.
      destruct (String.eqb_spec type t) as [<- | Hne].
      * intros [= <-]. unfold iconStyleOf. now rewrite Hicon, Htitle.
      * apply Hsound.
    + intros t Hne. rewrite cache_get_set.
      destruct (String.eqb_spec type t); [congruence | reflexivity].
Qed.

End Templates.

Lemma getIconStyle_cache_witness :
  getIconStyle two_icons "o" "x" [] =
    Ok ({| color := Some "#90a4ae"; description := "Other" |},
        [("x", {| color := Some "#90a4ae"; description := "Other" |})]) /\
  iconStyleOf two_icons "o" "x" =
    Some {| color := Some "#90a4ae"; description := "Other" |}.
Proof.
  split; [reflexivity|].
  assert (Hsound : cache_sound two_icons "o" []) by (intros t info [=]).
  exact (proj1 (getIconStyle_cache two_icons "o" "x" [] Hsound)).
Defined.

(** ** [setSizeClasses], applied again *)

Lemma existsb_classList_remove_other (cl : list string) (c d : string) :
  c <> d ->
  existsb (String.eqb c) (classList_remove cl d) = existsb (String.eqb c) cl.
Proof.
  intros Hne. unfold classList_remove.
  induction cl as [|x cl IH]; [reflexivity|].
  cbn [filter existsb].
  destruct (String.eqb_spec x d) as [-> | Hx]; cbn [negb existsb].
  - apply String.eqb_neq in Hne. now rewrite Hne.
  - now rewrite IH.
Qed.

Lemma existsb_classList_remove_same (cl : list string) (c : string) :
  existsb (String.eqb c) (classList_remove cl c) = false.
Proof.
  unfold classList_remove. induction cl as [|x cl IH]; [reflexivity|].
  cbn [filter].
  destruct (String.eqb x c) eqn:Hx; cbn [negb existsb]; [exact IH|].
  now rewrite String.eqb_sym, Hx.
Qed.

Lemma classList_remove_absent (cl : list string) (c : string) :
  existsb (String.eqb c) cl = false -> classList_remove cl c = cl.
Proof.
  unfold classList_remove. induction cl as [|x cl IH]; [reflexivity|].
  cbn [existsb filter]. intros Hex.
  apply orb_false_elim in Hex as [Hx Hex].
  rewrite String.eqb_sym, Hx. cbn [negb]. f_equal. now apply IH.
Qed.

Lemma existsb_classList_add (cl : list string) (c : string) :
  existsb (String.eqb c) (classList_add cl c) = true.
Proof.
  unfold classList_add.
  destruct (existsb (String.eqb c) cl) eqn:Hex; [exact Hex|].
  rewrite existsb_app. cbn [existsb].
  now rewrite String.eqb_refl, orb_true_r.
Qed.

Lemma existsb_classList_add_other (cl : list string) (c d : string) :
  c <> d ->
  existsb (String.eqb c) (classList_add cl d) = existsb (String.eqb c) cl.
Proof.
  intros Hne. unfold classList_add.
  destruct (existsb (String.eqb d) cl); [reflexivity|].
  rewrite existsb_app. cbn [existsb]. apply String.eqb_neq in Hne.
  now rewrite Hne, !orb_false_r.
Qed.

Lemma classList_add_present (cl : list string) (c : string) :
  existsb (String.eqb c) cl = true -> classList_add cl c = cl.
Proof. unfold classList_add. now intros ->. Qed.

(** The classes [setSizeClasses] leaves are those it would leave again,
    whatever became of the children in between. *)
Lemma setSizeClasses_classList_again (state : URLSearchParams)
  (sizeElement sizeElement' : Element) (value : Z) :
  classList sizeElement' =
    classList (setSizeClasses state sizeElement value) ->
  classList (setSizeClasses state sizeElement' value) =
    classList sizeElement'.
Proof.
  unfold setSizeClasses. cbn [classList]. intros ->.
  destruct (has state "diff_mode" && (_SIZE_CHANGE_CUTOFF <? Z.abs value)).
  - destruct (value <? 0).
    + rewrite (classList_add_present _ "shrunk").
      * apply classList_remove_absent, existsb_classList_remove_same.
      * rewrite existsb_classList_remove_other by discriminate.
        apply existsb_classList_add.
    + rewrite (classList_remove_absent _ "shrunk").
      * apply classList_add_present, existsb_classList_add.
      * rewrite existsb_classList_add_other by discriminate.
        apply existsb_classList_remove_same.
  - rewrite (classList_remove_absent _ "shrunk").
    + apply classList_remove_absent, existsb_classList_remove_same.
    + rewrite existsb_classList_remove_other by discriminate.
      apply existsb_classList_remove_same.
Qed.

(** Property X12.  [setSizeClasses] is idempotent: marking an element a
    second time for the same value, under the same state, changes neither its
    class list (order included) nor its children. *)
Theorem setSizeClasses_idempotent (state : URLSearchParams)
  (sizeElement : Element) (value : Z) :
  setSizeClasses state (setSizeClasses state sizeElement value) value =
  setSizeClasses state sizeElement value.
Proof.
  pose proof (setSizeClasses_classList_again state sizeElement
                (setSizeClasses state sizeElement value) value eq_refl)
    as Hagain.
  destruct (setSizeClasses state sizeElement value) as [cl children] eqn:He.
  unfold setSizeClasses in Hagain |- *. cbn [classList childNodes] in *.
  now rewrite Hagain.
Qed.

End StateExtra.

(* ================================================================== *)
(** * Further properties of the container info card *)
(* ================================================================== *)

Module InfocardExtra.
Import Tree State Infocard InfocardSpec InfocardSamples InfocardExtraSpec.
Import InfocardProps.

(** ** The update as a function of the page *)

Section Card.

Context {num : Type} `{JsNumber num}.
Variable toLocaleString : num -> LocaleOptions -> string.
Variable _BYTE_UNITS : string -> num.
Variable getIconStyle_color : string -> string.
Variable state : URLSearchParams.

Lemma drawEntry_step (diffMode : bool) (totalSize : Z)
  (entry : string * Stats.t) (l : Loop num) :
  In (fst entry) _infoRows ->
  drawEntry toLocaleString getIconStyle_color diffMode totalSize entry l =
  Ok (stepLoop toLocaleString getIconStyle_color diffMode totalSize l entry).
Proof.
  destruct entry as [type stats]. cbn [fst]. intros Hknown.
  unfold drawEntry, stepLoop, entryOps, hasSize.
  rewrite (infoRow_known _ _ Hknown).
  change (num_gt (arcLengthOf (percentageOf totalSize stats)) (of_int 0))
    with (hasArc totalSize (type, stats)).
  change (arcLengthOf (percentageOf totalSize stats))
    with (arcOf totalSize (type, stats)).
  cbn [fst snd].
  destruct (Z.eq_dec (Stats.size stats) 0) as [Hsize | Hsize].
  - rewrite _updateBreakdownRow_hide by exact Hsize. cbn [bind].
    rewrite Hsize. cbn [Z.eqb negb].
    destruct (hasArc totalSize (type, stats)); [|now rewrite app_nil_r].
    destruct diffMode; unfold _drawBorder, _drawSlice;
      cbn [sizeInfo tableBody rowText canvas]; rewrite <- ?app_assoc;
      reflexivity.
  - rewrite _updateBreakdownRow_show by exact Hsize. cbn [bind].
    apply Z.eqb_neq in Hsize. rewrite Hsize. cbn [negb].
    destruct (hasArc totalSize (type, stats)); [|now rewrite app_nil_r].
    destruct diffMode; unfold _drawBorder, _drawSlice;
      cbn [sizeInfo tableBody rowText canvas]; rewrite <- ?app_assoc;
      reflexivity.
Qed.

Lemma drawEntries_fold (diffMode : bool) (totalSize : Z)
  (entries : list (string * Stats.t)) :
  Forall (fun entry => In (fst entry) _infoRows) entries ->
  forall l,
    drawEntries toLocaleString getIconStyle_color diffMode totalSize
      entries l =
    Ok (fold_left
          (stepLoop toLocaleString getIconStyle_color diffMode totalSize)
          entries l).
Proof.
  induction 1 as [|entry rest Hknown _ IH]; intros l; [reflexivity|].
  cbn [drawEntries fold_left]. rewrite drawEntry_step by exact Hknown.
  apply IH.
Qed.

Lemma hideRows_fold (rows : list string) :
  forall card : Card num,
    hideRows toLocaleString rows card =
    Ok {| sizeInfo := sizeInfo card;
          tableBody := fold_left removeChild rows (tableBody card);
          rowText := rowText card;
          canvas := canvas card |}.
Proof.
  induction rows as [|row rest IH]; intros card; cbn [hideRows fold_left].
  - now destruct card.
  - rewrite (_updateBreakdownRow_hide toLocaleString row (of_int 0) card
               None I).
    cbn [bind]. now rewrite IH.
Qed.

Lemma _updateInfocard_updated (node : TreeNode) (this : Card num) :
  knownTypes node ->
  _updateInfocard toLocaleString _BYTE_UNITS getIconStyle_color state
    node this =
  Ok (updated toLocaleString _BYTE_UNITS getIconStyle_color state
        node this).
Proof.
  intros Hknown. unfold _updateInfocard, updated.
  rewrite drawEntries_fold.
  - cbn [bind]. rewrite hideRows_fold. reflexivity.
  - apply (Permutation_Forall (Permutation_sym (statsEntriesOf_perm node))).
    exact Hknown.
Qed.

(** *** A type without a row *)



(** *** What the loop leaves *)

Lemma among_In (keys : list string) (k : string) :
  among keys k = true <-> In k keys.
Proof.
  unfold among. rewrite existsb_exists. split.
  - intros (x & Hx & Heq). now apply String.eqb_eq in Heq as ->.
  - intros Hin. exists k. split; [exact Hin | apply String.eqb_refl].
Qed.

Lemma among_cons (key : string) (keys : list string) (k : string) :
  among (key :: keys) k = String.eqb k key || among keys k.
Proof. reflexivity. Qed.

Lemma filter_filter {A : Type} (f g : A -> bool) (l : list A) :
  filter f (filter g l) = filter (fun x => g x && f x) l.
Proof.
  induction l as [|x l IH]; [reflexivity|].
  cbn [filter]. destruct (g x); cbn [filter andb]; now rewrite IH.
Qed.

Lemma fold_removeChild (rows : list string) :
  forall body,
    fold_left removeChild rows body =
    filter (fun k => negb (among rows k)) body.
Proof.
  induction rows as [|row rest IH]; intros body; cbn [fold_left].
  - symmetry. apply forallb_filter_id. now apply forallb_forall.
  - rewrite IH. unfold removeChild. rewrite filter_filter.
    apply filter_ext. intros k. rewrite among_cons.
    now destruct (String.eqb k row), (among rest k).
Qed.

Lemma fold_delete (keys : list string) :
  forall rows,
    fold_left delete keys rows =
    filter (fun k => negb (among keys k)) rows.
Proof.
  induction keys as [|key rest IH]; intros rows; cbn [fold_left].
  - symmetry. apply forallb_filter_id. now apply forallb_forall.
  - rewrite IH. unfold delete. rewrite filter_filter.
    apply filter_ext. intros k. rewrite among_cons.
    now destruct (String.eqb k key), (among rest k).
Qed.

(** The loop locals after the loop, for entries with distinct types. *)
Lemma fold_stepLoop (diffMode : bool) (totalSize : Z)
  (entries : list (string * Stats.t)) :
  forall l,
    let lf :=
      fold_left
        (stepLoop toLocaleString getIconStyle_color diffMode totalSize)
        entries l in
    extraRows lf = fold_left delete (map fst entries) (extraRows l) /\
    sizeInfo (card lf) = sizeInfo (card l) /\
    canvas (card lf) =
      canvas (card l) ++
      pieOps getIconStyle_color diffMode totalSize (angleStart l) entries /\
    (NoDup (map fst entries) ->
     tableBody (card lf) =
       filter (fun k => negb (among (map fst entries) k))
         (tableBody (card l)) ++
       map fst (filter hasSize entries)) /\
    (NoDup (map fst entries) ->
     forall k,
       rowText (card lf) k =
       match find (fun entry => String.eqb (fst entry) k) entries with
       | Some entry =>
           if hasSize entry
           then rowTextOf toLocaleString totalSize (snd entry)
           else rowText (card l) k
       | None => rowText (card l) k
       end).
Proof.
  induction entries as [|entry rest IH]; intros l; cbn zeta.
  - cbn [fold_left map pieOps filter find].
    rewrite !app_nil_r. repeat split; try reflexivity.
    intros _. symmetry. apply forallb_filter_id. now apply forallb_forall.
  - cbn [fold_left map pieOps filter find].
    destruct (IH (stepLoop toLocaleString getIconStyle_color diffMode
                    totalSize l entry))
      as (Hextra & Hsize & Hcanvas & Hbody & Htext).
    cbn [stepLoop extraRows card sizeInfo canvas angleStart tableBody
           rowText] in Hextra, Hsize, Hcanvas, Hbody, Htext.
    split; [exact Hextra|]. split; [exact Hsize|].
    split; [now rewrite Hcanvas, app_assoc|].
    split.
    + intros Hnodup. apply NoDup_cons_iff in Hnodup as [Hfresh Hnodup].
      rewrite (Hbody Hnodup). clear IH Hbody Htext.
      assert (Hnot : among (map fst rest) (fst entry) = false).
      { destruct (among (map fst rest) (fst entry)) eqn:Ham;
          [|reflexivity].
        apply among_In in Ham. contradiction. }
      assert (Hfilter : forall body,
        filter (fun k => negb (among (map fst rest) k))
          (removeChild body (fst entry)) =
        filter (fun k => negb (among (fst entry :: map fst rest) k)) body).
      { intros body. unfold removeChild. rewrite filter_filter.
        apply filter_ext. intros k. rewrite among_cons.
        now destruct (String.eqb k (fst entry)), (among (map fst rest) k). }
      destruct (hasSize entry).
      * unfold appendChild. rewrite filter_app, Hfilter.
        cbn [filter map]. rewrite Hnot. cbn [negb].
        now rewrite <- app_assoc.
      * now rewrite Hfilter.
    + intros Hnodup k. apply NoDup_cons_iff in Hnodup as [Hfresh Hnodup].
      rewrite (Htext Hnodup k). clear IH Hbody Htext.
      destruct (String.eqb (fst entry) k) eqn:Hk.
      * apply String.eqb_eq in Hk as <-.
        replace (find (fun e => String.eqb (fst e) (fst entry)) rest)
          with (@None (string * Stats.t)).
        -- destruct (hasSize entry); [|reflexivity].
           now rewrite String.eqb_refl.
        -- symmetry.
           destruct (find (fun e => String.eqb (fst e) (fst entry)) rest)
             as [e|] eqn:Hfind; [|reflexivity].
           apply find_some in Hfind as [He Heq].
           apply String.eqb_eq in Heq.
           exfalso. apply Hfresh. rewrite <- Heq. now apply in_map.
      * assert (Hother :
          (if hasSize entry
           then fun k0 => if String.eqb k0 (fst entry)
                          then rowTextOf toLocaleString totalSize (snd entry)
                          else rowText (card l) k0
           else rowText (card l)) k = rowText (card l) k).
        { destruct (hasSize entry); [|reflexivity].
          now rewrite String.eqb_sym, Hk. }
        rewrite Hother. reflexivity.
Qed.

Lemma fold_stepLoop_angle (diffMode : bool) (totalSize : Z)
  (entries : list (string * Stats.t)) :
  forall l l',
    angleStart l = angleStart l' ->
    angleStart
      (fold_left
         (stepLoop toLocaleString getIconStyle_color diffMode totalSize)
         entries l) =
    angleStart
      (fold_left
         (stepLoop toLocaleString getIconStyle_color diffMode totalSize)
         entries l').
Proof.
  induction entries as [|entry rest IH]; intros l l' Hangle;
    cbn [fold_left]; [exact Hangle|].
  apply IH. cbn [stepLoop angleStart]. now rewrite Hangle.
Qed.

Lemma among_filter (p : string -> bool) (keys : list string) (k : string) :
  among (filter p keys) k = among keys k && p k.
Proof.
  induction keys as [|key keys IH]; [reflexivity|].
  cbn [filter]. destruct (p key) eqn:Hp; rewrite ?among_cons, IH.
  - destruct (String.eqb_spec k key) as [-> | Hne]; cbn [orb andb].
    + now rewrite Hp.
    + reflexivity.
  - destruct (String.eqb_spec k key) as [-> | Hne]; cbn [orb andb].
    + rewrite Hp. apply andb_false_r.
    + reflexivity.
Qed.

Lemma filter_none {A : Type} (p : A -> bool) (l : list A) :
  (forall x, In x l -> p x = false) -> filter p l = [].
Proof.
  induction l as [|x l IH]; intros Hnone; [reflexivity|].
  cbn [filter]. rewrite (Hnone x) by now left.
  apply IH. intros y Hy. apply Hnone. now right.
Qed.

Lemma statsEntriesOf_known (node : TreeNode) :
  knownTypes node ->
  Forall (fun entry => In (fst entry) _infoRows) (statsEntriesOf node).
Proof.
  apply (Permutation_Forall (Permutation_sym (statsEntriesOf_perm node))).
Qed.

Lemma statsEntriesOf_distinct (node : TreeNode) :
  distinctTypes node -> NoDup (map fst (statsEntriesOf node)).
Proof.
  apply Permutation_NoDup, Permutation_map, Permutation_sym,
    statsEntriesOf_perm.
Qed.

Lemma shown_known (node : TreeNode) (k : string) :
  knownTypes node ->
  In k (map fst (filter hasSize (statsEntriesOf node))) ->
  among _infoRows k = true.
Proof.
  intros Hknown Hin. apply among_In.
  apply in_map_iff in Hin as (entry & <- & Hentry).
  apply filter_In in Hentry as [Hentry _].
  pose proof (statsEntriesOf_known node Hknown) as Hall.
  rewrite Forall_forall in Hall. now apply Hall.
Qed.

(** The page after the update, field by field. *)
Lemma updated_page (node : TreeNode) (this : Card num) :
  knownTypes node -> distinctTypes node ->
  let page :=
    fst (updated toLocaleString _BYTE_UNITS getIconStyle_color state
           node this) in
  sizeInfo page =
    sizeInfo (_updateSize toLocaleString _BYTE_UNITS state node this) /\
  tableBody page =
    filter (fun k => negb (among _infoRows k)) (tableBody this) ++
    map fst (filter hasSize (statsEntriesOf node)) /\
  (forall k,
     rowText page k =
     match find (fun entry => String.eqb (fst entry) k)
             (statsEntriesOf node) with
     | Some entry =>
         if hasSize entry
         then rowTextOf toLocaleString (totalSizeOf (statsEntriesOf node))
                (snd entry)
         else rowText this k
     | None => rowText this k
     end) /\
  canvas page =
    canvas this ++
    pieOps getIconStyle_color (has state "diff_mode")
      (totalSizeOf (statsEntriesOf node)) (of_int 0) (statsEntriesOf node).
Proof.
  intros Hknown Hdistinct. cbn zeta. unfold updated. cbn [fst].
  pose proof (statsEntriesOf_distinct node Hdistinct) as Hnodup.
  destruct (fold_stepLoop (has state "diff_mode")
              (totalSizeOf (statsEntriesOf node)) (statsEntriesOf node)
              {| extraRows := _infoRows; angleStart := of_int 0;
                 card := Infocard_updateInfocard toLocaleString _BYTE_UNITS
                           state node this |})
    as (Hextra & Hsize & Hcanvas & Hbody & Htext).
  cbn [sizeInfo tableBody rowText canvas].
  cbn [extraRows card angleStart] in Hextra, Hsize, Hcanvas, Hbody, Htext.
  split; [exact Hsize|]. split; [|split].
  - rewrite Hextra, fold_delete, fold_removeChild, (Hbody Hnodup).
    change (tableBody (Infocard_updateInfocard toLocaleString _BYTE_UNITS
                         state node this)) with (tableBody this).
    rewrite filter_app, filter_filter. f_equal.
    + apply filter_ext. intros k. rewrite among_filter.
      destruct (among (map fst (statsEntriesOf node)) k) eqn:Hkey;
        cbn [negb andb]; [|now rewrite andb_true_r].
      apply among_In in Hkey. apply in_map_iff in Hkey as (entry & <- & He).
      pose proof (statsEntriesOf_known node Hknown) as Hall.
      rewrite Forall_forall in Hall.
      apply Hall, among_In in He. now rewrite He.
    + apply forallb_filter_id, forallb_forall. intros k Hk.
      rewrite among_filter.
      assert (Hkey : among (map fst (statsEntriesOf node)) k = true).
      { apply among_In. apply in_map_iff in Hk as (entry & <- & He).
        apply filter_In in He as [He _]. now apply in_map. }
      rewrite Hkey. cbn [negb]. now rewrite andb_false_r.
  - exact (Htext Hnodup).
  - exact Hcanvas.
Qed.

(** Property X14.  After an update the table holds, below whatever rows
    it had that are not type rows, exactly the rows of the types whose size is
    not zero, in the order of the sorted entries: by descending signed size.
    On a table made of type rows only, nothing else is left. *)
Theorem table_in_sorted_order (node : TreeNode) (this : Card num) :
  knownTypes node -> distinctTypes node ->
  exists card' angle,
    _updateInfocard toLocaleString _BYTE_UNITS getIconStyle_color state
      node this = Ok (card', angle) /\
    tableBody card' =
      filter (fun k => negb (among _infoRows k)) (tableBody this) ++
      map fst (filter hasSize (statsEntriesOf node)) /\
    (incl (tableBody this) _infoRows ->
     tableBody card' = map fst (filter hasSize (statsEntriesOf node))).
Proof.
  intros Hknown Hdistinct.
  rewrite _updateInfocard_updated by exact Hknown.
  destruct (updated_page node this Hknown Hdistinct)
    as (_ & Hbody & _ & _).
  destruct (updated _ _ _ _ node this) as [card' angle].
  cbn [fst] in Hbody. exists card', angle.
  split; [reflexivity|]. split; [exact Hbody|].
  intros Hincl. rewrite Hbody, filter_none; [reflexivity|].
  intros k Hk. apply Hincl, among_In in Hk. now rewrite Hk.
Qed.

Lemma pieOps_no_border (totalSize : Z) (entries : list (string * Stats.t)) :
  forall (angle : num) (op : CanvasOp num),
    In op (pieOps getIconStyle_color false totalSize angle entries) ->
    exists angleStart angleEnd fillColor,
      op = DrawSlice angleStart angleEnd fillColor.
Proof.
  induction entries as [|entry rest IH]; intros angle op;
    cbn [pieOps In]; [tauto|].
  rewrite in_app_iff. intros [Hentry | Hrest]; [|exact (IH _ _ Hrest)].
  unfold entryOps in Hentry.
  destruct (hasArc totalSize entry); cbn [In] in Hentry; [|tauto].
  destruct Hentry as [<- | []]. now eexists _, _, _.
Qed.

(** Property X15.  The update appends to the canvas, for each entry with
    an arc and in sorted order, its slice and, when the state has "diff_mode",
    right after it a border of width 16 over the same angles, red
    ([#ea4335]) for a positive size and green ([#34a853]) otherwise; without
    "diff_mode" it draws no border.  What was on the canvas stays. *)
Theorem pie_slices_and_borders (node : TreeNode) (this : Card num) :
  knownTypes node ->
  exists card' angle,
    _updateInfocard toLocaleString _BYTE_UNITS getIconStyle_color state
      node this = Ok (card', angle) /\
    canvas card' =
      canvas this ++
      pieOps getIconStyle_color (has state "diff_mode")
        (totalSizeOf (statsEntriesOf node)) (of_int 0)
        (statsEntriesOf node) /\
    (has state "diff_mode" = false ->
     forall op, In op (canvas card') ->
       In op (canvas this) \/
       exists angleStart angleEnd fillColor,
         op = DrawSlice angleStart angleEnd fillColor).
Proof.
  intros Hknown. rewrite _updateInfocard_updated by exact Hknown.
  unfold updated.
  destruct (fold_stepLoop (has state "diff_mode")
              (totalSizeOf (statsEntriesOf node)) (statsEntriesOf node)
              {| extraRows := _infoRows; angleStart := of_int 0;
                 card := Infocard_updateInfocard toLocaleString _BYTE_UNITS
                           state node this |})
    as (_ & _ & Hcanvas & _ & _).
  cbn [card angleStart] in Hcanvas.
  change (canvas (Infocard_updateInfocard toLocaleString _BYTE_UNITS
                    state node this)) with (canvas this) in Hcanvas.
  eexists _, _. split; [reflexivity|]. cbn [canvas].
  split; [exact Hcanvas|].
  intros Hmode op. rewrite Hcanvas, Hmode, in_app_iff.
  intros [Hold | Hnew]; [now left | right].
  exact (pieOps_no_border _ _ _ _ Hnew).
Qed.

(** The heading [_updateSize] writes is the one it would write again. *)
Lemma _updateSize_again (node : TreeNode) (this page : Card num) :
  sizeInfo page =
    sizeInfo (_updateSize toLocaleString _BYTE_UNITS state node this) ->
  sizeInfo (_updateSize toLocaleString _BYTE_UNITS state node page) =
    sizeInfo page.
Proof.
  intros Hpage. unfold _updateSize, replace in *. cbn [sizeInfo] in *.
  rewrite (StateExtra.setSizeClasses_classList_again state (sizeInfo this)
             (sizeInfo page)) by (now rewrite Hpage).
  now rewrite Hpage.
Qed.

(** Property X16.  Updating the card twice for the same node leaves the
    heading, the rows of the table, the text of every cell and the final angle
    as the first update left them.  The canvas is not cleared in between: the
    second update draws the same slices and borders over the first. *)
Theorem update_again (node : TreeNode) (this : Card num) :
  knownTypes node -> distinctTypes node ->
  exists card1 angle1 card2 angle2 drawn,
    _updateInfocard toLocaleString _BYTE_UNITS getIconStyle_color state
      node this = Ok (card1, angle1) /\
    _updateInfocard toLocaleString _BYTE_UNITS getIconStyle_color state
      node card1 = Ok (card2, angle2) /\
    sizeInfo card2 = sizeInfo card1 /\
    tableBody card2 = tableBody card1 /\
    (forall k, rowText card2 k = rowText card1 k) /\
    angle2 = angle1 /\
    canvas card1 = canvas this ++ drawn /\
    canvas card2 = canvas this ++ drawn ++ drawn.
Proof.
  intros Hknown Hdistinct.
  rewrite _updateInfocard_updated by exact Hknown.
  destruct (updated_page node this Hknown Hdistinct)
    as (Hsize1 & Hbody1 & Htext1 & Hcanvas1).
  assert (Hangle : forall page,
    snd (updated toLocaleString _BYTE_UNITS getIconStyle_color state
           node page) =
    snd (updated toLocaleString _BYTE_UNITS getIconStyle_color state
           node this)).
  { intros page. unfold updated. cbn [snd].
    now apply fold_stepLoop_angle. }
  destruct (updated _ _ _ _ node this) as [card1 angle1].
  cbn [fst snd] in Hsize1, Hbody1, Htext1, Hcanvas1, Hangle.
  pose proof (_updateInfocard_updated node card1 Hknown) as Hrun2.
  destruct (updated_page node card1 Hknown Hdistinct)
    as (Hsize2 & Hbody2 & Htext2 & Hcanvas2).
  specialize (Hangle card1).
  destruct (updated _ _ _ _ node card1) as [card2 angle2].
  cbn [fst snd] in Hsize2, Hbody2, Htext2, Hcanvas2, Hangle.
  exists card1, angle1, card2, angle2,
    (pieOps getIconStyle_color (has state "diff_mode")
       (totalSizeOf (statsEntriesOf node)) (of_int 0)
       (statsEntriesOf node)).
  split; [reflexivity|]. split; [exact Hrun2|].
  split; [|split; [|split; [|split; [|split]]]].
  - rewrite Hsize2. now apply _updateSize_again with (this := this).
  - rewrite Hbody2, Hbody1, filter_app, filter_filter.
    rewrite (filter_none _ (map fst _)).
    + rewrite app_nil_r. f_equal. apply filter_ext. intros k.
      now destruct (among _infoRows k).
    + intros k Hk. now rewrite (shown_known node k Hknown Hk).
  - intros k. rewrite Htext2, Htext1.
    destruct (find _ (statsEntriesOf node)) as [entry|]; [|reflexivity].
    now destruct (hasSize entry).
  - exact Hangle.
  - exact Hcanvas1.
  - now rewrite Hcanvas2, Hcanvas1, <- app_assoc.
Qed.

Lemma string_app_assoc (s t u : string) :
  ((s ++ t) ++ u = s ++ (t ++ u))%string.
Proof.
  induction s as [|c s IH]; [reflexivity|].
  cbn [append]. now rewrite IH.
Qed.

(** Property X17.  The heading reads the grouped byte count, then
    [" bytes ("], the size in the unit of the state with two fraction digits,
    a space, the name of the unit, and [")"]; the unit is "KiB" when the
    state has no "byteunit" or an empty one.  What the heading held before is
    gone, and "gzip" plays no part. *)
Theorem heading_text (node : TreeNode) (this : Card num) :
  let unit' :=
    match get state "byteunit" with
    | Some v => if String.eqb v "" then "KiB" else v
    | None => "KiB"
    end in
  textContent
    (childNodes
       (sizeInfo (_updateSize toLocaleString _BYTE_UNITS state node this))) =
  (toLocaleString (of_int (size node))
     {| useGrouping := Some true; minimumFractionDigits := None;
        maximumFractionDigits := None; style := None |} ++
   " bytes (" ++
   toLocaleString (num_div (of_int (size node)) (_BYTE_UNITS unit'))
     {| useGrouping := None; minimumFractionDigits := Some 2;
        maximumFractionDigits := Some 2; style := None |} ++
   " " ++ unit' ++ ")")%string.
Proof.
  cbn zeta. unfold _updateSize, getSizeContents, replace, createFragment,
    textElement.
  cbn [sizeInfo childNodes description element fold_left app textContent
         fold_right].
  replace (if has state "gzip" then size node else size node)
    with (size node) by (now destruct (has state "gzip")).
  rewrite !string_app_assoc. reflexivity.
Qed.

End Card.

(** ** The order of the entries *)

Lemma filter_sort_insert (z : Z) (x : string * Stats.t)
  (l : list (string * Stats.t)) :
  filter (fun e => Stats.size (snd e) =? z)
    (sort_insert (fun a b => Stats.size (snd b) - Stats.size (snd a)) x l) =
  filter (fun e => Stats.size (snd e) =? z) (x :: l).
Proof.
  induction l as [|y l IH]; [reflexivity|].
  cbn [sort_insert].
  destruct (0 <? Stats.size (snd y) - Stats.size (snd x)) eqn:Hlt;
    [|reflexivity].
  apply Z.ltb_lt in Hlt.
  cbn [filter] in IH |- *. rewrite IH.
  destruct (Z.eqb_spec (Stats.size (snd y)) z),
    (Z.eqb_spec (Stats.size (snd x)) z); try reflexivity.
  lia.
Qed.

(** Property X18.  Sorting moves no entry past one of the same size:
    the entries of any given size come in the order [childStats] has them, so
    types that tie are drawn and listed in that order. *)
Theorem equal_sizes_keep_order (node : TreeNode) (z : Z) :
  filter (fun e => Stats.size (snd e) =? z) (statsEntriesOf node) =
  filter (fun e => Stats.size (snd e) =? z) (childStats node).
Proof.
  unfold statsEntriesOf.
  induction (childStats node) as [|x l IH]; [reflexivity|].
  cbn [sort]. rewrite filter_sort_insert. cbn [filter]. now rewrite IH.
Qed.

(** ** The properties at work *)

Lemma table_in_sorted_order_witness :
  exists (card' : Card binary64) (angle : binary64),
    _updateInfocard (num := binary64) no_format KiB color_of_type []
      (directory [("t", -300); ("b", 0); ("r", 100); ("d", 100)])
      fresh_page = Ok (card', angle) /\
    tableBody card' = ["r"; "d"; "t"].
Proof.
  assert (Hknown :
    knownTypes (directory [("t", -300); ("b", 0); ("r", 100); ("d", 100)]))
    by (now apply knownTypes_check).
  assert (Hdistinct :
    distinctTypes
      (directory [("t", -300); ("b", 0); ("r", 100); ("d", 100)])).
  { unfold distinctTypes. cbn.
    repeat constructor; cbn; intuition discriminate. }
  destruct (table_in_sorted_order (num := binary64) no_format KiB
              color_of_type [] _ fresh_page Hknown Hdistinct)
    as (card' & angle & Hrun & _ & Hrows).
  exists card', angle. split; [exact Hrun|].
  rewrite Hrows; [reflexivity|]. intros k Hk. exact Hk.
Defined.

Lemma pie_slices_and_borders_witness :
  exists (card' : Card binary64) (angle : binary64),
    _updateInfocard (num := binary64) no_format KiB color_of_type
      [("diff_mode", "on")]
      (directory [("t", -300); ("r", 100)]) fresh_page =
      Ok (card', angle) /\
    canvas card' =
      [DrawSlice (of_int 0) (S754_finite false 7074237752028440 (-52)) "r";
       DrawBorder (of_int 0) (S754_finite false 7074237752028440 (-52))
         "#ea4335" 16;
       DrawSlice (S754_finite false 7074237752028440 (-52)) b64_2_PI "t";
       DrawBorder (S754_finite false 7074237752028440 (-52)) b64_2_PI
         "#34a853" 16].
Proof.
  assert (Hknown : knownTypes (directory [("t", -300); ("r", 100)]))
    by (now apply knownTypes_check).
  destruct (pie_slices_and_borders (num := binary64) no_format KiB
              color_of_type [("diff_mode", "on")] _ fresh_page Hknown)
    as (card' & angle & Hrun & Hcanvas & _).
  exists card', angle. split; [exact Hrun|].
  rewrite Hcanvas. reflexivity.
Defined.

Lemma update_again_witness :
  exists (card1 card2 : Card binary64) (angle1 angle2 : binary64),
    _updateInfocard (num := binary64) no_format KiB color_of_type
      [("diff_mode", "on")]
      (directory [("t", -300); ("r", 100); ("b", 0)]) fresh_page =
      Ok (card1, angle1) /\
    _updateInfocard (num := binary64) no_format KiB color_of_type
      [("diff_mode", "on")]
      (directory [("t", -300); ("r", 100); ("b", 0)]) card1 =
      Ok (card2, angle2) /\
    sizeInfo card2 = sizeInfo card1 /\
    tableBody card2 = tableBody card1 /\
    angle2 = angle1 /\
    canvas card2 = canvas card1 ++ canvas card1.
Proof.
  assert (Hknown :
    knownTypes (directory [("t", -300); ("r", 100); ("b", 0)]))
    by (now apply knownTypes_check).
  assert (Hdistinct :
    distinctTypes (directory [("t", -300); ("r", 100); ("b", 0)])).
  { unfold distinctTypes. cbn.
    repeat constructor; cbn; intuition discriminate. }
  destruct (update_again (num := binary64) no_format KiB color_of_type
              [("diff_mode", "on")] _ fresh_page Hknown Hdistinct)
    as (card1 & angle1 & card2 & angle2 & drawn & Hrun1 & Hrun2 & Hsize &
        Hbody & _ & Hangle & Hcanvas1 & Hcanvas2).
  exists card1, card2, angle1, angle2.
  split; [exact Hrun1|]. split; [exact Hrun2|]. split; [exact Hsize|].
  split; [exact Hbody|]. split; [exact Hangle|].
  change (canvas card1 = drawn) in Hcanvas1.
  change (canvas card2 = drawn ++ drawn) in Hcanvas2.
  rewrite Hcanvas2, Hcanvas1. reflexivity.
Defined.

End InfocardExtra.

(* ================================================================== *)
(** * Properties of [displayInfocard] *)
(* ================================================================== *)

Module DisplayExtra.
Import Tree Display InfocardSamples.

Section Display.

Variable _CONTAINER_TYPE_SET : list string.

(** When whatever waits was requested last, cancelling the pending
    request leaves nothing waiting. *)
Lemma cancel_pending (page : Page) :
  (forall f, In f (frames page) -> _pendingFrame page = Some (fst f)) ->
  cancelAnimationFrame (_pendingFrame page) (frames page) = [].
Proof.
  intros Hpage. unfold cancelAnimationFrame.
  destruct (_pendingFrame page) as [h|] eqn:Hpending.
  - apply InfocardExtra.filter_none. intros f Hf.
    specialize (Hpage f Hf). injection Hpage as ->.
    now rewrite Z.eqb_refl.
  - destruct (frames page) as [|f rest]; [reflexivity|].
    now specialize (Hpage f (or_introl eq_refl)).
Qed.

Lemma waiting_is_pending (events : list Event) :
  forall page,
    (forall f, In f (frames page) -> _pendingFrame page = Some (fst f)) ->
    forall f,
      In f (frames (fold_left (step _CONTAINER_TYPE_SET) events page)) ->
      _pendingFrame (fold_left (step _CONTAINER_TYPE_SET) events page) =
      Some (fst f).
Proof.
  induction events as [|ev events IH]; intros page Hpage;
    cbn [fold_left]; [exact Hpage|].
  apply IH. clear IH. intros f.
  destruct ev as [node|]; cbn [step].
  - unfold displayInfocard.
    destruct (isContainer _CONTAINER_TYPE_SET node);
      cbn [setHidden updateInfocard frames _pendingFrame];
      rewrite (cancel_pending page Hpage); cbn [app In fst];
      now intros [<- | []].
  - cbn [runFrame fst frames]. intros [].
Qed.

(** Property X19.  However many nodes were displayed since the last
    frame, on either card, the next frame runs a single update: that of the
    node displayed last, on the card its type selects (the container card
    when [node.type[0]] is in [_CONTAINER_TYPE_SET], the symbol card
    otherwise).  That card is shown and the other one hidden at once, before
    the frame comes. *)
Theorem one_update_per_frame (page : Page) (events : list Event)
  (node : TreeNode) :
  frames page = [] ->
  let before := fold_left (step _CONTAINER_TYPE_SET) events page in
  let after := displayInfocard _CONTAINER_TYPE_SET node before in
  snd (runFrame after) =
    [(if isContainer _CONTAINER_TYPE_SET node
      then ContainerCard else SymbolCard, node)] /\
  frames (fst (runFrame after)) = [] /\
  containerHidden after = negb (isContainer _CONTAINER_TYPE_SET node) /\
  symbolHidden after = isContainer _CONTAINER_TYPE_SET node.
Proof.
  intros Hnone. cbn zeta.
  assert (Hbefore :
    cancelAnimationFrame
      (_pendingFrame (fold_left (step _CONTAINER_TYPE_SET) events page))
      (frames (fold_left (step _CONTAINER_TYPE_SET) events page)) = []).
  { apply cancel_pending, waiting_is_pending.
    rewrite Hnone. intros f []. }
  unfold displayInfocard, runFrame.
  destruct (isContainer _CONTAINER_TYPE_SET node);
    cbn [setHidden updateInfocard frames snd fst containerHidden
           symbolHidden negb];
    rewrite Hbefore; repeat split.
Qed.

End Display.

Lemma one_update_per_frame_witness :
  let dir := directory [("t", 300)] in
  let sym := {| size := 7; type := "t"; childStats := [] |} in
  let other := {| size := 9; type := "b"; childStats := [] |} in
  let after :=
    displayInfocard ["D"; "C"; "J"; "F"] sym
      (fold_left (step ["D"; "C"; "J"; "F"])
         [Displayed other; Frame; Displayed sym; Displayed dir] loaded) in
  snd (runFrame after) = [(SymbolCard, sym)] /\
  containerHidden after = true /\ symbolHidden after = false /\
  _pendingFrame after = Some 4.
Proof.
  cbn zeta.
  destruct (one_update_per_frame ["D"; "C"; "J"; "F"] loaded
              [Displayed {| size := 9; type := "b"; childStats := [] |};
               Frame;
               Displayed {| size := 7; type := "t"; childStats := [] |};
               Displayed (directory [("t", 300)])]
              {| size := 7; type := "t"; childStats := [] |} eq_refl)
    as (Hrun & _ & Hcontainer & Hsymbol).
  split; [exact Hrun|]. split; [exact Hcontainer|].
  split; [exact Hsymbol | reflexivity].
Defined.

End DisplayExtra.

(* ================================================================== *)
(** * Properties of the type icon *)
(* ================================================================== *)

Module TypeIconExtra.
Import Js Tree State Icons Display TypeIcon StateExtraSpec.






Section Templates.

Variable symbolIcons : string -> option Icon.
Variable _OTHER_SYMBOL_TYPE : string.



End Templates.


End TypeIconExtra.

(* ================================================================== *)
(** * Properties of the options panel *)
(* ================================================================== *)

Module OptionsExtra.
Import Options.

Lemma _toggleOptions_stored (panel : Panel) :
  stored (_toggleOptions panel) =
  Some (bool_toString (show_options (_toggleOptions panel))).
Proof. reflexivity. Qed.

Lemma toggles_parity (clicks : nat) (panel : Panel) :
  show_options (Nat.iter clicks _toggleOptions panel) =
  xorb (show_options panel) (Nat.odd clicks).
Proof.
  induction clicks as [|n IH].
  - cbn. now rewrite xorb_false_r.
  - rewrite Nat.odd_succ, <- Nat.negb_odd, Nat.iter_succ.
    cbn [_toggleOptions show_options]. rewrite IH.
    now destruct (show_options panel), (Nat.odd n).
Qed.

(** Property X21.  The panel remembers how it was left.  After any
    number of clicks, at least one, the storage says whether the panel is
    open, and a page loaded from that storage, its body not carrying the class
    in the markup, has the panel open exactly when it was open at the end; the
    clicks themselves flip the panel each time.  On a first visit, with
    nothing stored, the panel opens. *)
Theorem panel_remembered (clicks : nat) (panel : Panel) (markup : bool) :
  let left := Nat.iter (S clicks) _toggleOptions panel in
  show_options left = xorb (show_options panel) (Nat.odd (S clicks)) /\
  stored left = Some (bool_toString (show_options left)) /\
  load false (stored left) = left /\
  show_options (load markup None) = true.
Proof.
  cbn zeta. split; [apply toggles_parity|].
  rewrite Nat.iter_succ.
  split; [apply _toggleOptions_stored|]. split; [|reflexivity].
  generalize (Nat.iter clicks _toggleOptions panel). intros before.
  unfold load, _startListeners, _toggleOptions.
  cbn [stored show_options].
  destruct (show_options before); reflexivity.
Qed.

End OptionsExtra.
